(** * HackMate: the real-time synchronization layer over the document store

    A shallow embedding of [lib/firestore.ts] (project, task, message,
    member, milestone, resource, activity, notification and wellness
    operations), of the loading and task handlers of
    [app/project/[id]/page_simple.tsx], of the auth context
    [lib/auth-context.tsx] and of the handlers of the documentation
    generator page.

    - JavaScript objects and store documents are finite maps from field
      names to values ([gmap string Value]); the value [undefined] is a
      value of its own, as in the source.
    - A promise is described by the moment it settles (milliseconds after
      the call) and by how it settles, or by the fact that it never does.
    - The remote store is a map from collection names to collections; a
      batched commit applies all of its writes or none.
    - The behaviour of the network on each store call ([Net]) is an input
      of the operation that makes the call.
    - A query without an ordering lists its matches by document id.
    - The dates written to the store are taken inside the range the
      store accepts, the years 1 to 9999. *)

From Stdlib Require Import ZArith NArith Lia Floats.SpecFloat.
From Stdlib Require Import Sorting.Sorted Sorting.Permutation.
From stdpp Require Import gmap strings list fin_maps sorting.

Local Open Scope string_scope.
Local Open Scope list_scope.

(** ** JavaScript values and documents *)

Inductive Value : Type :=
| VUndefined
| VNull
| VBool (b : bool)
| VNum (n : Z)
| VStr (s : string)
| VStrings (l : list string)      (* a string[] field: members, tags, ... *)
| VDate (ms : Z)                  (* a client-side Date; where one is written,
                                     its time lies in the years 1 to 9999,
                                     the range the store takes *)
| VInvalidDate                    (* a Date whose time value is NaN *)
| VTimestamp (ms : Z)             (* a store Timestamp, as read back *)
| VServerTimestamp                (* the serverTimestamp() sentinel *)
| VArrayUnion (l : list string).  (* the arrayUnion(...) sentinel *)

#[global] Instance Value_eq_dec : EqDecision Value.
Proof. solve_decision. Defined.

Abbreviation Doc := (gmap string Value).
Abbreviation Store := (gmap string (gmap string (gmap string Value))).

(** [Object.fromEntries(Object.entries(o).filter(([_, value]) => value !== undefined))] *)
Definition strip_undefined (o : Doc) : Doc :=
  filter (λ kv : string * Value, kv.2 ≠ VUndefined) o.

Definition has_undefined (o : Doc) : Prop :=
  map_Exists (λ (_ : string) (v : Value), v = VUndefined) o.

(** ** Promises with their settling time *)

Inductive Error : Type :=
| DatabaseNotAvailable            (* thrown by getDb *)
| StoreError (msg : string)       (* a rejection coming from the store *)
| InvalidData                     (* unsupported field value: undefined *)
| NotFound                        (* update of a document that is absent *)
| TypeError.

Inductive settled (A : Type) : Type :=
| Fulfilled (v : A)
| Rejected (e : Error).
Arguments Fulfilled {A} v.
Arguments Rejected {A} e.

Inductive promise (A : Type) : Type :=
| Pending
| Settles (t : N) (r : settled A).
Arguments Pending {A}.
Arguments Settles {A} t r.

(** [new Promise((resolve) => setTimeout(() => resolve(v), ms))] *)
Definition timer {A} (ms : N) (v : A) : promise A := Settles ms (Fulfilled v).

(** [Promise.race([p, q])]: the first promise to settle decides; when both
    settle in the same millisecond the one listed first does. *)
Definition race {A} (p q : promise A) : promise A :=
  match p, q with
  | Pending, _ => q
  | _, Pending => p
  | Settles t1 _, Settles t2 _ => if (t1 <=? t2)%N then p else q
  end.

(** [p.catch(h)] *)
Definition catch {A} (p : promise A) (h : Error → A) : promise A :=
  match p with
  | Settles t (Rejected e) => Settles t (Fulfilled (h e))
  | _ => p
  end.

Definition withTimeout {A} (p : promise A) (ms : N) (fallback : A) : promise A :=
  catch (race p (timer ms fallback)) (λ _, fallback).

Definition delay {A} (d : N) (p : promise A) : promise A :=
  match p with
  | Pending => Pending
  | Settles t r => Settles (d + t) r
  end.

Definition rejects {A} (p : promise A) : Prop :=
  ∃ t e, p = Settles t (Rejected e).

Definition resolves_within {A} (p : promise A) (bound : N) (v : A) : Prop :=
  ∃ t, (t <= bound)%N ∧ p = Settles t (Fulfilled v).

(** ** The document store *)

Definition coll (st : Store) (c : string) : gmap string (gmap string Value) :=
  default ∅ (st !! c).

Inductive WriteOp : Type :=
| OpSet (c id : string) (data : Doc)
| OpUpdate (c id : string) (data : Doc)
| OpDelete (c id : string).

Definition array_union (old add : list string) : list string :=
  (old ++ remove_dups (filter (λ x, x ∉ old) add)).

(** What the store keeps for a written field: sentinels are resolved on
    the server, client dates become timestamps. *)
Definition stored (server_now : Z) (old : option Value) (v : Value) : Value :=
  match v with
  | VServerTimestamp => VTimestamp server_now
  | VDate ms => VTimestamp ms
  | VArrayUnion add =>
      match old with
      | Some (VStrings l) => VStrings (array_union l add)
      | _ => VStrings (array_union [] add)
      end
  | _ => v
  end.

Definition set_fields (server_now : Z) (data : Doc) : Doc :=
  stored server_now None <$> data.

Definition update_fields (server_now : Z) (data old : Doc) : Doc :=
  merge (λ (n o : option Value),
           match n with
           | Some v => Some (stored server_now o v)
           | None => o
           end) data old.

Definition put (st : Store) (c id : string) (d : Doc) : Store :=
  <[c := <[id := d]> (coll st c)]> st.

Definition remove (st : Store) (c id : string) : Store :=
  <[c := delete id (coll st c)]> st.

(** One write; an update of an absent document fails. *)
Definition apply_op (server_now : Z) (st : Store) (op : WriteOp) : option Store :=
  match op with
  | OpSet c id data => Some (put st c id (set_fields server_now data))
  | OpUpdate c id data =>
      match coll st c !! id with
      | Some old => Some (put st c id (update_fields server_now data old))
      | None => None
      end
  | OpDelete c id => Some (remove st c id)
  end.

(** The writes of a batch in the order they were queued: all or nothing. *)
Fixpoint apply_ops (server_now : Z) (st : Store) (ops : list WriteOp) : option Store :=
  match ops with
  | [] => Some st
  | op :: ops' =>
      match apply_op server_now st op with
      | Some st' => apply_ops server_now st' ops'
      | None => None
      end
  end.

Definition op_payload_ok (op : WriteOp) : bool :=
  match op with
  | OpSet _ _ data | OpUpdate _ _ data => bool_decide (¬ has_undefined data)
  | OpDelete _ _ => true
  end.

(** How the network treats one call to the store. *)
Inductive Net : Type :=
| Responds (t : N)
| Fails (t : N) (e : Error)
| Hangs.

Definition respond {A} (net : Net) (v : A) : promise A :=
  match net with
  | Responds t => Settles t (Fulfilled v)
  | Fails t e => Settles t (Rejected e)
  | Hangs => Pending
  end.

(** Query filters: [where(field, "==", v)] and
    [where(field, "array-contains", x)]. *)
Definition where_eq (field : string) (v : Value) (kv : string * Doc) : Prop :=
  kv.2 !! field = Some v.

Definition where_array_contains (field x : string) (kv : string * Doc) : Prop :=
  match kv.2 !! field with
  | Some (VStrings l) => x ∈ l
  | _ => False
  end.

#[global] Instance where_eq_dec field v kv : Decision (where_eq field v kv).
Proof. unfold where_eq. apply _. Defined.

#[global] Instance where_array_contains_dec field x kv :
  Decision (where_array_contains field x kv).
Proof.
  unfold where_array_contains.
  destruct (kv.2 !! field) as [[]|]; apply _.
Defined.

(** [Array.prototype.sort(cmp)]: a stable sort; an element moves in front
    of the first element of the sorted rest that does not come before it. *)
Fixpoint js_insert {A} (cmp : A → A → Z) (x : A) (l : list A) : list A :=
  match l with
  | [] => [x]
  | y :: l' => if (cmp x y <=? 0)%Z then x :: y :: l' else y :: js_insert cmp x l'
  end.

Definition js_sort {A} (cmp : A → A → Z) (l : list A) : list A :=
  foldr (js_insert cmp) [] l.

(** The comparison of two documents by their ids, code unit by code
    unit. *)
Definition by_id (a b : string * Doc) : Z :=
  match String.compare a.1 b.1 with
  | Lt => (-1)%Z
  | Eq => 0%Z
  | Gt => 1%Z
  end.

(** The documents a query matches, in the order the store lists them: by
    document id. *)
Definition query (st : Store) (c : string) (P : string * Doc → Prop)
    `{!∀ kv, Decision (P kv)} : list (string * Doc) :=
  js_sort by_id (map_to_list (filter P (coll st c))).

Definition getDoc (net : Net) (st : Store) (c id : string) : promise (option Doc) :=
  respond net (coll st c !! id).

Definition getDocs (net : Net) (st : Store) (c : string) (P : string * Doc → Prop)
    `{!∀ kv, Decision (P kv)} : promise (list (string * Doc)) :=
  respond net (query st c P).

(** ** Async functions over the store *)

Definition Async (A : Type) : Type := Store → promise A * Store.

Definition ret {A} (v : A) : Async A := λ st, (Settles 0 (Fulfilled v), st).
Definition throw {A} (e : Error) : Async A := λ st, (Settles 0 (Rejected e), st).

Definition bind {A B} (m : Async A) (f : A → Async B) : Async B :=
  λ st,
    match m st with
    | (Settles t (Fulfilled v), st1) =>
        let '(q, st2) := f v st1 in (delay t q, st2)
    | (Settles t (Rejected e), st1) => (Settles t (Rejected e), st1)
    | (Pending, st1) => (Pending, st1)
    end.

Notation "'let!' x ':=' m 'in' k" := (bind m (λ x, k))
  (at level 10, x pattern, m at level 100, k at level 200).

(** [try { m } catch (error) { h error }] *)
Definition try_catch {A} (m : Async A) (h : Error → Async A) : Async A :=
  λ st,
    match m st with
    | (Settles t (Rejected e), st1) =>
        let '(q, st2) := h e st1 in (delay t q, st2)
    | r => r
    end.

(** Awaiting a promise that only reads the store. *)
Definition read {A} (f : Store → promise A) : Async A := λ st, (f st, st).

Definition getDb (db : bool) : Async unit :=
  if db then ret tt else throw DatabaseNotAvailable.

Definition commit (net : Net) (server_now : Z) (batch : list WriteOp) : Async unit :=
  λ st,
    if forallb op_payload_ok batch then
      match net with
      | Responds t =>
          match apply_ops server_now st batch with
          | Some st' => (Settles t (Fulfilled tt), st')
          | None => (Settles t (Rejected NotFound), st)
          end
      | Fails t e => (Settles t (Rejected e), st)
      | Hangs => (Pending, st)
      end
    else (Settles 0 (Rejected InvalidData), st).

Definition setDoc (net : Net) (server_now : Z) (c id : string) (data : Doc) : Async unit :=
  commit net server_now [OpSet c id data].

Definition updateDoc (net : Net) (server_now : Z) (c id : string) (data : Doc) : Async unit :=
  commit net server_now [OpUpdate c id data].

(** ** Projects: one-shot fetches *)

(** [data.f?.toDate?.() || new Date()] *)
Definition toDate_or_now (now : Z) (v : option Value) : Value :=
  match v with
  | Some (VTimestamp ms) => VDate ms
  | _ => VDate now
  end.

Definition with_date (field : string) (now : Z) (data : Doc) : Doc :=
  <[field := toDate_or_now now (data !! field)]> data.

Definition pmap {A B} (f : A → B) (p : promise A) : promise B :=
  match p with
  | Pending => Pending
  | Settles t (Fulfilled v) => Settles t (Fulfilled (f v))
  | Settles t (Rejected e) => Settles t (Rejected e)
  end.

(** [new Date(o[field]).getTime()] for a field that holds a Date. *)
Definition getTime (field : string) (o : Doc) : Z :=
  match o !! field with
  | Some (VDate ms) => ms
  | _ => 0
  end.

Definition newest_first (field : string) (a b : Doc) : Z :=
  (getTime field b - getTime field a)%Z.

Definition oldest_first (field : string) (a b : Doc) : Z :=
  (getTime field a - getTime field b)%Z.

(** The time a document is ordered by: the timestamp stored in [field],
    or the clock reading when the field holds none. *)
Definition stored_time (field : string) (now : Z) (d : Doc) : Z :=
  match d !! field with
  | Some (VTimestamp ms) => ms
  | _ => now
  end.

(** The snapshot handed to [getProject] is [null] (the timeout fallback),
    a snapshot of an absent document, or a snapshot with data. *)
Definition getProject (db : bool) (net : Net) (now : Z) (projectId : string)
  : Async (option Doc) :=
  try_catch
    (let! _ := getDb db in
     let! projectDoc :=
       read (λ st, withTimeout (pmap Some (getDoc net st "projects" projectId)) 3000 None) in
     match projectDoc with
     | None => ret None
     | Some None => ret None
     | Some (Some data) => ret (Some (with_date "created_at" now data))
     end)
    (λ _, ret None).

Definition getUserProjects (db : bool) (net : Net) (now : Z) (userId : string)
  : Async (list Doc) :=
  try_catch
    (let! _ := getDb db in
     let! snapshot :=
       read (λ st, withTimeout
                     (getDocs net st "projects" (where_array_contains "members" userId))
                     3000 []) in
     let projects := map (λ d : string * Doc, with_date "created_at" now d.2) snapshot in
     ret (js_sort (newest_first "created_at") projects))
    (λ _, ret []).

Definition role_key (projectId userId : string) : string :=
  projectId +:+ "_" +:+ userId.

Definition role_doc (projectId userId role : string) : Doc :=
  <["project_id" := VStr projectId]>
    (<["user_id" := VStr userId]> {["role" := VStr role]}).

Definition join_batch (projectId userId : string) : list WriteOp :=
  [ OpUpdate "projects" projectId {["members" := VArrayUnion [userId]]};
    OpSet "project_roles" (role_key projectId userId)
      (role_doc projectId userId "member") ].

Definition joinProjectByCode (db : bool) (qnet cnet : Net) (server_now : Z)
    (joinCode userId : string) : Async (option string) :=
  try_catch
    (let! _ := getDb db in
     let! snapshot :=
       read (λ st, withTimeout
                     (getDocs qnet st "projects" (where_eq "join_code" (VStr joinCode)))
                     5000 []) in
     match snapshot with
     | [] => ret None
     | projectDoc :: _ =>
         let! _ := commit cnet server_now (join_batch projectDoc.1 userId) in
         ret (Some projectDoc.1)
     end)
    (λ error, throw error).

(** One [try { ...getDocs...forEach(batch.delete) } catch (e) { log }] block
    of [deleteProject]: the deletes of the matching documents are queued
    on the batch, or the batch stays as it was when the query throws. *)
Definition queue_deletes (net : Net) (c projectId : string) (batch : list WriteOp)
  : Async (list WriteOp) :=
  try_catch
    (let! snapshot :=
       read (λ st, getDocs net st c (where_eq "project_id" (VStr projectId))) in
     ret (batch ++ map (λ d : string * Doc, OpDelete c d.1) snapshot))
    (λ _, ret batch).

(** The write batch of [deleteProject] as it stands when [batch.commit()]
    is called: the writes in the order they were queued. *)
Definition deleteProject_batch (db : bool) (tnet mnet : Net) (projectId : string)
  : Async (list WriteOp) :=
  let! _ := getDb db in
  let! batch := queue_deletes tnet "tasks" projectId [] in
  let! batch := queue_deletes mnet "messages" projectId batch in
  ret (batch ++ [OpDelete "projects" projectId]).

Definition deleteProject (db : bool) (tnet mnet cnet : Net) (server_now : Z)
    (projectId : string) : Async unit :=
  let! batch := deleteProject_batch db tnet mnet projectId in
  commit cnet server_now batch.

Definition answers (net : Net) : Prop :=
  match net with Responds _ => True | _ => False end.

Definition settles (net : Net) : Prop :=
  match net with Hangs => False | _ => True end.

(** ** Writes: shaping the payload *)

(** Property access [o.k]: [undefined] for a missing key. *)
Definition field (o : Doc) (k : string) : Value := default VUndefined (o !! k).

Definition falsy (v : Value) : bool :=
  match v with
  | VUndefined | VNull | VBool false | VNum 0 | VStr "" => true
  | _ => false
  end.

(** [a || b] *)
Definition js_or (a b : Value) : Value := if falsy a then b else a.

(** [{ ...task, task_id: taskRef.id, last_updated: serverTimestamp() }],
    filtered. *)
Definition createTask_payload (newId : string) (task : Doc) : Doc :=
  strip_undefined
    (<["last_updated" := VServerTimestamp]> (<["task_id" := VStr newId]> task)).

Definition createTask (db : bool) (net : Net) (srv : Z) (newId : string) (task : Doc)
  : Async string :=
  let! _ := getDb db in
  let! _ := setDoc net srv "tasks" newId (createTask_payload newId task) in
  ret newId.


Definition updateTask_payload (updates : Doc) : Doc :=
  strip_undefined (<["last_updated" := VServerTimestamp]> updates).

Definition updateTask (db : bool) (net : Net) (srv : Z) (taskId : string) (updates : Doc)
  : Async unit :=
  let! _ := getDb db in
  updateDoc net srv "tasks" taskId (updateTask_payload updates).

Definition uploadResource_payload (newId : string) (resource : Doc) : Doc :=
  strip_undefined
    (<["created_at" := VServerTimestamp]> (<["resource_id" := VStr newId]> resource)).

Definition uploadResource (db : bool) (net : Net) (srv : Z) (newId : string)
    (resource : Doc) : Async string :=
  let! _ := getDb db in
  let! _ := setDoc net srv "shared_resources" newId
              (uploadResource_payload newId resource) in
  ret newId.

Definition addActivity_payload (newId : string) (activity : Doc) : Doc :=
  strip_undefined
    (<["timestamp" := VServerTimestamp]> (<["activity_id" := VStr newId]> activity)).

Definition addActivity (db : bool) (net : Net) (srv : Z) (newId : string)
    (activity : Doc) : Async unit :=
  let! _ := getDb db in
  setDoc net srv "live_activities" newId (addActivity_payload newId activity).

Definition createNotification_payload (newId : string) (notification : Doc) : Doc :=
  strip_undefined
    (<["created_at" := VServerTimestamp]>
       (<["notification_id" := VStr newId]> notification)).

Definition createNotification (db : bool) (net : Net) (srv : Z) (newId : string)
    (notification : Doc) : Async unit :=
  let! _ := getDb db in
  setDoc net srv "team_notifications" newId
    (createNotification_payload newId notification).

(** [addTask]: the spread keeps every key of [task], also one whose value
    is [undefined]; the [if] only writes [due_date] again. *)
Definition addTask_payload (newId : string) (task : Doc) : Doc :=
  let taskData :=
    <["tags" := VStrings []]>
      (<["dependencies" := VStrings []]>
         (<["time_spent" := VNum 0]>
            (<["priority" := js_or (field task "priority") (VStr "Medium")]>
               (<["created_at" := VServerTimestamp]>
                  (<["last_updated" := VServerTimestamp]>
                     (<["task_id" := VStr newId]> task)))))) in
  if decide (field task "due_date" ≠ VUndefined)
  then <["due_date" := field task "due_date"]> taskData
  else taskData.

Definition addTask_newTask (now : Z) (newId : string) (task : Doc) : Doc :=
  <["tags" := VStrings []]>
    (<["dependencies" := VStrings []]>
       (<["time_spent" := VNum 0]>
          (<["priority" := js_or (field task "priority") (VStr "Medium")]>
             (<["created_at" := VDate now]>
                (<["last_updated" := VDate now]>
                   (<["task_id" := VStr newId]> task)))))).

Definition addTask (db : bool) (net : Net) (srv now : Z) (newId : string) (task : Doc)
  : Async (option Doc) :=
  try_catch
    (let! _ := getDb db in
     let! _ := setDoc net srv "tasks" newId (addTask_payload newId task) in
     ret (Some (addTask_newTask now newId task)))
    (λ _, ret None).

Definition sendMessage_payload (newId : string) (message : Doc) : Doc :=
  <["timestamp" := VServerTimestamp]> (<["message_id" := VStr newId]> message).

Definition sendMessage (db : bool) (net : Net) (srv : Z) (newId : string) (message : Doc)
  : Async string :=
  let! _ := getDb db in
  let! _ := setDoc net srv "messages" newId (sendMessage_payload newId message) in
  ret newId.

Definition createMilestone_payload (newId : string) (milestone : Doc) : Doc :=
  <["created_at" := VServerTimestamp]> (<["milestone_id" := VStr newId]> milestone).

Definition createMilestone (db : bool) (net : Net) (srv : Z) (newId : string)
    (milestone : Doc) : Async string :=
  let! _ := getDb db in
  let! _ := setDoc net srv "milestones" newId (createMilestone_payload newId milestone) in
  ret newId.

Definition createScheduleEvent_payload (newId : string) (event : Doc) : Doc :=
  <["created_at" := VServerTimestamp]>
    (<["end_time" := field event "end_time"]>
       (<["start_time" := field event "start_time"]>
          (<["event_id" := VStr newId]> event))).

Definition updateMilestone (db : bool) (net : Net) (srv : Z) (milestoneId : string)
    (updates : Doc) : Async unit :=
  let! _ := getDb db in
  updateDoc net srv "milestones" milestoneId updates.

(** A task record whose optional [due_date] is present but unset. *)
Definition undated_task : Doc :=
  list_to_map
    [ ("project_id", VStr "p1"); ("title", VStr "Wire up login");
      ("description", VStr ""); ("effort", VStr "Low"); ("status", VStr "ToDo");
      ("assigned_to", VNull); ("priority", VStr "Low"); ("due_date", VUndefined) ].

(** ** The optimistic status change of the project page *)

(** [prev.map((t) => (t.task_id === taskId ? { ...t, status } : t))] *)
Definition set_status (taskId : string) (status : Value) (prev : list Doc) : list Doc :=
  map (λ t : Doc,
         if decide (t !! "task_id" = Some (VStr taskId))
         then <["status" := status]> t else t) prev.

(** [handleUpdateTaskStatus]. [tasks] is the state the handler closed
    over, [view] the state its updates are applied to. The result is the
    view right after the synchronous part, the view after the remote
    write has settled, and the store. *)
Definition handleUpdateTaskStatus (tasks : list Doc) (db : bool) (net : Net) (srv : Z)
    (taskId status : string) (view : list Doc) (st : Store)
  : list Doc * list Doc * Store :=
  let view1 := set_status taskId (VStr status) view in
  let '(p, st') := updateTask db net srv taskId {["status" := VStr status]} st in
  let view2 :=
    match p with
    | Settles _ (Rejected _) =>
        match find (λ t : Doc, bool_decide (t !! "task_id" = Some (VStr taskId))) tasks with
        | Some originalTask => set_status taskId (field originalTask "status") view1
        | None => view1
        end
    | _ => view1
    end in
  (view1, view2, st').

(** ** JavaScript numbers

    Numbers are IEEE 754 binary64 values, with the operations of the
    standard library's specification of floating-point arithmetic. *)

Module JsNumber.
Local Open Scope Z_scope.

Definition of_Z (z : Z) : spec_float := binary_normalize 53 1024 z 0 false.
Definition mul : spec_float → spec_float → spec_float := SFmul 53 1024.
Definition add : spec_float → spec_float → spec_float := SFadd 53 1024.
Definition div : spec_float → spec_float → spec_float := SFdiv 53 1024.

(** The literals [0.2] and [0.7]: 0x1.999999999999ap-3 and
    0x1.6666666666666p-1. *)
Definition lit_0_2 : spec_float := S754_finite false 7205759403792794 (-55).
Definition lit_0_7 : spec_float := S754_finite false 6305039478318694 (-53).

(** [ToIntegerOrInfinity] of a finite number: truncation towards zero. *)
Definition trunc (x : spec_float) : option Z :=
  match x with
  | S754_zero _ => Some 0
  | S754_finite s m e =>
      Some (cond_Zopp s (if 0 <=? e then Z.pos m * 2 ^ e else Z.pos m / 2 ^ (- e)))
  | _ => None
  end.

(** [TimeClip]: the time value of [new Date(x)] when it is a valid date.
    Numbers beyond 2^52 are integers, so the bound can be checked on the
    truncated value. *)
Definition TimeClip (x : spec_float) : option Z :=
  match trunc x with
  | Some t => if Z.abs t <=? 8640000000000000 then Some t else None
  | None => None
  end.

(** The index [charAt] sees for [Math.floor(x)]: NaN counts as 0, an
    infinity is out of range. *)
Definition floor_index (x : spec_float) : option Z :=
  match x with
  | S754_zero _ | S754_nan => Some 0
  | S754_finite s m e =>
      Some (if 0 <=? e then cond_Zopp s (Z.pos m) * 2 ^ e
            else cond_Zopp s (Z.pos m) / 2 ^ (- e))
  | S754_infinity _ => None
  end.

(** What [Math.random()] may return: a binary64 number in [0, 1). *)
Definition in_unit_interval (r : spec_float) : bool :=
  match r with
  | S754_zero false => true
  | S754_finite false m e =>
      bounded 53 1024 m e && (Z.pos (digits2_pos m) + e <=? 0)
  | _ => false
  end.

(** Round to nearest, ties to even, of [q + rem / (2 * half)]. *)
Definition rne (q rem half : Z) : Z :=
  if rem <? half then q
  else if half <? rem then q + 1
  else if Z.even q then q else q + 1.

(** The float [x] is the positive number [z * 2^u]. *)
Definition is_dyadic (x : spec_float) (z u : Z) : Prop :=
  ∃ m e, x = S754_finite false m e ∧ u <= e ∧ z = Z.pos m * 2 ^ (e - u).
End JsNumber.

Definition new_Date (x : spec_float) : Value :=
  match JsNumber.TimeClip x with
  | Some t => VDate t
  | None => VInvalidDate
  end.

(** ** Creating a project *)

Definition chars : string := "ABCDEFGHIJKLMNOPQRSTUVWXYZ0123456789".

(** [s.charAt(i)]: the empty string when [i] is out of range. *)
Definition charAt (s : string) (i : option Z) : string :=
  match i with
  | Some z =>
      if (z <? 0)%Z then ""
      else match String.get (Z.to_nat z) s with
           | Some c => String c ""
           | None => ""
           end
  | None => ""
  end.

(** [generateJoinCode]; [random i] is what the [i]-th call of
    [Math.random()] returns. *)
Definition generateJoinCode (random : nat → spec_float) : string :=
  foldl (λ code i,
           code +:+ charAt chars
                      (JsNumber.floor_index
                         (JsNumber.mul (random i)
                            (JsNumber.of_Z (Z.of_nat (String.length chars))))))
        "" (seq 0 6).

Definition hour_ms (x : spec_float) : spec_float :=
  JsNumber.mul (JsNumber.mul (JsNumber.mul x (JsNumber.of_Z 60)) (JsNumber.of_Z 60))
    (JsNumber.of_Z 1000).

Definition milestone (name description type : string) (deadline : Value) : Doc :=
  list_to_map
    [ ("name", VStr name); ("description", VStr description); ("type", VStr type);
      ("deadline", deadline) ].

(** The [milestones] array of [createDefaultMilestones]; [now] is the time
    value of [new Date()]. *)
Definition default_milestones (now : Z) (duration : string) : list Doc :=
  let durationHours := JsNumber.of_Z (if decide (duration = "24h") then 24 else 48) in
  [ milestone "Idea Finalization" "Complete idea analysis and feature planning"
      "idea_submission"
      (new_Date (JsNumber.add (JsNumber.of_Z now)
                   (hour_ms (JsNumber.mul durationHours JsNumber.lit_0_2))));
    milestone "Prototype Development" "Build working prototype with core features"
      "prototype"
      (new_Date (JsNumber.add (JsNumber.of_Z now)
                   (hour_ms (JsNumber.mul durationHours JsNumber.lit_0_7))));
    milestone "Final Presentation" "Complete project and prepare final presentation"
      "final_presentation"
      (new_Date (JsNumber.add (JsNumber.of_Z now) (hour_ms durationHours))) ].

(** The document [batch.set] receives for one milestone. *)
Definition milestone_record (projectId : string) (newId : string) (milestone : Doc) : Doc :=
  <["created_at" := VServerTimestamp]>
    (<["status" := VStr "upcoming"]>
       (<["project_id" := VStr projectId]>
          (<["milestone_id" := VStr newId]> milestone))).

(** [createDefaultMilestones]; [newId i] is the id generated for the
    [i]-th milestone reference. *)
Definition createDefaultMilestones (db : bool) (net : Net) (srv now : Z)
    (newId : nat → string) (projectId duration : string) : Async unit :=
  let! _ := getDb db in
  commit net srv
    (imap (λ i milestone,
             OpSet "milestones" (newId i) (milestone_record projectId (newId i) milestone))
          (default_milestones now duration)).

(** A call that is not awaited and whose rejection is swallowed
    ([.catch(() => {})]): the caller goes on at once; the store is shown
    as the write leaves it. *)
Definition background {A} (m : Async A) : Async unit :=
  λ st, (Settles 0 (Fulfilled tt), (m st).2).

Definition project_doc (projectId name duration userId code : string) : Doc :=
  list_to_map
    [ ("project_id", VStr projectId); ("name", VStr name); ("duration", VStr duration);
      ("created_by", VStr userId); ("members", VStrings [userId]);
      ("join_code", VStr code); ("demo_mode", VBool false);
      ("created_at", VServerTimestamp); ("status", VStr "planning");
      ("github_repo", VNull); ("demo_url", VNull); ("pitch_deck_url", VNull);
      ("submission_deadline", VNull); ("hackathon_event", VNull) ].

Definition createProject (db : bool) (net rnet mnet : Net) (srv now : Z)
    (random : nat → spec_float) (projectId : string) (newId : nat → string)
    (name duration userId : string) : Async string :=
  let! _ := getDb db in
  let project := project_doc projectId name duration userId (generateJoinCode random) in
  let! _ := setDoc net srv "projects" projectId project in
  let! _ := background (setDoc rnet srv "project_roles" (role_key projectId userId)
                          (role_doc projectId userId "admin")) in
  let! _ := background (createDefaultMilestones db mnet srv now newId projectId duration) in
  ret projectId.

(** ** Subscriptions

    [onSnapshot(q, next, error)] registers two handlers on a change
    stream. What a handler does is recorded as a list of effects. The
    clock reading used for a missing timestamp ([new Date()]) is
    [clock i j] for field slot [j] of the [i]-th document of a snapshot. *)

Inductive Effect : Type :=
| Callback (items : list Doc)                    (* callback(items) *)
| ConsoleError (msg : string)                    (* console.error(msg, ...) *)
| OnSnapshot (c : string) (filters : list (string * string)).
                                                 (* a change stream is opened *)

Record Subscription : Type := {
  opened : list Effect;
  onNext : (nat → nat → Z) → list (string * Doc) → list Effect;
  onError : option (Error → list Effect)
}.

(** The [catch] branch of every [subscribeTo*]: [callback([])] and a
    handle that does nothing. *)
Definition no_stream : Subscription :=
  {| opened := [Callback []]; onNext := λ _ _, []; onError := None |}.

Definition subscribeToTasks (db : bool) (projectId : string) : Subscription :=
  if db then
    {| opened := [OnSnapshot "tasks" [("project_id", projectId)]];
       onNext := λ clock docs,
         let tasks :=
           imap (λ i (d : string * Doc), with_date "last_updated" (clock i 0) d.2) docs in
         [Callback (js_sort (newest_first "last_updated") tasks)];
       onError := Some (λ _, [ConsoleError "Error subscribing to tasks:"; Callback []]) |}
  else no_stream.

Definition subscribeToMessages (db : bool) (projectId : string) : Subscription :=
  if db then
    {| opened := [OnSnapshot "messages" [("project_id", projectId)]];
       onNext := λ clock docs,
         let messages :=
           imap (λ i (d : string * Doc), with_date "timestamp" (clock i 0) d.2) docs in
         [Callback (js_sort (oldest_first "timestamp") messages)];
       onError := Some (λ _, [ConsoleError "Error subscribing to messages:"; Callback []]) |}
  else no_stream.

Definition subscribeToMilestones (db : bool) (projectId : string) : Subscription :=
  if db then
    {| opened := [OnSnapshot "milestones" [("project_id", projectId)]];
       onNext := λ clock docs,
         let milestones :=
           imap (λ i (d : string * Doc),
                   <["created_at" := toDate_or_now (clock i 1) (d.2 !! "created_at")]>
                     (with_date "deadline" (clock i 0) d.2)) docs in
         [Callback (js_sort (oldest_first "deadline") milestones)];
       onError := Some (λ _, [ConsoleError "Error subscribing to milestones:"; Callback []]) |}
  else no_stream.

Definition subscribeToScheduleEvents (db : bool) (projectId userId : string)
  : Subscription :=
  if db then
    {| opened := [OnSnapshot "schedule_events"
                    [("project_id", projectId); ("user_id", userId)]];
       onNext := λ clock docs,
         let events :=
           imap (λ i (d : string * Doc),
                   <["created_at" := toDate_or_now (clock i 2) (d.2 !! "created_at")]>
                     (<["end_time" := toDate_or_now (clock i 1) (d.2 !! "end_time")]>
                        (with_date "start_time" (clock i 0) d.2))) docs in
         [Callback (js_sort (oldest_first "start_time") events)];
       onError :=
         Some (λ _, [ConsoleError "Error subscribing to schedule events:"; Callback []]) |}
  else no_stream.

Definition subscribeToResources (db : bool) (projectId : string) : Subscription :=
  if db then
    {| opened := [OnSnapshot "shared_resources" [("project_id", projectId)]];
       onNext := λ clock docs,
         let resources :=
           imap (λ i (d : string * Doc), with_date "created_at" (clock i 0) d.2) docs in
         [Callback resources];
       onError := None |}
  else no_stream.

Definition subscribeToActivities (db : bool) (projectId : string) : Subscription :=
  if db then
    {| opened := [OnSnapshot "live_activities" [("project_id", projectId)]];
       onNext := λ clock docs,
         let activities :=
           imap (λ i (d : string * Doc), with_date "timestamp" (clock i 0) d.2) docs in
         [Callback (take 50 (js_sort (newest_first "timestamp") activities))];
       onError := None |}
  else no_stream.

Definition subscribeToNotifications (db : bool) (projectId userId : string)
  : Subscription :=
  if db then
    {| opened := [OnSnapshot "team_notifications"
                    [("project_id", projectId); ("user_id", userId)]];
       onNext := λ clock docs,
         let notifications :=
           imap (λ i (d : string * Doc), with_date "created_at" (clock i 0) d.2) docs in
         [Callback (js_sort (newest_first "created_at") notifications)];
       onError := None |}
  else no_stream.

(** What a change stream delivers. After an error the stream is closed:
    nothing more is delivered on it. A stream opened without an error
    handler reports the error to nobody. *)
Inductive StreamEvent : Type :=
| Snapshot (clock : nat → nat → Z) (docs : list (string * Doc))
| StreamError (e : Error).

Definition on_error (s : Subscription) (e : Error) : list Effect :=
  match onError s with
  | Some h => h e
  | None => []
  end.

Fixpoint deliver (s : Subscription) (events : list StreamEvent) : list Effect :=
  match events with
  | [] => []
  | Snapshot clock docs :: rest => onNext s clock docs ++ deliver s rest
  | StreamError e :: _ => on_error s e
  end.

Definition callbacks (effects : list Effect) : list (list Doc) :=
  omap (λ eff, match eff with Callback items => Some items | _ => None end) effects.

Definition reopens (effects : list Effect) : Prop :=
  ∃ c filters, OnSnapshot c filters ∈ effects.

(** *** Members: one stream per member id, merged into a keyed map *)

(** [Map.prototype.set] on a map kept in insertion order. *)
Fixpoint jsmap_set (k : string) (v : Doc) (m : list (string * Doc)) : list (string * Doc) :=
  match m with
  | [] => [(k, v)]
  | (k', v') :: m' =>
      if decide (k = k') then (k, v) :: m' else (k', v') :: jsmap_set k v m'
  end.

(** What one of the per-member streams delivers for member [id]. *)
Inductive MemberEvent : Type :=
| MemberDoc (id : string) (doc : option Doc)     (* snapshot: data, or absent *)
| MemberError (id : string) (e : Error).

(** The handlers of [subscribeToProjectMembers] on the shared [membersMap]. *)
Definition member_step (membersMap : list (string * Doc)) (ev : MemberEvent)
  : list (string * Doc) * list Effect :=
  match ev with
  | MemberDoc id (Some data) =>
      let membersMap' := jsmap_set id data membersMap in
      (membersMap', [Callback membersMap'.*2])
  | MemberDoc id None => (membersMap, [])
  | MemberError id e => (membersMap, [ConsoleError "Error subscribing to member:"])
  end.

Fixpoint members_run (membersMap : list (string * Doc)) (events : list MemberEvent)
  : list (string * Doc) * list Effect :=
  match events with
  | [] => (membersMap, [])
  | ev :: rest =>
      let '(m1, eff1) := member_step membersMap ev in
      let '(m2, eff2) := members_run m1 rest in
      (m2, eff1 ++ eff2)
  end.

Definition subscribeToProjectMembers (db : bool) (memberIds : list string)
    (events : list MemberEvent) : list Effect :=
  if db then
    map (λ id, OnSnapshot "users" [("__name__", id)]) memberIds
    ++ (members_run [] events).2
  else [Callback []].

(** The contents of [membersMap] at each invocation of the callback; the
    callback receives the values of these entries. *)
Fixpoint emissions (membersMap : list (string * Doc)) (events : list MemberEvent)
  : list (list (string * Doc)) :=
  match events with
  | [] => []
  | MemberDoc id (Some data) :: rest =>
      let membersMap' := jsmap_set id data membersMap in
      membersMap' :: emissions membersMap' rest
  | _ :: rest => emissions membersMap rest
  end.

(** The user document of [id] was seen to exist in some notification. *)
Definition observed (id : string) (events : list MemberEvent) : Prop :=
  ∃ data, MemberDoc id (Some data) ∈ events.

(** A stream error is answered by exactly one [callback([])] and by no
    new change stream. *)
Definition error_reported_once (effects : list Effect) : Prop :=
  callbacks effects = [[]] ∧ ¬ reopens effects.

(** What one block of [deleteProject] gathers: the matching documents
    when the query answers, nothing when it throws. *)
Definition gathered (net : Net) (st : Store) (c projectId : string)
  : list (string * Doc) :=
  match net with
  | Responds _ => query st c (where_eq "project_id" (VStr projectId))
  | _ => []
  end.

Definition net_time (net : Net) : N :=
  match net with
  | Responds t | Fails t _ => t
  | Hangs => 0
  end.

Definition members_of (d : Doc) : list string :=
  match d !! "members" with
  | Some (VStrings l) => l
  | _ => []
  end.

Definition op_coll (op : WriteOp) : string :=
  match op with
  | OpSet c _ _ | OpUpdate c _ _ | OpDelete c _ => c
  end.

(** ** Sample data *)

Definition demo_project : Doc := project_doc "p1" "Demo" "24h" "alice" "ABC123".

Definition demo_task (taskId status : string) : Doc :=
  list_to_map
    [ ("task_id", VStr taskId); ("project_id", VStr "p1"); ("title", VStr "Demo task");
      ("status", VStr status); ("last_updated", VTimestamp 1000) ].

Definition demo_store : Store :=
  put (put (put ∅ "projects" "p1" demo_project)
         "tasks" "t1" (demo_task "t1" "ToDo"))
    "messages" "m1" (list_to_map [("project_id", VStr "p1"); ("content", VStr "hi")]).

Definition demo_ids (i : nat) : string :=
  match i with
  | 0 => "ms0"
  | 1 => "ms1"
  | _ => "ms2"
  end.

(** The number 0.5. *)
Definition one_half : spec_float := S754_finite false 4503599627370496 (-53).

(** The store gives no answer by [ms]: it hangs, fails, or answers later. *)
Definition no_answer_by (ms : N) (net : Net) : Prop :=
  match net with
  | Responds t => (ms < t)%N
  | _ => True
  end.

(** ** Further operations of the store layer *)

Definition deleteDoc (net : Net) (server_now : Z) (c id : string) : Async unit :=
  commit net server_now [OpDelete c id].

(** [setDoc(ref, data, { merge: true })]: the fields of [data] are written
    over the document, which is created when it is absent. *)
Definition setDoc_merge (net : Net) (server_now : Z) (c id : string) (data : Doc)
  : Async unit :=
  λ st,
    if bool_decide (¬ has_undefined data) then
      match net with
      | Responds t =>
          (Settles t (Fulfilled tt),
           put st c id (update_fields server_now data (default ∅ (coll st c !! id))))
      | Fails t e => (Settles t (Rejected e), st)
      | Hangs => (Pending, st)
      end
    else (Settles 0 (Rejected InvalidData), st).

Definition deleteTask (db : bool) (net : Net) (srv : Z) (taskId : string) : Async unit :=
  let! _ := getDb db in
  deleteDoc net srv "tasks" taskId.

(** The body of the [for] loop of [getProjectMembers] and the loop; the
    [i]-th read meets the network behaviour [nets i]. *)
Definition read_member (net : Net) (id : string) (members : list Doc)
  : Async (list Doc) :=
  try_catch
    (let! userDoc := read (λ st, getDoc net st "users" id) in
     match userDoc with
     | Some data => ret (members ++ [data])
     | None => ret members
     end)
    (λ _, ret members).

Fixpoint getProjectMembers_loop (nets : nat → Net) (i : nat) (memberIds : list string)
    (members : list Doc) : Async (list Doc) :=
  match memberIds with
  | [] => ret members
  | id :: rest =>
      let! members' := read_member (nets i) id members in
      getProjectMembers_loop nets (S i) rest members'
  end.

Definition getProjectMembers (db : bool) (nets : nat → Net) (memberIds : list string)
  : Async (list Doc) :=
  try_catch
    (let! _ := getDb db in
     getProjectMembers_loop nets 0 memberIds [])
    (λ _, ret []).

(** [getUserRole]: the [try] block either returns the stored role or falls
    through to ["viewer"]. *)
Definition getUserRole (db : bool) (net : Net) (projectId userId : string)
  : Async Value :=
  let! found :=
    try_catch
      (let! _ := getDb db in
       let! roleDoc :=
         read (λ st, getDoc net st "project_roles" (role_key projectId userId)) in
       match roleDoc with
       | Some data => ret (Some (field data "role"))
       | None => ret None
       end)
      (λ _, ret None) in
  match found with
  | Some role => ret role
  | None => ret (VStr "viewer")
  end.

(** [projectDoc.data().members || []], then [.filter]: a value that is
    neither an array nor falsy has no [filter]. *)
Definition current_members (data : Doc) : Async (list string) :=
  match field data "members" with
  | VStrings l => ret l
  | v => if falsy v then ret [] else throw TypeError
  end.

Definition removeMemberFromProject (db : bool) (rnet cnet : Net) (srv : Z)
    (projectId userId : string) : Async unit :=
  let! _ := getDb db in
  let! projectDoc := read (λ st, getDoc rnet st "projects" projectId) in
  let! batch :=
    match projectDoc with
    | Some data =>
        let! currentMembers := current_members data in
        let updatedMembers := filter (λ memberId, memberId ≠ userId) currentMembers in
        ret [OpUpdate "projects" projectId {["members" := VStrings updatedMembers]}]
    | None => ret []
    end in
  commit cnet srv (batch ++ [OpDelete "project_roles" (role_key projectId userId)]).

(** Wellness settings: one record per (project, user). [settings] holds
    the other fields of the record. *)
Definition wellness_record (projectId userId : string) (settings : Doc) : Doc :=
  <["project_id" := VStr projectId]> (<["user_id" := VStr userId]> settings).

Definition saveWellnessSettings (db : bool) (net : Net) (srv : Z)
    (projectId userId : string) (settings : Doc) : Async unit :=
  let! _ := getDb db in
  setDoc net srv "wellness_settings" (role_key projectId userId)
    (<["created_at" := VServerTimestamp]> (wellness_record projectId userId settings)).

Definition getWellnessSettings (db : bool) (net : Net) (now : Z)
    (projectId userId : string) : Async (option Doc) :=
  try_catch
    (let! _ := getDb db in
     let! settingsDoc :=
       read (λ st, getDoc net st "wellness_settings" (role_key projectId userId)) in
     match settingsDoc with
     | None => ret None
     | Some data => ret (Some (with_date "created_at" now data))
     end)
    (λ _, ret None).

Definition markNotificationRead (db : bool) (net : Net) (srv : Z)
    (notificationId : string) : Async unit :=
  let! _ := getDb db in
  updateDoc net srv "team_notifications" notificationId {["read" := VBool true]}.

(** ** Calls that only read, promises that fulfil *)

(** [m] leaves the store as it found it. *)
Definition read_only {A} (m : Async A) : Prop := ∀ st, (m st).2 = st.

Definition fulfils {A} (p : promise A) : Prop := ∃ t v, p = Settles t (Fulfilled v).

(** What the [i]-th read of [getProjectMembers] contributes: the stored
    profile when the read is answered and the profile exists. *)
Definition profile_read (st : Store) (net : Net) (id : string) : option Doc :=
  match net with
  | Responds _ => coll st "users" !! id
  | _ => None
  end.

(** The time [n] reads take one after the other, from the [i]-th on. *)
Definition reads_time (nets : nat → Net) (i n : nat) : N :=
  foldr N.add 0%N (map (λ j, net_time (nets j)) (seq i n)).

(** ** Project fields and shared resources *)

Definition updateProjectUrls (db : bool) (net : Net) (srv : Z) (projectId : string)
    (urls : Doc) : Async unit :=
  let! _ := getDb db in
  updateDoc net srv "projects" projectId urls.

Definition updateDemoMode (db : bool) (net : Net) (srv : Z) (projectId : string)
    (enabled : bool) : Async unit :=
  let! _ := getDb db in
  updateDoc net srv "projects" projectId {["demo_mode" := VBool enabled]}.

(** [getProjectResources]: each record gets its own [new Date()] fallback,
    [clock i] for the [i]-th document. *)
Definition getProjectResources (db : bool) (net : Net) (clock : nat → Z)
    (projectId : string) : Async (list Doc) :=
  try_catch
    (let! _ := getDb db in
     let! snapshot :=
       read (λ st, getDocs net st "shared_resources"
                     (where_eq "project_id" (VStr projectId))) in
     ret (imap (λ i (d : string * Doc), with_date "created_at" (clock i) d.2) snapshot))
    (λ _, ret []).

(** ** The project page: live project, loading, adding a task *)

(** [subscribeToProject]: one change stream on the project document. *)
Inductive ProjectEffect : Type :=
| ProjectCallback (project : option Doc)         (* callback(project | null) *)
| ProjectConsoleError (msg : string)
| ProjectOnSnapshot (projectId : string).

Inductive DocEvent : Type :=
| DocSnapshot (now : Z) (data : option Doc)      (* [now]: what new Date() reads *)
| DocError (e : Error).

Fixpoint deliver_project (events : list DocEvent) : list ProjectEffect :=
  match events with
  | [] => []
  | DocSnapshot now (Some data) :: rest =>
      ProjectCallback (Some (with_date "created_at" now data)) :: deliver_project rest
  | DocSnapshot now None :: rest => ProjectCallback None :: deliver_project rest
  | DocError e :: _ =>
      [ProjectConsoleError "Error subscribing to project:"; ProjectCallback None]
  end.

Definition subscribeToProject (db : bool) (projectId : string) (events : list DocEvent)
  : list ProjectEffect :=
  if db then ProjectOnSnapshot projectId :: deliver_project events
  else [ProjectCallback None].

(** The page's callback: [(p) => { if (mounted && p) setProject(p) }]. *)
Definition on_project (mounted : bool) (project : option Doc) (eff : ProjectEffect)
  : option Doc :=
  match eff with
  | ProjectCallback (Some p) => if mounted then Some p else project
  | _ => project
  end.

Definition shown_project (mounted : bool) (project : option Doc)
    (effects : list ProjectEffect) : option Doc :=
  foldl (on_project mounted) project effects.

Definition absent_or_error (ev : DocEvent) : Prop :=
  match ev with
  | DocSnapshot _ (Some _) => False
  | _ => True
  end.

Definition is_snapshot (ev : DocEvent) : Prop :=
  match ev with
  | DocSnapshot _ _ => True
  | DocError _ => False
  end.

(** [!s.trim()]: the string holds white space and line terminators only.
    Strings are sequences of code units below 256, where these are tab,
    LF, VT, FF, CR, space and NBSP. *)
Definition is_white_space (c : Ascii.ascii) : bool :=
  let n := Ascii.N_of_ascii c in
  ((9 <=? n) && (n <=? 13) || (n =? 32) || (n =? 160))%N.

Definition blank (s : string) : bool :=
  forallb is_white_space (String.list_ascii_of_string s).

Record TaskForm : Type := {
  newTaskTitle : string;
  newTaskDescription : string;
  newTaskEffort : string;
  newTaskAssignee : Value;                       (* string | null *)
  isAddingTask : bool;
  addTaskDialogOpen : bool
}.

Definition form_task (projectId : string) (form : TaskForm) : Doc :=
  list_to_map
    [ ("project_id", VStr projectId); ("title", VStr (newTaskTitle form));
      ("description", VStr (newTaskDescription form)); ("status", VStr "ToDo");
      ("effort", VStr (newTaskEffort form)); ("assigned_to", newTaskAssignee form) ].

Definition form_reset : TaskForm :=
  {| newTaskTitle := ""; newTaskDescription := ""; newTaskEffort := "Medium";
     newTaskAssignee := VNull; isAddingTask := false; addTaskDialogOpen := false |}.

Definition form_adding (b : bool) (form : TaskForm) : TaskForm :=
  {| newTaskTitle := newTaskTitle form; newTaskDescription := newTaskDescription form;
     newTaskEffort := newTaskEffort form; newTaskAssignee := newTaskAssignee form;
     isAddingTask := b; addTaskDialogOpen := addTaskDialogOpen form |}.

(** [handleAddTask]: the form, the task list and the toasts shown once
    the call has run as far as it gets, and the store. *)
Definition handleAddTask (db : bool) (net : Net) (srv now : Z) (newId projectId : string)
    (form : TaskForm) (tasks : list Doc) (st : Store)
  : TaskForm * list Doc * list string * Store :=
  if blank (newTaskTitle form) then (form, tasks, [], st)
  else
    let '(p, st') := addTask db net srv now newId (form_task projectId form) st in
    match p with
    | Settles _ (Fulfilled newTask) =>
        (form_reset,
         match newTask with Some t => tasks ++ [t] | None => tasks end,
         ["Task added!"], st')
    | Settles _ (Rejected _) => (form_adding false form, tasks, ["Failed to add task"], st')
    | Pending => (form_adding true form, tasks, [], st')
    end.

(** The state of the page that [loadProject] sets. *)
Record PageState : Type := {
  project : option Doc;
  members : list Doc;
  loading : bool;
  error : option string;
  subscribed : bool                              (* the three streams were opened *)
}.

(** The component is unmounted at [unmount] (never for [None]); the
    flag [mounted] is read when an awaited call has settled. *)
Definition mounted_at (unmount : option N) (t : N) : bool :=
  match unmount with
  | None => true
  | Some u => (t <? u)%N
  end.

Definition page_initial : PageState :=
  {| project := None; members := []; loading := true; error := None;
     subscribed := false |}.

(** [projectData.members] as [loadProject] hands it to
    [getProjectMembers] under [members && members.length > 0]: the
    elements of an array, the characters of a string, and nothing for a
    value without a positive [length]. *)
Definition member_ids (p : Doc) : list string :=
  match p !! "members" with
  | Some (VStrings l) => l
  | Some (VStr s) => map (λ c, String c EmptyString) (String.list_ascii_of_string s)
  | _ => []
  end.

(** [loadProject]: the state of the page when the call has run as far as
    it gets. [message err] is [err.message]; the streams are opened from a
    timer 300 ms after the members were fetched. *)
Definition loadProject (db : bool) (net : Net) (nets : nat → Net) (now : Z)
    (message : Error → string) (projectId : string) (unmount : option N)
    (s : PageState) (st : Store) : PageState :=
  match (getProject db net now projectId st).1 with
  | Pending => s
  | Settles t (Rejected err) =>
      if mounted_at unmount t then
        {| project := project s; members := members s; loading := false;
           error := Some (if decide (message err = "") then "Failed to load project"
                          else message err);
           subscribed := subscribed s |}
      else s
  | Settles t (Fulfilled projectData) =>
      if negb (mounted_at unmount t) then s
      else
        match projectData with
        | None =>
            {| project := project s; members := members s; loading := false;
               error := Some "Project not found"; subscribed := subscribed s |}
        | Some p =>
            let loaded ms sub :=
              {| project := Some p; members := ms; loading := false;
                 error := error s; subscribed := sub |} in
            match member_ids p with
            | [] => loaded (members s) (mounted_at unmount (t + 300))
            | _ :: _ =>
                match (getProjectMembers db nets (member_ids p) st).1 with
                | Pending => loaded (members s) false
                | Settles t' (Rejected _) =>
                    loaded (members s) (mounted_at unmount (t + t' + 300))
                | Settles t' (Fulfilled projectMembers) =>
                    loaded (if mounted_at unmount (t + t') then projectMembers
                            else members s)
                           (mounted_at unmount (t + t' + 300))
                end
            end
        end
  end.

(** ** The auth context (lib/auth-context.tsx) *)

Module AuthContext.

(** The fields of the signed-in user that the context reads;
    [displayName] and [email] are [string | null]. *)
Record User : Type := {
  uid : string;
  displayName : option string;
  email : option string
}.

Definition string_or_null (o : option string) : Value :=
  match o with
  | Some s => VStr s
  | None => VNull
  end.

(** The code unit of "@". *)
Definition at_sign : Ascii.ascii := Ascii.ascii_of_N 64.

(** [s.split("@")[0]] *)
Fixpoint before_at (s : string) : string :=
  match s with
  | EmptyString => EmptyString
  | String c s' => if Ascii.eqb c at_sign then EmptyString else String c (before_at s')
  end.

(** [user.email?.split("@")[0]] *)
Definition email_name (user : User) : Value :=
  match email user with
  | Some s => VStr (before_at s)
  | None => VUndefined
  end.

(** The fields every new profile starts with. *)
Definition profile_fields (user : User) (name : Value) (timeZone : string) : Doc :=
  list_to_map
    [ ("user_id", VStr (uid user)); ("name", name);
      ("email", js_or (string_or_null (email user)) (VStr ""));
      ("role", VStr "developer"); ("skills", VStrings []);
      ("online_status", VBool true); ("availability", VStr "available");
      ("timezone", VStr timeZone); ("hours_worked", VNum 0);
      ("tasks_completed", VNum 0) ].

Definition createDefaultProfile (timeZone : string) (user : User) : Doc :=
  profile_fields user
    (js_or (js_or (string_or_null (displayName user)) (email_name user)) (VStr "User"))
    timeZone.

Record AuthState : Type := {
  user : option User;
  userProfile : option Doc;
  loading : bool
}.

Definition with_profile (s : AuthState) (p : option Doc) : AuthState :=
  {| user := user s; userProfile := p; loading := loading s |}.

(** The handler given to [onAuthStateChanged]: the state when its
    synchronous part has run, and the state when the profile read has
    settled (the same state while the read is pending). *)
Definition authStateChanged (db : bool) (net : Net) (timeZone : string)
    (u : option User) (st : Store) : AuthState * AuthState :=
  match u with
  | Some usr =>
      let s1 := {| user := Some usr;
                   userProfile := Some (createDefaultProfile timeZone usr);
                   loading := false |} in
      (s1,
       if db then
         match getDoc net st "users" (uid usr) with
         | Settles _ (Fulfilled (Some data)) => with_profile s1 (Some data)
         | _ => s1
         end
       else s1)
  | None =>
      let s := {| user := None; userProfile := None; loading := false |} in (s, s)
  end.

(** [name || (isGuest ? `Guest_${user.uid.slice(0, 6)}` : "User")] *)
Definition profile_name (usr : User) (name : string) (isGuest : bool) : string :=
  if decide (name = "") then
    if isGuest then "Guest_" +:+ String.substring 0 6 (uid usr) else "User"
  else name.

(** [createUserProfile]: the profile is set at once, the write is not
    awaited and its rejection is swallowed. *)
Definition createUserProfile (db : bool) (net : Net) (srv : Z) (timeZone : string)
    (usr : User) (name : string) (isGuest : bool) (s : AuthState) : Async AuthState :=
  let profile := profile_fields usr (VStr (profile_name usr name isGuest)) timeZone in
  let! _ :=
    if db then
      background (setDoc net srv "users" (uid usr)
                    (<["created_at" := VServerTimestamp]> profile))
    else ret tt in
  ret (with_profile s (Some profile)).

(** [result.user.displayName || "User"] *)
Definition display_or_User (usr : User) : string :=
  match displayName usr with
  | Some n => if decide (n = "") then "User" else n
  | None => "User"
  end.

(** [signInWithGoogle] once the popup has resolved with [usr]. *)
Definition signInWithGoogle (db : bool) (rnet wnet : Net) (srv : Z) (timeZone : string)
    (usr : User) (s : AuthState) : Async AuthState :=
  let create := createUserProfile db wnet srv timeZone usr (display_or_User usr) false s in
  if db then
    try_catch
      (let! profileDoc := read (λ st, getDoc rnet st "users" (uid usr)) in
       match profileDoc with
       | None => create
       | Some data => ret (with_profile s (Some data))
       end)
      (λ _, create)
  else create.


(** [logout]; [signOut] is what [signOut(auth)] settles to. *)
Definition logout (auth db : bool) (net : Net) (srv : Z) (signOut : promise unit)
    (s : AuthState) (st : Store) : AuthState * promise unit * Store :=
  if negb auth then (s, Settles 0 (Fulfilled tt), st)
  else
    let st' :=
      match user s with
      | Some usr =>
          if db then
            (setDoc_merge net srv "users" (uid usr) {["online_status" := VBool false]} st).2
          else st
      | None => st
      end in
    match signOut with
    | Settles t (Fulfilled _) =>
        ({| user := None; userProfile := None; loading := loading s |},
         Settles t (Fulfilled tt), st')
    | Settles t (Rejected e) => (s, Settles t (Rejected e), st')
    | Pending => (s, Pending, st')
    end.

End AuthContext.

(** ** The documentation generator page *)

Module DocsGenerator.

Fixpoint string_map (f : Ascii.ascii → Ascii.ascii) (s : string) : string :=
  match s with
  | EmptyString => EmptyString
  | String c s' => String (f c) (string_map f s')
  end.

Definition in_range (lo hi : N) (c : Ascii.ascii) : bool :=
  ((lo <=? Ascii.N_of_ascii c) && (Ascii.N_of_ascii c <=? hi))%N.

Definition is_digit : Ascii.ascii → bool := in_range 48 57.
Definition is_upper : Ascii.ascii → bool := in_range 65 90.
Definition is_lower : Ascii.ascii → bool := in_range 97 122.

(** The code unit of "_". *)
Definition underscore : Ascii.ascii := Ascii.ascii_of_N 95.

(** [s.replace(/[^a-z0-9]/gi, '_')]: with the [i] flag and without the
    [u] flag a code unit is in [a-z0-9] exactly when it is an ASCII
    letter or digit. *)
Definition replace_non_alnum (s : string) : string :=
  string_map (λ c, if is_digit c || is_upper c || is_lower c then c else underscore) s.

(** [s.toLowerCase()] on code units below 256: A-Z and the capital
    letters from 192 to 222, the multiplication sign apart, move up by
    32. *)
Definition lower_char (c : Ascii.ascii) : Ascii.ascii :=
  if is_upper c || (in_range 192 222 c && negb (Ascii.eqb c (Ascii.ascii_of_N 215)))
  then Ascii.ascii_of_N (Ascii.N_of_ascii c + 32)
  else c.

Definition toLowerCase (s : string) : string := string_map lower_char s.

(** The code units a cleaned name is made of: a-z, 0-9 and "_". *)
Definition file_char (c : Ascii.ascii) : bool :=
  is_digit c || is_lower c || Ascii.eqb c underscore.

(** The file name of [handleDownload]. *)
Definition fileName (projectName : string) : string :=
  toLowerCase (replace_non_alnum projectName) +:+ "_documentation.md".

(** [s.split("\n")] *)
Fixpoint split_lines (s : string) : list string :=
  match s with
  | EmptyString => [EmptyString]
  | String c s' =>
      if Ascii.eqb c (Ascii.ascii_of_N 10) then EmptyString :: split_lines s'
      else match split_lines s' with
           | l :: ls => String c l :: ls
           | [] => [String c EmptyString]
           end
  end.

(** [lines.join("\n")] *)
Fixpoint join_lines (l : list string) : string :=
  match l with
  | [] => EmptyString
  | [x] => x
  | x :: rest => x +:+ String (Ascii.ascii_of_N 10) (join_lines rest)
  end.

Record DocsForm : Type := {
  projectName : string;
  techStack : string;
  description : string;
  features : string;
  context : string;
  isGenerating : bool;
  generatedDocs : Value
}.

(** The [data] of the request body. *)
Record DocsRequest : Type := {
  req_projectName : string;
  req_techStack : string;
  req_description : string;
  req_features : list string;
  req_context : string
}.

Definition with_docs (form : DocsForm) (generating : bool) (docs : Value) : DocsForm :=
  {| projectName := projectName form; techStack := techStack form;
     description := description form; features := features form;
     context := context form; isGenerating := generating; generatedDocs := docs |}.

(** [handleGenerate]; [reply] is what [fetch] followed by
    [response.json()] settles to. The result is the form once the call
    has run as far as it gets, the titles of the toasts shown, and the
    request that was sent. *)
Definition handleGenerate (reply : promise Doc) (form : DocsForm)
  : DocsForm * list string * option DocsRequest :=
  if blank (projectName form) || blank (techStack form) || blank (description form)
  then (form, ["Missing fields"], None)
  else
    let request :=
      {| req_projectName := projectName form; req_techStack := techStack form;
         req_description := description form;
         req_features := filter (λ f, blank f = false) (split_lines (features form));
         req_context := context form |} in
    match reply with
    | Pending => (with_docs form true (VStr ""), [], Some request)
    | Settles _ (Rejected _) =>
        (with_docs form false (VStr ""), ["Generation failed"], Some request)
    | Settles _ (Fulfilled data) =>
        if falsy (field data "error") then
          (with_docs form false (field data "result"), ["Documentation generated!"],
           Some request)
        else (with_docs form false (VStr ""), ["Generation failed"], Some request)
    end.

End DocsGenerator.

(** * Properties *)

Lemma withTimeout_resolves {A} (p : promise A) ms fallback :
  ∃ t v, (t <= ms)%N ∧ withTimeout p ms fallback = Settles t (Fulfilled v).
Proof.
  unfold withTimeout, race, timer.
  destruct p as [|t [v|e]]; simpl.
  - exists ms, fallback. split; [lia | done].
  - destruct (N.leb_spec t ms); simpl.
    + exists t, v. done.
    + exists ms, fallback. split; [lia | done].
  - destruct (N.leb_spec t ms); simpl.
    + exists t, fallback. done.
    + exists ms, fallback. split; [lia | done].
Qed.

Lemma withTimeout_no_answer {A} net (v : A) ms fallback :
  no_answer_by ms net →
  resolves_within (withTimeout (respond net v) ms fallback) ms fallback.
Proof.
  unfold resolves_within, withTimeout, race, timer.
  destruct net as [t|t e|]; simpl; intros H.
  - destruct (N.leb_spec t ms); [lia|]. exists ms. split; [lia | done].
  - destruct (N.leb_spec t ms); simpl.
    + exists t. done.
    + exists ms. split; [lia | done].
  - exists ms. split; [lia | done].
Qed.

Lemma getProject_resolves db net now projectId (st : Store) :
  ∃ t v, (t <= 3000)%N ∧
    getProject db net now projectId st = (Settles t (Fulfilled v), st).
Proof.
  unfold getProject, try_catch, bind, read, getDb, ret, throw.
  destruct db; simpl.
  - destruct (withTimeout_resolves
                (pmap Some (getDoc net st "projects" projectId)) 3000 None)
      as (t & v & Ht & ->).
    destruct v as [[data|]|]; simpl; do 2 eexists; (split; [|reflexivity]); lia.
  - do 2 eexists. split; [|reflexivity]. lia.
Qed.

Lemma getProject_no_answer db net now projectId (st : Store) :
  no_answer_by 3000 net →
  ∃ t, (t <= 3000)%N ∧
    getProject db net now projectId st = (Settles t (Fulfilled None), st).
Proof.
  intros Hn.
  unfold getProject, try_catch, bind, read, getDb, ret, throw.
  destruct db; simpl.
  - unfold getDoc.
    replace (pmap Some (respond net (coll st "projects" !! projectId)))
      with (respond net (Some (coll st "projects" !! projectId)))
      by (by destruct net).
    destruct (withTimeout_no_answer net
                (Some (coll st "projects" !! projectId)) 3000 None Hn)
      as (t & Ht & ->).
    simpl. eexists. split; [|reflexivity]. lia.
  - eexists. split; [|reflexivity]. lia.
Qed.

Lemma getUserProjects_resolves db net now userId (st : Store) :
  ∃ t v, (t <= 3000)%N ∧
    getUserProjects db net now userId st = (Settles t (Fulfilled v), st).
Proof.
  unfold getUserProjects, try_catch, bind, read, getDb, ret, throw.
  destruct db; simpl.
  - destruct (withTimeout_resolves
                (getDocs net st "projects" (where_array_contains "members" userId))
                3000 [])
      as (t & v & Ht & ->).
    simpl; do 2 eexists; (split; [|reflexivity]); lia.
  - do 2 eexists. split; [|reflexivity]. lia.
Qed.

Lemma getUserProjects_no_answer db net now userId (st : Store) :
  no_answer_by 3000 net →
  ∃ t, (t <= 3000)%N ∧
    getUserProjects db net now userId st = (Settles t (Fulfilled []), st).
Proof.
  intros Hn.
  unfold getUserProjects, try_catch, bind, read, getDb, ret, throw.
  destruct db; simpl.
  - unfold getDocs.
    destruct (withTimeout_no_answer net
                (query st "projects" (where_array_contains "members" userId))
                3000 [] Hn)
      as (t & Ht & ->).
    simpl. eexists. split; [|reflexivity]. lia.
  - eexists. split; [|reflexivity]. lia.
Qed.

Lemma joinProjectByCode_no_answer qnet cnet srv joinCode userId (st : Store) :
  no_answer_by 5000 qnet →
  ∃ t, (t <= 5000)%N ∧
    joinProjectByCode true qnet cnet srv joinCode userId st
    = (Settles t (Fulfilled None), st).
Proof.
  intros Hn.
  unfold joinProjectByCode, try_catch, bind, read, getDb, ret, throw.
  simpl. unfold getDocs.
  destruct (withTimeout_no_answer qnet
              (query st "projects" (where_eq "join_code" (VStr joinCode)))
              5000 [] Hn)
    as (t & Ht & ->).
  simpl. eexists. split; [|reflexivity]. lia.
Qed.

(** C2. The bounded one-shot fetches: whatever the store does,
    [getProject] and [getUserProjects] resolve within 3000 ms and never
    reject, and the join-code lookup resolves within 5000 ms and never
    rejects; when the store gives no answer by the bound (it hangs, fails,
    or answers too late) the results are the fallbacks [null], [[]] and
    [null], and the store is left as it was. *)
Theorem bounded_fetch_fallback db net cnet now srv (id userId joinCode : string) (st : Store) :
  (∃ v, resolves_within (getProject db net now id st).1 3000 v) ∧
  (∃ v, resolves_within (getUserProjects db net now userId st).1 3000 v) ∧
  (∃ v, resolves_within
          (withTimeout (getDocs net st "projects" (where_eq "join_code" (VStr joinCode)))
             5000 []) 5000 v) ∧
  (no_answer_by 3000 net →
     resolves_within (getProject db net now id st).1 3000 None ∧
     resolves_within (getUserProjects db net now userId st).1 3000 []) ∧
  (no_answer_by 5000 net →
     resolves_within (joinProjectByCode true net cnet srv joinCode userId st).1 5000 None ∧
     (joinProjectByCode true net cnet srv joinCode userId st).2 = st).
Proof.
  repeat split.
  - destruct (getProject_resolves db net now id st) as (t & v & Ht & ->).
    exists v, t. done.
  - destruct (getUserProjects_resolves db net now userId st) as (t & v & Ht & ->).
    exists v, t. done.
  - destruct (withTimeout_resolves
                (getDocs net st "projects" (where_eq "join_code" (VStr joinCode)))
                5000 []) as (t & v & Ht & ->).
    exists v, t. done.
  - destruct (getProject_no_answer db net now id st H) as (t & Ht & ->).
    exists t. done.
  - destruct (getUserProjects_no_answer db net now userId st H) as (t & Ht & ->).
    exists t. done.
  - destruct (joinProjectByCode_no_answer net cnet srv joinCode userId st H)
      as (t & Ht & ->).
    exists t. done.
  - destruct (joinProjectByCode_no_answer net cnet srv joinCode userId st H)
      as (t & Ht & ->). done.
Qed.

(** ** Store lemmas *)

Lemma coll_put_eq (st : Store) c id d : coll (put st c id d) c !! id = Some d.
Proof. unfold coll, put. by rewrite lookup_insert_eq; simpl; rewrite lookup_insert_eq. Qed.

Lemma coll_put_ne (st : Store) c id d c' id' :
  (c, id) ≠ (c', id') → coll (put st c id d) c' !! id' = coll st c' !! id'.
Proof.
  intros Hne. unfold coll, put.
  destruct (decide (c = c')) as [->|Hc].
  - rewrite lookup_insert_eq; simpl. rewrite lookup_insert_ne; [done | congruence].
  - by rewrite lookup_insert_ne.
Qed.

Lemma coll_remove_eq (st : Store) c id : coll (remove st c id) c !! id = None.
Proof. unfold coll, remove. by rewrite lookup_insert_eq; simpl; rewrite lookup_delete_eq. Qed.

Lemma coll_remove_ne (st : Store) c id c' id' :
  (c, id) ≠ (c', id') → coll (remove st c id) c' !! id' = coll st c' !! id'.
Proof.
  intros Hne. unfold coll, remove.
  destruct (decide (c = c')) as [->|Hc].
  - rewrite lookup_insert_eq; simpl. rewrite lookup_delete_ne; [done | congruence].
  - by rewrite lookup_insert_ne.
Qed.

Lemma js_insert_elem {A} (cmp : A → A → Z) x y (l : list A) :
  y ∈ js_insert cmp x l ↔ y = x ∨ y ∈ l.
Proof.
  induction l as [|z l IH]; cbn [js_insert].
  - rewrite list_elem_of_singleton. split; [by left|].
    intros [?|H]; [done|]. by apply elem_of_nil in H.
  - destruct (cmp x z <=? 0)%Z.
    + by rewrite elem_of_cons.
    + rewrite !elem_of_cons, IH. tauto.
Qed.

Lemma js_sort_elem {A} (cmp : A → A → Z) y (l : list A) :
  y ∈ js_sort cmp l ↔ y ∈ l.
Proof.
  induction l as [|x l IH]; [done|]. unfold js_sort in *. cbn [foldr].
  by rewrite js_insert_elem, IH, elem_of_cons.
Qed.

Lemma query_elem (st : Store) c (P : string * Doc → Prop) `{!∀ kv, Decision (P kv)} id d :
  (id, d) ∈ query st c P ↔ coll st c !! id = Some d ∧ P (id, d).
Proof.
  unfold query. by rewrite js_sort_elem, elem_of_map_to_list, map_lookup_filter_Some.
Qed.

Lemma query_head (st : Store) c (P : string * Doc → Prop) `{!∀ kv, Decision (P kv)} id d rest :
  query st c P = (id, d) :: rest → coll st c !! id = Some d ∧ P (id, d).
Proof. intros Hq. apply (query_elem st c P). rewrite Hq. left. Qed.

Lemma update_fields_singleton srv k v (old : Doc) :
  update_fields srv {[k := v]} old = <[k := stored srv (old !! k) v]> old.
Proof.
  apply map_eq; intros i. unfold update_fields. rewrite lookup_merge.
  destruct (decide (k = i)) as [->|Hne].
  - rewrite lookup_singleton_eq, lookup_insert_eq. by destruct (old !! i).
  - rewrite lookup_singleton_ne, lookup_insert_ne by done. by destruct (old !! i).
Qed.

Lemma array_union_elem x old : x ∈ array_union old [x].
Proof.
  unfold array_union. apply elem_of_app.
  destruct (decide (x ∈ old)) as [Hin|Hnin]; [by left | right].
  apply elem_of_remove_dups, list_elem_of_filter. split; [done | left].
Qed.

Lemma array_union_old x old add : x ∈ old → x ∈ array_union old add.
Proof. intros Hin. unfold array_union. apply elem_of_app. by left. Qed.

Lemma role_doc_defined projectId userId role : ¬ has_undefined (role_doc projectId userId role).
Proof.
  intros (k & v & Hk & ->). unfold role_doc in Hk.
  repeat (apply lookup_insert_Some in Hk as [[_ Hk]|[_ Hk]]; [done|]).
  by apply lookup_singleton_Some in Hk as [_ Hk].
Qed.

Lemma set_fields_role_doc srv projectId userId role :
  set_fields srv (role_doc projectId userId role) = role_doc projectId userId role.
Proof. unfold set_fields, role_doc. by rewrite !fmap_insert, map_fmap_singleton. Qed.

Lemma join_batch_payload_ok projectId userId :
  forallb op_payload_ok (join_batch projectId userId) = true.
Proof.
  unfold join_batch. cbn [forallb op_payload_ok].
  rewrite (bool_decide_eq_true_2 (¬ has_undefined (role_doc _ _ _)))
    by apply role_doc_defined.
  rewrite bool_decide_eq_true_2; [done|].
  intros (k & v & Hk & ->). by apply lookup_singleton_Some in Hk as [_ Hk].
Qed.

Lemma stored_members_union srv (d : Doc) userId :
  stored srv (d !! "members") (VArrayUnion [userId])
  = VStrings (array_union (members_of d) [userId]).
Proof. unfold members_of. simpl. by destruct (d !! "members") as [[]|]. Qed.

(** ** Deleting a project *)

Lemma apply_ops_app srv (st : Store) ops1 ops2 :
  apply_ops srv st (ops1 ++ ops2)
  = match apply_ops srv st ops1 with
    | Some st1 => apply_ops srv st1 ops2
    | None => None
    end.
Proof.
  revert st. induction ops1 as [|op ops1 IH]; intros st; cbn [apply_ops app]; [done|].
  destruct (apply_op srv st op); [apply IH | done].
Qed.

Lemma apply_ops_deletes srv c (l : list (string * Doc)) (st : Store) :
  ∃ st', apply_ops srv st (map (λ d : string * Doc, OpDelete c d.1) l) = Some st' ∧
         ∀ c' id, coll st' c' !! id
                  = if decide (c' = c ∧ id ∈ l.*1) then None else coll st c' !! id.
Proof.
  revert st. induction l as [|[k d] l IH]; intros st; cbn [map apply_ops apply_op].
  - exists st. split; [done|]. intros c' id.
    destruct (decide _) as [[_ Hin]|]; [|done]. by apply elem_of_nil in Hin.
  - destruct (IH (remove st c k)) as (st' & Hst' & Hl). exists st'. split; [done|].
    intros c' id. rewrite Hl. cbn [fmap list_fmap fst].
    destruct (decide (c' = c ∧ id ∈ l.*1)) as [[-> Hin]|Hn].
    + rewrite decide_True; [done|]. split; [done | by right].
    + destruct (decide ((c, k) = (c', id))) as [Heq|Hne].
      * injection Heq as <- <-. rewrite coll_remove_eq.
        rewrite decide_True; [done|]. split; [done | left].
      * rewrite coll_remove_ne by done.
        destruct (decide (c' = c ∧ id ∈ k :: l.*1)) as [[-> Hin]|]; [|done].
        apply elem_of_cons in Hin as [->|Hin]; [done|]. destruct Hn. done.
Qed.

Lemma deletes_payload_ok c (l : list (string * Doc)) :
  forallb op_payload_ok (map (λ d : string * Doc, OpDelete c d.1) l) = true.
Proof. by induction l. Qed.

Lemma queue_deletes_run net c projectId batch (st : Store) :
  settles net →
  queue_deletes net c projectId batch st
  = (Settles (net_time net + 0)
       (Fulfilled (batch ++ map (λ d : string * Doc, OpDelete c d.1)
                                (gathered net st c projectId))), st).
Proof.
  destruct net; intros Hs; [done | | done].
  unfold queue_deletes, try_catch, bind, read, ret, getDocs, gathered.
  cbn [respond delay map net_time]. by rewrite app_nil_r.
Qed.

Lemma deleteProject_batch_run tnet mnet projectId (st : Store) :
  settles tnet → settles mnet →
  deleteProject_batch true tnet mnet projectId st
  = (Settles (net_time tnet + net_time mnet)
       (Fulfilled
          (map (λ d : string * Doc, OpDelete "tasks" d.1)
               (gathered tnet st "tasks" projectId)
           ++ map (λ d : string * Doc, OpDelete "messages" d.1)
                  (gathered mnet st "messages" projectId)
           ++ [OpDelete "projects" projectId])), st).
Proof.
  intros Ht Hm. unfold deleteProject_batch, getDb.
  unfold bind at 1. unfold ret at 1.
  unfold bind at 1. rewrite queue_deletes_run by done.
  unfold bind at 1. rewrite queue_deletes_run by done.
  unfold ret. cbn [app delay]. rewrite <- app_assoc. f_equal. f_equal. lia.
Qed.

Lemma deleteProject_run tnet mnet cnet srv projectId (st : Store) :
  settles tnet → settles mnet →
  deleteProject true tnet mnet cnet srv projectId st
  = let '(p, st') :=
      commit cnet srv
        (map (λ d : string * Doc, OpDelete "tasks" d.1) (gathered tnet st "tasks" projectId)
         ++ map (λ d : string * Doc, OpDelete "messages" d.1)
                (gathered mnet st "messages" projectId)
         ++ [OpDelete "projects" projectId]) st in
    (delay (net_time tnet + 0 + (net_time mnet + 0)) p, st').
Proof.
  intros Ht Hm. unfold deleteProject, bind.
  rewrite deleteProject_batch_run by done.
  destruct (commit _ _ _ _) as [p st'].
  destruct p as [|t r]; [done|]. cbn [delay]. f_equal. f_equal. lia.
Qed.

Lemma gathered_ids net (st : Store) c projectId id :
  id ∈ (gathered net st c projectId).*1
  ↔ answers net ∧
    ∃ d, coll st c !! id = Some d ∧ d !! "project_id" = Some (VStr projectId).
Proof.
  rewrite list_elem_of_fmap. split.
  - intros ([id' d] & -> & Hin). destruct net; cbn [gathered] in Hin;
      try by apply elem_of_nil in Hin.
    apply (query_elem st) in Hin as [Hd Hp]. split; [done|]. by exists d.
  - intros [Ha (d & Hd & Hp)]. destruct net; try done.
    exists (id, d). split; [done|]. cbn [gathered]. by apply (query_elem st).
Qed.

Lemma deletes_by_id c (l : list (string * Doc)) :
  map (λ d : string * Doc, OpDelete c d.1) l = map (OpDelete c) l.*1.
Proof. induction l as [|x l IH]; [done|]. cbn [map fmap list_fmap]. by f_equal. Qed.

(** C5 (amended). Deleting a project. Once both sub-collection queries
    have settled, the batch holds the deletes of the tasks of the project,
    then those of its messages, then, last, the delete of the project
    document; a query that threw contributes no delete and stops nothing.
    Nothing is deleted before the one commit of that batch: when the
    commit succeeds exactly the documents of the batch are gone, when it
    fails the call rejects and the store is as before, the project
    document included, and when it hangs the call stays pending. A query
    that never settles keeps the call pending with nothing deleted. *)
Theorem deleteProject_order tnet mnet cnet srv projectId (st : Store) :
  (settles tnet → settles mnet →
   ∃ ts ms : list string,
     (∀ id, id ∈ ts
            ↔ answers tnet ∧
              ∃ d, coll st "tasks" !! id = Some d ∧
                   d !! "project_id" = Some (VStr projectId)) ∧
     (∀ id, id ∈ ms
            ↔ answers mnet ∧
              ∃ d, coll st "messages" !! id = Some d ∧
                   d !! "project_id" = Some (VStr projectId)) ∧
     deleteProject_batch true tnet mnet projectId st
     = (Settles (net_time tnet + net_time mnet)
          (Fulfilled (map (OpDelete "tasks") ts ++ map (OpDelete "messages") ms
                      ++ [OpDelete "projects" projectId])), st) ∧
     match cnet with
     | Responds ct =>
         (deleteProject true tnet mnet cnet srv projectId st).1
         = Settles (net_time tnet + net_time mnet + ct) (Fulfilled tt) ∧
         ∀ c id,
           coll (deleteProject true tnet mnet cnet srv projectId st).2 c !! id
           = if decide ((c = "tasks" ∧ id ∈ ts) ∨ (c = "messages" ∧ id ∈ ms)
                        ∨ (c = "projects" ∧ id = projectId))
             then None else coll st c !! id
     | Fails ct e =>
         deleteProject true tnet mnet cnet srv projectId st
         = (Settles (net_time tnet + net_time mnet + ct) (Rejected e), st)
     | Hangs =>
         deleteProject true tnet mnet cnet srv projectId st = (Pending, st)
     end) ∧
  (¬ (settles tnet ∧ settles mnet) →
   deleteProject true tnet mnet cnet srv projectId st = (Pending, st)).
Proof.
  split.
  - intros Ht Hm.
    set (T := gathered tnet st "tasks" projectId).
    set (M := gathered mnet st "messages" projectId).
    exists T.*1, M.*1.
    split; [intros id; apply gathered_ids|].
    split; [intros id; apply gathered_ids|].
    assert (Hbatch : deleteProject_batch true tnet mnet projectId st
              = (Settles (net_time tnet + net_time mnet)
                   (Fulfilled (map (OpDelete "tasks") T.*1
                               ++ map (OpDelete "messages") M.*1
                               ++ [OpDelete "projects" projectId])), st)).
    { rewrite deleteProject_batch_run by done. by rewrite !deletes_by_id. }
    split; [exact Hbatch|].
    unfold deleteProject, bind. rewrite Hbatch.
    unfold commit.
    rewrite (app_assoc _ _ [OpDelete "projects" projectId]).
    rewrite forallb_app, forallb_app, <- !deletes_by_id, !deletes_payload_ok.
    cbn [forallb op_payload_ok andb].
    destruct cnet as [ct|ct e|]; cbn [delay fst snd]; [|done..].
    destruct (apply_ops_deletes srv "tasks" T st) as (stT & HT & HlT).
    destruct (apply_ops_deletes srv "messages" M stT) as (st1 & HM & HlM).
    rewrite !apply_ops_app, HT, HM. cbn [apply_ops apply_op delay fst snd].
    split; [done|]. intros c id.
    destruct (decide ((c, id) = ("projects", projectId))) as [Heq|Hne].
    { injection Heq as -> ->. rewrite coll_remove_eq.
      rewrite decide_True; [done|]. by right; right. }
    rewrite coll_remove_ne by congruence. rewrite HlM, HlT.
    destruct (decide (c = "messages" ∧ id ∈ M.*1)) as [Hm1|Hm1].
    { rewrite decide_True; [done|]. by right; left. }
    destruct (decide (c = "tasks" ∧ id ∈ T.*1)) as [Ht1|Ht1].
    { rewrite decide_True; [done|]. by left. }
    rewrite decide_False; [done|].
    intros [?|[?|[-> ->]]]; done.
  - intros Hno. unfold deleteProject, deleteProject_batch, bind, getDb, ret.
    destruct tnet as [tt'|tt' te|].
    + destruct mnet as [mt|mt me|]; [by destruct Hno..|]. done.
    + destruct mnet as [mt|mt me|]; [by destruct Hno..|]. done.
    + done.
Qed.

(** ** Sorting with a comparator *)

Section JsSort.
Context {A : Type} (cmp : A → A → Z).

Let before (x y : A) : Prop := (cmp x y <= 0)%Z.

Hypothesis cmp_total : ∀ x y, before x y ∨ before y x.
Hypothesis cmp_trans : ∀ x y z, before x y → before y z → before x z.

Lemma js_insert_perm x l : js_insert cmp x l ≡ₚ x :: l.
Proof.
  induction l as [|y l IH]; cbn [js_insert]; [done|].
  destruct (cmp x y <=? 0)%Z; [done|].
  rewrite IH. apply Permutation_swap.
Qed.

Lemma js_sort_perm l : js_sort cmp l ≡ₚ l.
Proof.
  induction l as [|x l IH]; [done|].
  unfold js_sort in *. cbn [foldr]. by rewrite js_insert_perm, IH.
Qed.

Lemma js_insert_sorted x l :
  StronglySorted before l → StronglySorted before (js_insert cmp x l).
Proof.
  induction 1 as [|y l Hs IH Hy]; cbn [js_insert].
  - repeat constructor.
  - destruct (Z.leb_spec (cmp x y) 0) as [Hxy|Hxy].
    + constructor; [by constructor|].
      constructor; [done|].
      eapply Forall_impl; [exact Hy|]. intros z Hz. by eapply cmp_trans.
    + constructor; [done|].
      rewrite js_insert_perm. constructor; [|done].
      destruct (cmp_total x y) as [H|H]; [unfold before in H; lia | done].
Qed.

Lemma js_sort_sorted l : StronglySorted before (js_sort cmp l).
Proof.
  induction l as [|x l IH]; [constructor|].
  unfold js_sort in *. cbn [foldr]. by apply js_insert_sorted.
Qed.
End JsSort.

Lemma StronglySorted_take_drop {A} (R : relation A) n (l : list A) :
  StronglySorted R l →
  StronglySorted R (take n l) ∧ ∀ a b, a ∈ take n l → b ∈ drop n l → R a b.
Proof.
  intros Hs. rewrite <- (take_drop n l) in Hs.
  apply StronglySorted_app in Hs as (H1 & H2 & H3). split; [done|].
  intros a b Ha Hb. by apply H1.
Qed.

Lemma js_insert_map {A B} (f : A → B) (cmp : B → B → Z) x (l : list A) :
  js_insert cmp (f x) (map f l) = map f (js_insert (λ a b, cmp (f a) (f b)) x l).
Proof.
  induction l as [|y l IH]; cbn [js_insert map]; [done|].
  destruct (cmp (f x) (f y) <=? 0)%Z; cbn [map]; [done|]. by rewrite IH.
Qed.

Lemma js_sort_map {A B} (f : A → B) (cmp : B → B → Z) (l : list A) :
  js_sort cmp (map f l) = map f (js_sort (λ a b, cmp (f a) (f b)) l).
Proof.
  induction l as [|x l IH]; [done|]. unfold js_sort in *. cbn [map foldr].
  by rewrite IH, js_insert_map.
Qed.

Lemma StronglySorted_impl {A} (R S : A → A → Prop) (l : list A) :
  (∀ a b, R a b → S a b) → StronglySorted R l → StronglySorted S l.
Proof.
  intros HRS. induction 1 as [|a l _ IH Hall]; constructor; [done|].
  eapply Forall_impl; [exact Hall|]. intros b. apply HRS.
Qed.

Lemma js_sort_descending {A} (key : A → Z) (l : list A) :
  StronglySorted (λ a b, (key b <= key a)%Z) (js_sort (λ a b, (key b - key a)%Z) l).
Proof.
  eapply StronglySorted_impl; [|apply (js_sort_sorted (λ a b, (key b - key a)%Z))].
  - cbn. intros a b H. lia.
  - intros a b. lia.
  - intros a b c. lia.
Qed.

Lemma js_sort_ascending {A} (key : A → Z) (l : list A) :
  StronglySorted (λ a b, (key a <= key b)%Z) (js_sort (λ a b, (key a - key b)%Z) l).
Proof.
  eapply StronglySorted_impl; [|apply (js_sort_sorted (λ a b, (key a - key b)%Z))].
  - cbn. intros a b H. lia.
  - intros a b. lia.
  - intros a b c. lia.
Qed.

Lemma with_date_stored_time field now (d : Doc) :
  with_date field now d = <[field := VDate (stored_time field now d)]> d.
Proof.
  unfold with_date, stored_time, toDate_or_now. by destruct (d !! field) as [[]|].
Qed.

Lemma toDate_or_now_stored_time field now (d : Doc) :
  toDate_or_now now (d !! field) = VDate (stored_time field now d).
Proof. unfold stored_time, toDate_or_now. by destruct (d !! field) as [[]|]. Qed.

Lemma getTime_dated field ms (d : Doc) : getTime field (<[field := VDate ms]> d) = ms.
Proof. unfold getTime. by rewrite lookup_insert_eq. Qed.

Lemma imap_indexed {B} (f : nat → Doc → B) (docs : list (string * Doc)) :
  imap (λ i (d : string * Doc), f i d.2) docs
  = map (λ a : nat * Doc, f a.1 a.2) (imap (λ i (d : string * Doc), (i, d.2)) docs).
Proof. change (map ?g ?l) with (g <$> l). rewrite fmap_imap. by apply imap_ext. Qed.

(** C4. Every snapshot handler hands its callback the whole recomputed
    sequence: the documents of the snapshot, each with its ordering field
    turned into the date of the stored timestamp (the clock reading when
    it has none), arranged by those times: tasks by [last_updated]
    descending, messages by [timestamp] ascending, milestones by
    [deadline] ascending, notifications by [created_at] descending, and
    activities by [timestamp] descending cut to the first 50, which are
    the 50 most recent ones. [order] is the arrangement: the documents
    with their place in the snapshot. *)
Theorem subscription_snapshot_order clock (docs : list (string * Doc))
    (projectId userId : string) :
  let indexed := imap (λ i (d : string * Doc), (i, d.2)) docs in
  (∃ order : list (nat * Doc),
     order ≡ₚ indexed ∧
     StronglySorted
       (λ a b, (stored_time "last_updated" (clock b.1 0%nat) b.2
                <= stored_time "last_updated" (clock a.1 0%nat) a.2)%Z) order ∧
     onNext (subscribeToTasks true projectId) clock docs
     = [Callback
          (map (λ a : nat * Doc,
                  <["last_updated" :=
                      VDate (stored_time "last_updated" (clock a.1 0%nat) a.2)]> a.2)
               order)]) ∧
  (∃ order : list (nat * Doc),
     order ≡ₚ indexed ∧
     StronglySorted
       (λ a b, (stored_time "timestamp" (clock a.1 0%nat) a.2
                <= stored_time "timestamp" (clock b.1 0%nat) b.2)%Z) order ∧
     onNext (subscribeToMessages true projectId) clock docs
     = [Callback
          (map (λ a : nat * Doc,
                  <["timestamp" :=
                      VDate (stored_time "timestamp" (clock a.1 0%nat) a.2)]> a.2)
               order)]) ∧
  (∃ order : list (nat * Doc),
     order ≡ₚ indexed ∧
     StronglySorted
       (λ a b, (stored_time "deadline" (clock a.1 0%nat) a.2
                <= stored_time "deadline" (clock b.1 0%nat) b.2)%Z) order ∧
     onNext (subscribeToMilestones true projectId) clock docs
     = [Callback
          (map (λ a : nat * Doc,
                  <["created_at" :=
                      VDate (stored_time "created_at" (clock a.1 1%nat) a.2)]>
                    (<["deadline" :=
                         VDate (stored_time "deadline" (clock a.1 0%nat) a.2)]> a.2))
               order)]) ∧
  (∃ order : list (nat * Doc),
     order ≡ₚ indexed ∧
     StronglySorted
       (λ a b, (stored_time "timestamp" (clock b.1 0%nat) b.2
                <= stored_time "timestamp" (clock a.1 0%nat) a.2)%Z) order ∧
     onNext (subscribeToActivities true projectId) clock docs
     = [Callback
          (map (λ a : nat * Doc,
                  <["timestamp" :=
                      VDate (stored_time "timestamp" (clock a.1 0%nat) a.2)]> a.2)
               (take 50 order))] ∧
     length (take 50 order) = min 50 (length docs) ∧
     ∀ a b, a ∈ take 50 order → b ∈ drop 50 order →
            (stored_time "timestamp" (clock b.1 0%nat) b.2
             <= stored_time "timestamp" (clock a.1 0%nat) a.2)%Z) ∧
  (∃ order : list (nat * Doc),
     order ≡ₚ indexed ∧
     StronglySorted
       (λ a b, (stored_time "created_at" (clock b.1 0%nat) b.2
                <= stored_time "created_at" (clock a.1 0%nat) a.2)%Z) order ∧
     onNext (subscribeToNotifications true projectId userId) clock docs
     = [Callback
          (map (λ a : nat * Doc,
                  <["created_at" :=
                      VDate (stored_time "created_at" (clock a.1 0%nat) a.2)]> a.2)
               order)]).
Proof.
  intros indexed. subst indexed.
  assert (Hdated : ∀ field (j : nat),
            imap (λ i (d : string * Doc), with_date field (clock i j) d.2) docs
            = map (λ a : nat * Doc,
                     <[field := VDate (stored_time field (clock a.1 j) a.2)]> a.2)
                (imap (λ i (d : string * Doc), (i, d.2)) docs)).
  { intros field j. rewrite (imap_indexed (λ i d, with_date field (clock i j) d)).
    apply list_fmap_ext. intros _ a _. apply with_date_stored_time. }
  split; [|split; [|split; [|split]]].
  - eexists. split; [|split]; cycle 2.
    + cbn [subscribeToTasks onNext]. rewrite Hdated, js_sort_map. reflexivity.
    + apply js_sort_perm.
    + unfold newest_first. cbn beta.
      eapply StronglySorted_impl;
        [|apply (js_sort_descending
                   (λ a : nat * Doc,
                      getTime "last_updated"
                        (<["last_updated" :=
                             VDate (stored_time "last_updated" (clock a.1 0%nat) a.2)]>
                           a.2)))].
      intros a b. cbn beta. by rewrite !getTime_dated.
  - eexists. split; [|split]; cycle 2.
    + cbn [subscribeToMessages onNext]. rewrite Hdated, js_sort_map. reflexivity.
    + apply js_sort_perm.
    + unfold oldest_first. cbn beta.
      eapply StronglySorted_impl;
        [|apply (js_sort_ascending
                   (λ a : nat * Doc,
                      getTime "timestamp"
                        (<["timestamp" :=
                             VDate (stored_time "timestamp" (clock a.1 0%nat) a.2)]>
                           a.2)))].
      intros a b. cbn beta. by rewrite !getTime_dated.
  - eexists. split; [|split]; cycle 2.
    + cbn [subscribeToMilestones onNext].
      rewrite (imap_indexed
                 (λ i d, <["created_at" := toDate_or_now (clock i 1%nat) (d !! "created_at")]>
                           (with_date "deadline" (clock i 0%nat) d))).
      rewrite (list_fmap_ext _
                 (λ a : nat * Doc,
                    <["created_at" :=
                        VDate (stored_time "created_at" (clock a.1 1%nat) a.2)]>
                      (<["deadline" :=
                           VDate (stored_time "deadline" (clock a.1 0%nat) a.2)]> a.2))).
      2:{ intros _ a _. cbn beta.
          by rewrite toDate_or_now_stored_time, with_date_stored_time. }
      rewrite js_sort_map. reflexivity.
    + apply js_sort_perm.
    + unfold oldest_first. cbn beta.
      eapply StronglySorted_impl;
        [|apply (js_sort_ascending
                   (λ a : nat * Doc,
                      getTime "deadline"
                        (<["created_at" :=
                             VDate (stored_time "created_at" (clock a.1 1%nat) a.2)]>
                           (<["deadline" :=
                                VDate (stored_time "deadline" (clock a.1 0%nat) a.2)]>
                              a.2))))].
      intros a b. cbn beta. unfold getTime.
      rewrite !(lookup_insert_ne _ "created_at" "deadline") by done.
      by rewrite !lookup_insert_eq.
  - set (order := js_sort
                    (λ a b : nat * Doc,
                       newest_first "timestamp"
                         (<["timestamp" :=
                              VDate (stored_time "timestamp" (clock a.1 0%nat) a.2)]> a.2)
                         (<["timestamp" :=
                              VDate (stored_time "timestamp" (clock b.1 0%nat) b.2)]> b.2))
                    (imap (λ i (d : string * Doc), (i, d.2)) docs)).
    assert (Hsorted : StronglySorted
              (λ a b : nat * Doc,
                 (stored_time "timestamp" (clock b.1 0%nat) b.2
                  <= stored_time "timestamp" (clock a.1 0%nat) a.2)%Z) order).
    { subst order. unfold newest_first.
      eapply StronglySorted_impl;
        [|apply (js_sort_descending
                   (λ a : nat * Doc,
                      getTime "timestamp"
                        (<["timestamp" :=
                             VDate (stored_time "timestamp" (clock a.1 0%nat) a.2)]>
                           a.2)))].
      intros a b. cbn beta. by rewrite !getTime_dated. }
    exists order. split; [apply js_sort_perm|]. split; [exact Hsorted|].
    split; [|split].
    + cbn [subscribeToActivities onNext]. rewrite Hdated, js_sort_map.
      by rewrite <- fmap_take.
    + subst order. by rewrite length_take, js_sort_perm, length_imap.
    + apply (StronglySorted_take_drop _ 50) in Hsorted as [_ Hd].
      intros a b Ha Hb. by apply (Hd a b).
  - eexists. split; [|split]; cycle 2.
    + cbn [subscribeToNotifications onNext]. rewrite Hdated, js_sort_map. reflexivity.
    + apply js_sort_perm.
    + unfold newest_first. cbn beta.
      eapply StronglySorted_impl;
        [|apply (js_sort_descending
                   (λ a : nat * Doc,
                      getTime "created_at"
                        (<["created_at" :=
                             VDate (stored_time "created_at" (clock a.1 0%nat) a.2)]>
                           a.2)))].
      intros a b. cbn beta. by rewrite !getTime_dated.
Qed.

(** ** Joining by code *)

Lemma ascii_compare_trans (a b c : Ascii.ascii) :
  Ascii.compare a b ≠ Gt → Ascii.compare b c ≠ Gt → Ascii.compare a c ≠ Gt.
Proof.
  unfold Ascii.compare. rewrite !N.compare_gt_iff. lia.
Qed.

Lemma string_compare_refl (s : string) : String.compare s s = Eq.
Proof. induction s as [|a s IH]; [done|]. cbn. unfold Ascii.compare. by rewrite N.compare_refl. Qed.

Lemma string_compare_trans (s1 s2 s3 : string) :
  String.compare s1 s2 ≠ Gt → String.compare s2 s3 ≠ Gt → String.compare s1 s3 ≠ Gt.
Proof.
  revert s2 s3. induction s1 as [|a s1 IH]; intros [|b s2] [|c s3]; cbn; try done.
  unfold Ascii.compare.
  destruct (N.compare_spec (Ascii.N_of_ascii a) (Ascii.N_of_ascii b)) as [Hab|Hab|Hab];
    destruct (N.compare_spec (Ascii.N_of_ascii b) (Ascii.N_of_ascii c)) as [Hbc|Hbc|Hbc];
    try done.
  - rewrite Hab, Hbc, N.compare_refl. apply IH.
  - rewrite Hab. intros _ _. by rewrite (proj2 (N.compare_lt_iff _ _) Hbc).
  - rewrite <- Hbc. intros _ _. by rewrite (proj2 (N.compare_lt_iff _ _) Hab).
  - intros _ _. rewrite (proj2 (N.compare_lt_iff _ _)); [done | lia].
Qed.

Lemma string_compare_total (s1 s2 : string) :
  String.compare s1 s2 ≠ Gt ∨ String.compare s2 s1 ≠ Gt.
Proof.
  rewrite (String.compare_antisym s2 s1).
  destruct (String.compare s1 s2); cbn; auto.
Qed.

Lemma by_id_before (a b : string * Doc) :
  (by_id a b <= 0)%Z ↔ String.compare a.1 b.1 ≠ Gt.
Proof. unfold by_id. destruct (String.compare a.1 b.1); split; (done || lia). Qed.

(** A query lists its matches by ascending document id. *)
Lemma query_by_id (st : Store) c (P : string * Doc → Prop) `{!∀ kv, Decision (P kv)} :
  StronglySorted (λ a b : string * Doc, String.compare a.1 b.1 ≠ Gt) (query st c P).
Proof.
  unfold query.
  eapply StronglySorted_impl; [|apply (js_sort_sorted by_id)].
  - intros a b. apply by_id_before.
  - intros a b. rewrite !by_id_before. apply string_compare_total.
  - intros x y z. rewrite !by_id_before. apply string_compare_trans.
Qed.

Lemma query_head_least (st : Store) c (P : string * Doc → Prop)
    `{!∀ kv, Decision (P kv)} id d rest id' d' :
  query st c P = (id, d) :: rest →
  coll st c !! id' = Some d' → P (id', d') → String.compare id id' ≠ Gt.
Proof.
  intros Hq Hd HP. pose proof (query_by_id st c P) as Hs. rewrite Hq in Hs.
  assert (Hin : (id', d') ∈ query st c P) by by apply (query_elem st).
  rewrite Hq in Hin. apply elem_of_cons in Hin as [Heq|Hin].
  - injection Heq as -> ->. by rewrite string_compare_refl.
  - apply StronglySorted_inv in Hs as [_ Hall].
    rewrite Forall_forall in Hall. apply (Hall _ Hin).
Qed.

Lemma array_union_member (l : list string) x :
  array_union l [x] = if decide (x ∈ l) then l else l ++ [x].
Proof.
  unfold array_union. cbn [filter list_filter].
  destruct (decide (x ∈ l)) as [Hin|Hnin].
  - rewrite decide_False by (intros H; by apply H). cbn. by rewrite app_nil_r.
  - by rewrite decide_True.
Qed.

Lemma array_union_explicit (d : Doc) (userId : string) :
  array_union (members_of d) [userId]
  = match d !! "members" with
    | Some (VStrings l) => if decide (userId ∈ l) then l else l ++ [userId]
    | _ => [userId]
    end.
Proof.
  rewrite array_union_member. unfold members_of.
  destruct (d !! "members") as [[]|]; try done;
    by rewrite decide_False by (intros H; by apply elem_of_nil in H).
Qed.

(** C1. Joining by code. When the join-code query answers within its
    5000 ms with at least one project, the member update of the first
    match (the matching project of least document id) and the role
    record are committed together. If the commit
    succeeds the project id is returned; the project document is the old
    one with its member list unchanged when the user is in it, and with
    the user appended otherwise (a field that holds no list becomes the
    list of the user alone); the record stored under the key
    [<project id>_<user id>] holds the project id, the user id and the
    role "member"; nothing else changes. If the commit fails the
    rejection is passed on, if it hangs the call stays pending, and in
    both cases the store is exactly as before. When the query matches no
    project the result is [null] and the store is untouched. *)
Theorem joinProjectByCode_atomic qt cnet srv joinCode userId (st : Store) :
  (qt <= 5000)%N →
  let run := joinProjectByCode true (Responds qt) cnet srv joinCode userId st in
  match query st "projects" (where_eq "join_code" (VStr joinCode)) with
  | [] => run = (Settles qt (Fulfilled None), st)
  | (pid, d) :: _ =>
      coll st "projects" !! pid = Some d ∧
      d !! "join_code" = Some (VStr joinCode) ∧
      (∀ id' d', coll st "projects" !! id' = Some d' →
                 d' !! "join_code" = Some (VStr joinCode) →
                 String.compare pid id' ≠ Gt) ∧
      match cnet with
      | Responds ct =>
          run.1 = Settles (qt + ct) (Fulfilled (Some pid)) ∧
          coll run.2 "projects" !! pid
            = Some (<["members" :=
                        VStrings
                          match d !! "members" with
                          | Some (VStrings l) =>
                              if decide (userId ∈ l) then l else l ++ [userId]
                          | _ => [userId]
                          end]> d) ∧
          coll run.2 "project_roles" !! (pid +:+ "_" +:+ userId)
            = Some (<["project_id" := VStr pid]>
                      (<["user_id" := VStr userId]> {["role" := VStr "member"]})) ∧
          (∀ c id, (c, id) ≠ ("projects", pid) →
                   (c, id) ≠ ("project_roles", pid +:+ "_" +:+ userId) →
                   coll run.2 c !! id = coll st c !! id)
      | Fails ct e => run = (Settles (qt + ct) (Rejected e), st)
      | Hangs => run = (Pending, st)
      end
  end.
Proof.
  intros Hqt run. subst run.
  unfold joinProjectByCode, try_catch, bind, read, getDb, ret, throw, getDocs.
  unfold withTimeout, race, timer. cbn [respond].
  destruct (N.leb_spec qt 5000) as [_|]; [|lia].
  destruct (query st "projects" (where_eq "join_code" (VStr joinCode)))
    as [|[pid d] rest] eqn:Hq; cbn [catch delay fst snd].
  { by rewrite N.add_0_r. }
  pose proof (query_head_least st "projects" (where_eq "join_code" (VStr joinCode))
                pid d rest) as Hleast.
  apply (query_head st) in Hq as Hhead. destruct Hhead as [Hd Hcode].
  split; [done|]. split; [done|].
  split; [intros id' d' Hd' Hc'; by apply (Hleast id' d' Hq)|].
  unfold commit. rewrite join_batch_payload_ok.
  destruct cnet as [ct|ct e|]; cbn [delay fst snd].
  - unfold join_batch. cbn [apply_ops apply_op]. rewrite Hd.
    cbn [delay fst snd]. rewrite N.add_0_r.
    rewrite update_fields_singleton, stored_members_union, set_fields_role_doc.
    rewrite array_union_explicit.
    split; [done|]. split; [|split].
    + rewrite coll_put_ne by done. apply coll_put_eq.
    + apply (coll_put_eq _ "project_roles" (role_key pid userId)).
    + intros c id H1 H2. rewrite (coll_put_ne _ "project_roles" (role_key pid userId)) by done.
      by rewrite coll_put_ne.
  - by rewrite N.add_0_r.
  - done.
Qed.

(** ** Stream errors *)

Lemma log_and_empty_once msg :
  error_reported_once [ConsoleError msg; Callback []].
Proof.
  split; [done|]. intros (c & f & Hin).
  repeat (apply elem_of_cons in Hin as [Hin|Hin]; [done|]).
  by apply elem_of_nil in Hin.
Qed.

(** The claim of C3 fails for the member subscription: an error on a
    member stream is logged and the callback is not invoked. *)
Lemma member_stream_error_no_callback :
  ¬ error_reported_once
      (member_step [] (MemberError "u1" (StoreError "unavailable"))).2.
Proof. intros [Hcb _]. discriminate Hcb. Qed.

(** C3 (amended). For tasks, messages, milestones and schedule events a
    stream error invokes the callback exactly once, with the empty
    sequence, opens no new stream, and ends the delivery; the member
    subscription only logs the error of a member stream: the callback is
    not invoked, the accumulated map is kept and no stream is reopened. *)
Theorem stream_error_handling (projectId userId : string) (e : Error)
    (rest : list StreamEvent) (membersMap : list (string * Doc)) (id : string) :
  (error_reported_once (on_error (subscribeToTasks true projectId) e) ∧
   deliver (subscribeToTasks true projectId) (StreamError e :: rest)
     = on_error (subscribeToTasks true projectId) e) ∧
  (error_reported_once (on_error (subscribeToMessages true projectId) e) ∧
   deliver (subscribeToMessages true projectId) (StreamError e :: rest)
     = on_error (subscribeToMessages true projectId) e) ∧
  (error_reported_once (on_error (subscribeToMilestones true projectId) e) ∧
   deliver (subscribeToMilestones true projectId) (StreamError e :: rest)
     = on_error (subscribeToMilestones true projectId) e) ∧
  (error_reported_once (on_error (subscribeToScheduleEvents true projectId userId) e) ∧
   deliver (subscribeToScheduleEvents true projectId userId) (StreamError e :: rest)
     = on_error (subscribeToScheduleEvents true projectId userId) e) ∧
  ((member_step membersMap (MemberError id e)).1 = membersMap ∧
   callbacks (member_step membersMap (MemberError id e)).2 = [] ∧
   ¬ reopens (member_step membersMap (MemberError id e)).2).
Proof.
  repeat split; try apply log_and_empty_once.
  intros (c & f & Hin). cbn in Hin.
  apply elem_of_cons in Hin as [Hin|Hin]; [done|]. by apply elem_of_nil in Hin.
Qed.

(** ** The member subscription *)

Lemma jsmap_set_keys k v (m : list (string * Doc)) k' :
  k' ∈ (jsmap_set k v m).*1 ↔ k' = k ∨ k' ∈ m.*1.
Proof.
  induction m as [|[k0 v0] m IH]; cbn [jsmap_set].
  - cbn. by rewrite elem_of_cons.
  - destruct (decide (k = k0)) as [->|Hne]; cbn [fmap list_fmap fst].
    + rewrite !elem_of_cons. tauto.
    + rewrite !elem_of_cons, IH. tauto.
Qed.

Lemma members_run_cons m ev rest :
  (members_run m (ev :: rest)).1 = (members_run (member_step m ev).1 rest).1.
Proof.
  cbn [members_run]. destruct (member_step m ev) as [m1 e1]. cbn [fst].
  by destruct (members_run m1 rest).
Qed.

Lemma members_run_keys (m : list (string * Doc)) events k :
  k ∈ (members_run m events).1.*1 ↔ k ∈ m.*1 ∨ observed k events.
Proof.
  revert m. induction events as [|ev rest IH]; intros m.
  - cbn. split; [by left|]. intros [H|[d H]]; [done|]. by apply elem_of_nil in H.
  - rewrite members_run_cons, IH. unfold observed.
    destruct ev as [id [data|]|id e]; cbn [member_step fst].
    + rewrite jsmap_set_keys. split.
      * intros [[->|H]|[d H]]; [right; exists data; left | by left |].
        right. exists d. by right.
      * intros [H|[d H]]; [left; by right|].
        apply elem_of_cons in H as [H|H]; [|right; by exists d].
        injection H as -> _. left. by left.
    + split.
      * intros [H|[d H]]; [by left|]. right. exists d. by right.
      * intros [H|[d H]]; [by left|].
        apply elem_of_cons in H as [H|H]; [done|]. right. by exists d.
    + split.
      * intros [H|[d H]]; [by left|]. right. exists d. by right.
      * intros [H|[d H]]; [by left|].
        apply elem_of_cons in H as [H|H]; [done|]. right. by exists d.
Qed.

Lemma members_run_callbacks (m : list (string * Doc)) events :
  callbacks (members_run m events).2 = (λ m' : list (string * Doc), m'.*2) <$> emissions m events.
Proof.
  revert m. induction events as [|ev rest IH]; intros m; [done|].
  cbn [members_run]. destruct (member_step m ev) as [m1 e1] eqn:Hstep.
  destruct (members_run m1 rest) as [m2 e2] eqn:Hrun. cbn [snd].
  unfold callbacks. rewrite omap_app. fold (callbacks e2).
  pose proof (IH m1) as IH1. rewrite Hrun in IH1. cbn [snd] in IH1. rewrite IH1.
  destruct ev as [id [data|]|id e]; cbn in Hstep; injection Hstep as <- <-; done.
Qed.

Lemma subscribeToProjectMembers_callbacks memberIds events :
  callbacks (subscribeToProjectMembers true memberIds events)
  = (λ m' : list (string * Doc), m'.*2) <$> emissions [] events.
Proof.
  unfold subscribeToProjectMembers, callbacks. rewrite omap_app.
  fold (callbacks (members_run [] events).2). rewrite members_run_callbacks.
  by induction memberIds.
Qed.

Lemma emissions_origin (m0 : list (string * Doc)) events i m :
  emissions m0 events !! i = Some m →
  ∃ pre ev post,
    events = pre ++ ev :: post ∧
    (∃ id data, ev = MemberDoc id (Some data)) ∧
    m = (members_run m0 (pre ++ [ev])).1.
Proof.
  revert m0 i. induction events as [|ev rest IH]; intros m0 i Hi; [done|].
  assert (Hrest : ∀ m1, m1 = (member_step m0 ev).1 →
            emissions m1 rest !! i = Some m →
            ∃ pre ev' post, ev :: rest = pre ++ ev' :: post ∧
              (∃ id data, ev' = MemberDoc id (Some data)) ∧
              m = (members_run m0 (pre ++ [ev'])).1).
  { intros m1 -> Hm. destruct (IH _ _ Hm) as (pre & ev' & post & -> & Hex & ->).
    exists (ev :: pre), ev', post. split; [done|]. split; [done|].
    by rewrite <- app_comm_cons, members_run_cons. }
  destruct ev as [id [data|]|id e]; cbn [emissions] in Hi.
  - destruct i as [|i].
    + injection Hi as <-. exists [], (MemberDoc id (Some data)), rest.
      split; [done|]. split; [eauto|]. done.
    + destruct (IH _ _ Hi) as (pre & ev' & post & -> & Hex & ->).
      exists (MemberDoc id (Some data) :: pre), ev', post.
      split; [done|]. split; [done|].
      by rewrite <- app_comm_cons, members_run_cons.
  - by apply (Hrest m0).
  - by apply (Hrest m0).
Qed.

Lemma emissions_grow (m0 : list (string * Doc)) events m :
  m ∈ emissions m0 events → m0.*1 ⊆ m.*1.
Proof.
  revert m0. induction events as [|ev rest IH]; intros m0 Hin.
  - by apply elem_of_nil in Hin.
  - destruct ev as [id [data|]|id e]; cbn [emissions] in Hin; [|by apply IH..].
    assert (Hstep : m0.*1 ⊆ (jsmap_set id data m0).*1).
    { intros k Hk. apply jsmap_set_keys. by right. }
    apply elem_of_cons in Hin as [->|Hin]; [done|].
    etrans; [exact Hstep | by apply IH].
Qed.

Lemma emissions_mono (m0 : list (string * Doc)) events (i j : nat) m m' :
  (i ≤ j)%nat →
  emissions m0 events !! i = Some m → emissions m0 events !! j = Some m' →
  m.*1 ⊆ m'.*1.
Proof.
  revert m0 i j. induction events as [|ev rest IH]; intros m0 i j Hij Hi Hj; [done|].
  destruct ev as [id [data|]|id e]; cbn [emissions] in Hi, Hj; [|by eapply IH..].
  destruct i as [|i], j as [|j]; try lia.
  - injection Hi as <-. by injection Hj as <-.
  - injection Hi as <-. eapply emissions_grow, list_elem_of_lookup_2, Hj.
  - eapply (IH _ i j); [lia|done..].
Qed.

(** C10. The member subscription accumulates: the callback receives the
    values of [membersMap] once per notification of an existing user
    document, the keys of the emitted map are exactly the ids seen to
    exist so far, an id once emitted is in every later emission (also
    after a notification that its document is gone), and an id whose
    document was never seen to exist is never emitted. *)
Theorem members_accumulate (memberIds : list string) (events : list MemberEvent) :
  callbacks (subscribeToProjectMembers true memberIds events)
    = (λ m : list (string * Doc), m.*2) <$> emissions [] events ∧
  (∀ i m, emissions [] events !! i = Some m →
     ∃ pre ev post,
       events = pre ++ ev :: post ∧
       (∃ id data, ev = MemberDoc id (Some data)) ∧
       m = (members_run [] (pre ++ [ev])).1 ∧
       ∀ k, k ∈ m.*1 ↔ observed k (pre ++ [ev])) ∧
  (∀ (i j : nat) m m', (i ≤ j)%nat →
     emissions [] events !! i = Some m → emissions [] events !! j = Some m' →
     m.*1 ⊆ m'.*1) ∧
  (∀ m k, m ∈ emissions [] events → k ∈ m.*1 → observed k events).
Proof.
  split; [apply subscribeToProjectMembers_callbacks|]. split; [|split].
  - intros i m Hm.
    destruct (emissions_origin _ _ _ _ Hm) as (pre & ev & post & -> & Hex & ->).
    exists pre, ev, post. split; [done|]. split; [done|]. split; [done|].
    intros k. rewrite members_run_keys. cbn. split; [|by right].
    intros [H|H]; [by apply elem_of_nil in H | done].
  - apply emissions_mono.
  - intros m k Hm Hk. apply list_elem_of_lookup in Hm as [i Hi].
    destruct (emissions_origin _ _ _ _ Hi) as (pre & ev & post & -> & Hex & ->).
    apply members_run_keys in Hk as [Hk|[d Hd]]; [by apply elem_of_nil in Hk|].
    exists d. rewrite (assoc_L (++) pre [ev] post) || rewrite cons_middle, app_assoc.
    apply elem_of_app. by left.
Qed.

(** ** The optimistic status change *)

Lemma set_status_id status (t : Doc) :
  (<["status" := status]> t) !! "task_id" = t !! "task_id".
Proof. by rewrite lookup_insert_ne. Qed.

Lemma set_status_elem taskId status (view : list Doc) u :
  u ∈ set_status taskId status view →
  u !! "task_id" = Some (VStr taskId) →
  u !! "status" = Some status.
Proof.
  unfold set_status. intros Hin Hid.
  apply list_elem_of_fmap in Hin as (t & -> & _).
  destruct (decide (t !! "task_id" = Some (VStr taskId))) as [_|Hne].
  - apply lookup_insert_eq.
  - done.
Qed.

Lemma set_status_twice taskId s1 s2 (view : list Doc) :
  set_status taskId s2 (set_status taskId s1 view) = set_status taskId s2 view.
Proof.
  unfold set_status. rewrite <- list_fmap_compose.
  apply list_fmap_ext. intros _ t _. cbn.
  destruct (decide (t !! "task_id" = Some (VStr taskId))) as [Hid|Hne].
  - rewrite set_status_id, decide_True by done.
    apply insert_insert_eq.
  - by rewrite decide_False.
Qed.

Lemma set_status_same taskId status (view : list Doc) :
  (∀ u, u ∈ view → u !! "task_id" = Some (VStr taskId) → u !! "status" = Some status) →
  set_status taskId status view = view.
Proof.
  intros H. unfold set_status. rewrite <- (list_fmap_id view) at 2.
  apply list_fmap_ext. intros i t Ht. cbn.
  destruct (decide (t !! "task_id" = Some (VStr taskId))) as [Hid|Hne]; [|done].
  apply insert_id, H; [|done]. by eapply list_elem_of_lookup_2.
Qed.

(** C9. With the handler closed over the current view in which the task
    carrying [taskId] has status "ToDo": the view holds "InProgress" for
    that task as soon as the handler has run its synchronous part,
    whatever the network does; when the remote write rejects the view is
    the one before the change (the task is back on "ToDo"), and otherwise
    the optimistic view is kept. *)
Theorem optimistic_status_update (tasks : list Doc) db net srv taskId (st : Store) :
  (∀ u, u ∈ tasks → u !! "task_id" = Some (VStr taskId) →
        u !! "status" = Some (VStr "ToDo")) →
  let remote := (updateTask db net srv taskId {["status" := VStr "InProgress"]} st).1 in
  let run := handleUpdateTaskStatus tasks db net srv taskId "InProgress" tasks st in
  (∀ t, t ∈ tasks → t !! "task_id" = Some (VStr taskId) →
        <["status" := VStr "InProgress"]> t ∈ run.1.1) ∧
  (∀ u, u ∈ run.1.1 → u !! "task_id" = Some (VStr taskId) →
        u !! "status" = Some (VStr "InProgress")) ∧
  (rejects remote → run.1.2 = tasks) ∧
  (¬ rejects remote → run.1.2 = run.1.1).
Proof.
  intros Htodo remote run. subst remote run. unfold handleUpdateTaskStatus.
  destruct (updateTask db net srv taskId {["status" := VStr "InProgress"]} st)
    as [p st'].
  cbn [fst snd]. split; [|split; [|split]].
  - intros t Ht Hid. unfold set_status. apply list_elem_of_fmap.
    exists t. by rewrite decide_True.
  - intros u. apply set_status_elem.
  - intros (t & e & ->).
    destruct (find _ tasks) as [originalTask|] eqn:Hfind.
    + apply find_some in Hfind as [Hin Hid].
      apply bool_decide_eq_true in Hid. apply list_elem_of_In in Hin.
      unfold field. rewrite (Htodo _ Hin Hid). cbn [default].
      rewrite set_status_twice. by apply set_status_same.
    + apply set_status_same. intros u Hu Hid. exfalso.
      apply list_elem_of_In in Hu.
      pose proof (find_none _ _ Hfind u Hu) as Hn. cbn in Hn.
      by apply bool_decide_eq_false in Hn.
  - intros Hnr. destruct p as [|t [v|e]]; [done..|].
    destruct Hnr. by exists t, e.
Qed.

(** ** Payloads *)

Lemma strip_undefined_defined (o : Doc) : ¬ has_undefined (strip_undefined o).
Proof.
  intros (k & v & Hk & ->). unfold strip_undefined in Hk.
  by apply map_lookup_filter_Some in Hk as [_ Hk].
Qed.

Lemma strip_undefined_lookup (o : Doc) k v :
  strip_undefined o !! k = Some v ↔ o !! k = Some v ∧ v ≠ VUndefined.
Proof. unfold strip_undefined. by rewrite map_lookup_filter_Some. Qed.

(** The writes that filter their payload send no [undefined] field. *)
Lemma filtered_payloads_defined newId (o : Doc) :
  ¬ has_undefined (createTask_payload newId o) ∧
  ¬ has_undefined (updateTask_payload o) ∧
  ¬ has_undefined (uploadResource_payload newId o) ∧
  ¬ has_undefined (addActivity_payload newId o) ∧
  ¬ has_undefined (createNotification_payload newId o).
Proof. repeat split; apply strip_undefined_defined. Qed.

(** The writes without the filter hand an unset field of their input on
    to the store. *)
Lemma unfiltered_payloads_keep_undefined newId (o : Doc) k :
  o !! k = Some VUndefined →
  (k ∉ ["task_id"; "last_updated"; "created_at"; "priority"; "time_spent";
        "dependencies"; "tags"] →
   addTask_payload newId o !! k = Some VUndefined) ∧
  (k ∉ ["message_id"; "timestamp"] →
   sendMessage_payload newId o !! k = Some VUndefined) ∧
  (k ∉ ["milestone_id"; "created_at"] →
   createMilestone_payload newId o !! k = Some VUndefined) ∧
  (k ∉ ["event_id"; "start_time"; "end_time"; "created_at"] →
   createScheduleEvent_payload newId o !! k = Some VUndefined).
Proof.
  intros Hk. repeat split; intros Hnot.
  - unfold addTask_payload.
    assert (Hdata : ∀ v, (<["tags" := VStrings []]>
              (<["dependencies" := VStrings []]>
                 (<["time_spent" := VNum 0]>
                    (<["priority" := v]>
                       (<["created_at" := VServerTimestamp]>
                          (<["last_updated" := VServerTimestamp]>
                             (<["task_id" := VStr newId]> o))))))) !! k
            = Some VUndefined).
    { intros v. rewrite !lookup_insert_ne; [done|intros <-; apply Hnot..].
      all: repeat first [left | right]. }
    destruct (decide (field o "due_date" ≠ VUndefined)) as [Hdue|_]; [|apply Hdata].
    rewrite lookup_insert_ne; [apply Hdata|].
    intros <-. apply Hdue. unfold field. by rewrite Hk.
  - unfold sendMessage_payload.
    rewrite !lookup_insert_ne; [done|intros <-; apply Hnot..].
    all: repeat first [left | right].
  - unfold createMilestone_payload.
    rewrite !lookup_insert_ne; [done|intros <-; apply Hnot..].
    all: repeat first [left | right].
  - unfold createScheduleEvent_payload.
    rewrite !lookup_insert_ne; [done|intros <-; apply Hnot..].
    all: repeat first [left | right].
Qed.

(** C6 (the code falls short). [addTask] is meant to build its task data
    "without undefined fields", but the spread keeps an unset [due_date]:
    the payload handed to [setDoc] carries [due_date: undefined], the
    store refuses it, and [addTask] answers [null] without writing. *)
Theorem addTask_sends_undefined :
  addTask_payload "t1" undated_task !! "due_date" = Some VUndefined ∧
  has_undefined (addTask_payload "t1" undated_task) ∧
  addTask true (Responds 40) 0 0 "t1" undated_task ∅
    = (Settles 0 (Fulfilled None), ∅).
Proof.
  assert (H : addTask_payload "t1" undated_task !! "due_date" = Some VUndefined)
    by (vm_compute; reflexivity).
  split; [exact H|]. split.
  - exists "due_date", VUndefined. by split.
  - vm_compute. reflexivity.
Qed.

(** ** Binary64 arithmetic on positive numbers *)

Module JsNumberFacts.
Import JsNumber.
Local Open Scope Z_scope.

Lemma digits2_pos_size p : digits2_pos p = Pos.size p.
Proof. induction p; simpl; congruence. Qed.

Lemma digits2_bounds p :
  2 ^ (Zpos (digits2_pos p) - 1) <= Zpos p < 2 ^ Zpos (digits2_pos p).
Proof.
  rewrite digits2_pos_size. split.
  - pose proof (Pos.size_le p) as H.
    apply Pos2Z.pos_le_pos in H. rewrite Pos2Z.inj_pow in H.
    replace (Zpos (Pos.size p)) with (Z.succ (Zpos (Pos.size p) - 1)) in H by lia.
    rewrite Z.pow_succ_r in H by lia. lia.
  - pose proof (Pos.size_gt p) as H.
    apply Pos2Z.pos_lt_pos in H. by rewrite Pos2Z.inj_pow in H.
Qed.


Lemma iter_pos_nat {A} (f : A → A) p x :
  SpecFloat.iter_pos f p x = Nat.iter (Pos.to_nat p) f x.
Proof.
  revert x. induction p as [p IH|p IH|]; intros x; cbn [SpecFloat.iter_pos].
  - rewrite !IH, Pos2Nat.inj_xI.
    replace (S (2 * Pos.to_nat p)) with (Pos.to_nat p + S (Pos.to_nat p))%nat by lia.
    rewrite Nat.iter_add. by rewrite Nat.iter_succ_r.
  - rewrite !IH, Pos2Nat.inj_xO.
    replace (2 * Pos.to_nat p)%nat with (Pos.to_nat p + Pos.to_nat p)%nat by lia.
    by rewrite Nat.iter_add.
  - done.
Qed.

Lemma shr_1_nonneg m r s :
  0 <= m →
  shr_1 {| shr_m := m; shr_r := r; shr_s := s |}
  = {| shr_m := m / 2; shr_r := Z.odd m; shr_s := r || s |}.
Proof.
  intros Hm. rewrite <- Z.div2_div.
  destruct m as [|[p|p|]|]; try done; lia.
Qed.

(** After [n >= 1] right shifts of a bare mantissa: quotient, round bit, sticky bit. *)
Lemma shr_iter (n : nat) m :
  0 <= m →
  Nat.iter (S n) shr_1 {| shr_m := m; shr_r := false; shr_s := false |}
  = {| shr_m := m / 2 ^ Z.of_nat (S n);
       shr_r := 2 ^ Z.of_nat n <=? m mod 2 ^ Z.of_nat (S n);
       shr_s := negb (m mod 2 ^ Z.of_nat n =? 0) |}.
Proof.
  intros Hm. induction n as [|n IH].
  - cbn [Nat.iter]. rewrite shr_1_nonneg by done. f_equal.
    + change (2 ^ Z.of_nat 1) with 2. change (2 ^ Z.of_nat 0) with 1.
      rewrite Zmod_odd. by destruct (Z.odd m).
    + change (2 ^ Z.of_nat 0) with 1. by rewrite Z.mod_1_r.
  - rewrite Nat.iter_succ, IH. clear IH.
    assert (Hp : 0 < 2 ^ Z.of_nat n) by (apply Z.pow_pos_nonneg; lia).
    assert (H1 : 2 ^ Z.of_nat (S n) = 2 * 2 ^ Z.of_nat n)
      by (rewrite Nat2Z.inj_succ, Z.pow_succ_r; lia).
    assert (H2 : 2 ^ Z.of_nat (S (S n)) = 2 * (2 * 2 ^ Z.of_nat n))
      by (rewrite !Nat2Z.inj_succ, !Z.pow_succ_r; lia).
    rewrite H1, H2. set (a := 2 ^ Z.of_nat n) in *.
    assert (Hq : 0 <= m / (2 * a)) by (apply Z.div_pos; lia).
    rewrite shr_1_nonneg by done.
    pose proof (Z.div_mod m (2 * a) ltac:(lia)) as E1.
    pose proof (Z.mod_pos_bound m (2 * a) ltac:(lia)) as B1.
    pose proof (Z.div_mod (m / (2 * a)) 2 ltac:(lia)) as E2.
    pose proof (Z.mod_pos_bound (m / (2 * a)) 2 ltac:(lia)) as B2.
    pose proof (Z.div_mod (m mod (2 * a)) a ltac:(lia)) as E3.
    pose proof (Z.mod_pos_bound (m mod (2 * a)) a ltac:(lia)) as B3.
    assert (Hbit : 0 <= m mod (2 * a) / a < 2).
    { split; [apply Z.div_pos; lia|]. apply Z.div_lt_upper_bound; lia. }
    set (q := m / (2 * a)) in *. set (r := m mod (2 * a)) in *.
    set (q2 := q / 2) in *. set (b := q mod 2) in *.
    set (hi := r / a) in *. set (lo := r mod a) in *.
    assert (Hdiv : m / (2 * (2 * a)) = q2).
    { symmetry. apply (Z.div_unique m (2 * (2 * a)) q2 (r + 2 * a * b)); nia. }
    assert (Hmod : m mod (2 * (2 * a)) = r + 2 * a * b).
    { symmetry. apply (Z.mod_unique m (2 * (2 * a)) q2 (r + 2 * a * b)); nia. }
    assert (Hlo : m mod a = lo).
    { symmetry. apply (Z.mod_unique m a (2 * q + hi) lo); nia. }
    rewrite Hdiv, Hmod, Hlo. f_equal.
    + pose proof (Zmod_odd q) as Hodd. fold b in Hodd.
      destruct (Z.odd q); symmetry.
      * apply Z.leb_le. nia.
      * apply Z.leb_gt. nia.
    + destruct (Z.leb_spec a r) as [Har|Har]; cbn [orb].
      * symmetry. apply negb_true_iff, Z.eqb_neq. lia.
      * assert (Hhi : hi = 0) by nia. assert (Hr : lo = r) by nia. by rewrite Hr.
Qed.


Lemma shr_fexp_exact M E :
  0 < M →
  let n := fexp 53 1024 (Zdigits2 M + E) - E in
  shr_fexp 53 1024 M E loc_Exact
  = if 0 <? n
    then ({| shr_m := M / 2 ^ n;
             shr_r := 2 ^ (n - 1) <=? M mod 2 ^ n;
             shr_s := negb (M mod 2 ^ (n - 1) =? 0) |}, E + n)
    else ({| shr_m := M; shr_r := false; shr_s := false |}, E).
Proof.
  intros HM n. unfold shr_fexp, shr. fold n. cbn [shr_record_of_loc].
  destruct n as [|p|p] eqn:Hn; [done| |done].
  rewrite iter_pos_nat.
  destruct (Pos2Nat.is_succ p) as [k Hk]. rewrite Hk.
  rewrite shr_iter by lia.
  assert (Hp : Z.of_nat (S k) = Z.pos p) by (rewrite <- Hk; apply positive_nat_Z).
  rewrite Hp. replace (Z.of_nat k) with (Z.pos p - 1) by lia. done.
Qed.

Lemma round_loc M n :
  0 < M → 0 < n →
  round_nearest_even (M / 2 ^ n)
    (loc_of_shr_record
       {| shr_m := M / 2 ^ n;
          shr_r := 2 ^ (n - 1) <=? M mod 2 ^ n;
          shr_s := negb (M mod 2 ^ (n - 1) =? 0) |})
  = rne (M / 2 ^ n) (M mod 2 ^ n) (2 ^ (n - 1)).
Proof.
  intros HM Hn. unfold rne.
  assert (Hh : 0 < 2 ^ (n - 1)) by (apply Z.pow_pos_nonneg; lia).
  assert (H2 : 2 ^ n = 2 * 2 ^ (n - 1)).
  { replace n with (Z.succ (n - 1)) at 1 by lia. rewrite Z.pow_succ_r; lia. }
  rewrite H2. set (h := 2 ^ (n - 1)) in *.
  pose proof (Z.div_mod M (2 * h) ltac:(lia)) as E1.
  pose proof (Z.mod_pos_bound M (2 * h) ltac:(lia)) as B1.
  pose proof (Z.div_mod (M mod (2 * h)) h ltac:(lia)) as E3.
  pose proof (Z.mod_pos_bound (M mod (2 * h)) h ltac:(lia)) as B3.
  assert (Hbit : 0 <= M mod (2 * h) / h < 2).
  { split; [apply Z.div_pos; lia|]. apply Z.div_lt_upper_bound; lia. }
  set (q := M / (2 * h)) in *. set (r := M mod (2 * h)) in *.
  set (hi := r / h) in *. set (lo := r mod h) in *.
  assert (Hlo : M mod h = lo).
  { symmetry. apply (Z.mod_unique M h (2 * q + hi) lo); nia. }
  rewrite Hlo.
  assert (Hcases : hi = 0 ∨ hi = 1) by lia.
  assert (Hr : r = h * hi + lo) by exact E3.
  clearbody q r hi lo.
  destruct (Z.leb_spec h r) as [Hhr|Hhr], (Z.eqb_spec lo 0) as [Hl0|Hl0];
    cbn [negb loc_of_shr_record round_nearest_even];
    destruct (Z.ltb_spec r h), (Z.ltb_spec h r); try done;
    destruct Hcases as [-> | ->]; lia.
Qed.

Lemma fexp_ge e : -1074 <= fexp 53 1024 e.
Proof. unfold fexp, emin. lia. Qed.

Lemma fexp_eq e : fexp 53 1024 e = Z.max (e - 53) (-1074).
Proof. done. Qed.

Lemma Zdigits2_pos M : 0 < M → 2 ^ (Zdigits2 M - 1) <= M < 2 ^ Zdigits2 M.
Proof. destruct M as [|p|p]; try lia. intros _. apply digits2_bounds. Qed.


Lemma quotient_digits M n :
  0 < M → 0 <= n → Zdigits2 M - n <= 53 → M / 2 ^ n < 2 ^ 53.
Proof.
  intros HM Hn Hd. pose proof (Zdigits2_pos M HM) as [_ Hhi].
  apply Z.div_lt_upper_bound; [apply Z.pow_pos_nonneg; lia|].
  rewrite <- Z.pow_add_r by lia.
  eapply Z.lt_le_trans; [exact Hhi|]. apply Z.pow_le_mono_r; lia.
Qed.

(** Rounding a positive exact product or sum to binary64. *)
Lemma round_aux_exact M E :
  0 < M →
  let n := fexp 53 1024 (Zdigits2 M + E) - E in
  n <= 0 → E <= 971 →
  binary_round_aux 53 1024 false M E loc_Exact = S754_finite false (Z.to_pos M) E.
Proof.
  intros HM n Hn HE. unfold binary_round_aux.
  rewrite (shr_fexp_exact M E HM). fold n.
  destruct (Z.ltb_spec 0 n); [lia|].
  cbn [shr_m loc_of_shr_record round_nearest_even].
  rewrite (shr_fexp_exact M E HM). fold n.
  destruct (Z.ltb_spec 0 n); [lia|]. cbn [shr_m].
  destruct M as [|p|p]; try lia.
  change (971) with (1024 - 53) in HE.
  destruct (Z.leb_spec E (1024 - 53)); [done|lia].
Qed.

Lemma round_aux_inexact M E :
  0 < M →
  let n := fexp 53 1024 (Zdigits2 M + E) - E in
  let q' := rne (M / 2 ^ n) (M mod 2 ^ n) (2 ^ (n - 1)) in
  0 < n → E + n < 971 → 0 < q' →
  is_dyadic (binary_round_aux 53 1024 false M E loc_Exact) q' (E + n).
Proof.
  intros HM n q' Hn HE Hq'. unfold binary_round_aux.
  rewrite (shr_fexp_exact M E HM). fold n.
  destruct (Z.ltb_spec 0 n); [|lia]. cbn [shr_m].
  rewrite round_loc by done. fold q'.
  assert (Hq53 : q' <= 2 ^ 53).
  { assert (M / 2 ^ n < 2 ^ 53).
    { apply quotient_digits; [done|lia|]. subst n. rewrite fexp_eq in *. lia. }
    subst q'. unfold rne in *.
    repeat match goal with |- context [if ?b then _ else _] => destruct b end; lia. }
  assert (He' : -1074 <= E + n).
  { subst n. pose proof (fexp_ge (Zdigits2 M + E)). lia. }
  rewrite (shr_fexp_exact q' (E + n) Hq').
  set (n2 := fexp 53 1024 (Zdigits2 q' + (E + n)) - (E + n)).
  destruct (Z.eq_dec q' (2 ^ 53)) as [Heq|Hne].
  - assert (n2 = 1).
    { subst n2. rewrite Heq. change (Zdigits2 (2 ^ 53)) with 54.
      rewrite fexp_eq. lia. }
    rewrite H0. cbn [Z.ltb Z.compare shr_m]. rewrite Heq.
    change (2 ^ 53 / 2 ^ 1) with (Z.pos (2 ^ 52)).
    change (971) with (1024 - 53) in HE.
    destruct (Z.leb_spec (E + n + 1) (1024 - 53)); [|lia].
    exists (2 ^ 52)%positive, (E + n + 1). split; [done|]. split; [lia|].
    replace (E + n + 1 - (E + n)) with 1 by lia. done.
  - assert (n2 <= 0).
    { subst n2. rewrite fexp_eq.
      assert (Zdigits2 q' <= 53); [|lia].
      pose proof (Zdigits2_pos q' Hq') as [Hlo _].
      destruct (Z.le_gt_cases (Zdigits2 q') 53) as [|Hgt]; [done|exfalso].
      assert (2 ^ 53 <= 2 ^ (Zdigits2 q' - 1)) by (apply Z.pow_le_mono_r; lia).
      lia. }
    destruct (Z.ltb_spec 0 n2); [lia|]. cbn [shr_m].
    destruct q' as [|p|p] eqn:Hp; try lia.
    change (971) with (1024 - 53) in HE.
    destruct (Z.leb_spec (E + n) (1024 - 53)); [|lia].
    exists p, (E + n). split; [done|]. split; [lia|].
    rewrite Z.sub_diag. lia.
Qed.










Lemma pow2_pred k : 0 < k → 2 ^ k = 2 * 2 ^ (k - 1).
Proof.
  intros Hk. rewrite <- Z.pow_succ_r by lia. f_equal. lia.
Qed.

Lemma rne_bounds q rem half :
  0 < half → 0 <= rem < 2 * half →
  q <= rne q rem half <= q + 1 ∧
  rne q rem half * (2 * half) <= q * (2 * half) + rem + half.
Proof.
  intros Hh Hr. unfold rne.
  destruct (Z.ltb_spec rem half); [nia|].
  destruct (Z.ltb_spec half rem); [nia|].
  destruct (Z.even q); nia.
Qed.

Lemma of_Z_36 : of_Z 36 = S754_finite false 5066549580791808 (-47).
Proof. vm_compute. reflexivity. Qed.

(** [Math.floor(Math.random() * 36)] is one of 0, ..., 35. *)
Lemma random_index r :
  in_unit_interval r = true →
  ∃ i, floor_index (mul r (of_Z 36)) = Some i ∧ 0 <= i < 36.
Proof.
  intros Hr. rewrite of_Z_36.
  destruct r as [[|]| | |[|] m e]; try done.
  { exists 0. split; [done|lia]. }
  cbn [in_unit_interval] in Hr. apply andb_true_iff in Hr as [Hb Hlt].
  apply Z.leb_le in Hlt. unfold bounded in Hb.
  apply andb_true_iff in Hb as [Hc _]. unfold canonical_mantissa in Hc.
  apply Z.eqb_eq in Hc. rewrite fexp_eq in Hc.
  pose proof (digits2_bounds m) as [Hmlo Hmhi].
  set (dm := Z.pos (digits2_pos m)) in *.
  assert (Hdm : 1 <= dm <= 53) by (subst dm; lia).
  assert (He : -1074 <= e <= -1) by lia.
  unfold mul, SFmul. cbn [xorb]. rewrite Pos2Z.inj_mul.
  set (M := Z.pos m * 5066549580791808).
  set (E := e + -47).
  assert (HB : 5066549580791808 = 9 * 2 ^ 49) by done.
  assert (HA : 2 ^ dm <= 2 ^ (- e)) by (apply Z.pow_le_mono_r; lia).
  assert (HApos : 0 < 2 ^ (- e)) by (apply Z.pow_pos_nonneg; lia).
  assert (HmA : Z.pos m + 1 <= 2 ^ (- e)) by lia.
  assert (HT : M + 9 * 2 ^ 49 <= 9 * 2 ^ 49 * 2 ^ (- e)) by (subst M; rewrite HB; nia).
  assert (HE : 2 ^ (- E) = 2 ^ 47 * 2 ^ (- e)).
  { subst E. rewrite <- Z.pow_add_r by lia. f_equal. lia. }
  assert (HMpos : 0 < M) by (subst M; lia).
  assert (HM52 : 2 ^ 52 <= M) by (subst M; change (2 ^ 52) with 4503599627370496; lia).
  pose proof (Zdigits2_pos M HMpos) as [HDlo HDhi].
  set (D := Zdigits2 M) in *.
  assert (HD : 53 <= D <= 106).
  { split.
    - destruct (Z.le_gt_cases 53 D) as [|Hl]; [done|exfalso].
      assert (2 ^ D <= 2 ^ 52) by (apply Z.pow_le_mono_r; lia). lia.
    - destruct (Z.le_gt_cases D 106) as [|Hg]; [done|exfalso].
      assert (2 ^ 106 <= 2 ^ (D - 1)) by (apply Z.pow_le_mono_r; lia).
      assert (2 ^ dm <= 2 ^ 53) by (apply Z.pow_le_mono_r; lia).
      assert (M < 2 ^ 53 * 2 ^ 53) by (subst M; change (2 ^ 53) with 9007199254740992 in *; nia).
      change (2 ^ 53 * 2 ^ 53) with (2 ^ 106) in *. lia. }
  set (n := fexp 53 1024 (D + E) - E).
  assert (Hn53 : n <= 53) by (subst n E; rewrite fexp_eq; lia).
  destruct (Z.le_gt_cases n 0) as [Hn0|Hn0].
  - rewrite round_aux_exact; [|done|done|subst E; lia].
    cbn [floor_index cond_Zopp]. rewrite Z2Pos.id by done.
    destruct (Z.leb_spec 0 E) as [|_]; [subst E; lia|].
    exists (M / 2 ^ (- E)). split; [done|].
    assert (0 < 2 ^ (- E)) by (apply Z.pow_pos_nonneg; subst E; lia).
    split; [apply Z.div_pos; lia|].
    apply Z.div_lt_upper_bound; [done|]. rewrite HE.
    change (2 ^ 47) with 140737488355328 in *.
    change (2 ^ 49) with 562949953421312 in *. lia.
  - assert (HH : 0 < 2 ^ (n - 1)) by (apply Z.pow_pos_nonneg; lia).
    assert (HP : 2 ^ n = 2 * 2 ^ (n - 1)) by (apply pow2_pred; lia).
    assert (HH52 : 2 ^ (n - 1) <= 2 ^ 52) by (apply Z.pow_le_mono_r; lia).
    assert (HnD : n <= D - 1) by (subst n E; rewrite fexp_eq; lia).
    assert (HPM : 2 ^ n <= M).
    { eapply Z.le_trans; [|exact HDlo]. apply Z.pow_le_mono_r; lia. }
    pose proof (Z.div_mod M (2 ^ n) ltac:(lia)) as Hdm'.
    pose proof (Z.mod_pos_bound M (2 ^ n) ltac:(lia)) as Hmb.
    assert (Hq1 : 1 <= M / 2 ^ n).
    { apply Z.div_le_lower_bound; lia. }
    destruct (rne_bounds (M / 2 ^ n) (M mod 2 ^ n) (2 ^ (n - 1)) HH ltac:(lia))
      as [[Hq'lo Hq'hi] Hq'P].
    rewrite <- HP in Hq'P.
    set (q' := rne (M / 2 ^ n) (M mod 2 ^ n) (2 ^ (n - 1))) in *.
    assert (Hq'M : q' * 2 ^ n <= M + 2 ^ (n - 1)) by lia.
    pose proof (round_aux_inexact M E HMpos) as Hround.
    cbv zeta in Hround. fold D n q' in Hround.
    destruct Hround as (m'' & e'' & -> & Hu & Hv); [done|subst n E; rewrite fexp_eq; lia|lia|].
    set (u := E + n) in *.
    assert (Hu47 : u <= -47) by (subst u n E; rewrite fexp_eq; lia).
    assert (HU : 2 ^ (- u) * 2 ^ n = 2 ^ 47 * 2 ^ (- e)).
    { rewrite <- HE, <- Z.pow_add_r by lia. f_equal. subst u. lia. }
    assert (HUpos : 0 < 2 ^ (- u)) by (apply Z.pow_pos_nonneg; lia).
    assert (Hq'U : q' < 36 * 2 ^ (- u)).
    { assert (q' * 2 ^ n < 36 * 2 ^ (- u) * 2 ^ n); [|nia].
      rewrite <- Z.mul_assoc, HU.
      change (2 ^ 47) with 140737488355328 in *.
      change (2 ^ 49) with 562949953421312 in *.
      change (2 ^ 52) with 4503599627370496 in *. lia. }
    cbn [floor_index cond_Zopp].
    assert (HR : 0 < 2 ^ (e'' - u)) by (apply Z.pow_pos_nonneg; lia).
    destruct (Z.leb_spec 0 e'') as [He''|He''].
    + exists (Z.pos m'' * 2 ^ e''). split; [done|].
      assert (0 < 2 ^ e'') by (apply Z.pow_pos_nonneg; lia).
      split; [lia|].
      assert (Hs : 2 ^ (e'' - u) = 2 ^ e'' * 2 ^ (- u)).
      { rewrite <- Z.pow_add_r by lia. f_equal; lia. }
      rewrite Hs in Hv. nia.
    + exists (Z.pos m'' / 2 ^ (- e'')). split; [done|].
      assert (0 < 2 ^ (- e'')) by (apply Z.pow_pos_nonneg; lia).
      split; [apply Z.div_pos; lia|].
      apply Z.div_lt_upper_bound; [done|].
      assert (Hs : 2 ^ (- u) = 2 ^ (- e'') * 2 ^ (e'' - u)).
      { rewrite <- Z.pow_add_r by lia. f_equal; lia. }
      rewrite Hs in Hq'U. nia.
Qed.

End JsNumberFacts.

(** ** Creating a project: join code, members, default milestones *)

Lemma not_undefined_empty : ¬ has_undefined ∅.
Proof. intros (k & v & Hk & _). by rewrite lookup_empty in Hk. Qed.

Lemma not_undefined_insert k v (o : Doc) :
  v ≠ VUndefined → ¬ has_undefined o → ¬ has_undefined (<[k := v]> o).
Proof.
  intros Hv Ho (k' & v' & Hk & ->).
  apply lookup_insert_Some in Hk as [[_ Hk]|[_ Hk]]; [done|].
  apply Ho. by exists k', VUndefined.
Qed.

Lemma new_Date_defined x : new_Date x ≠ VUndefined.
Proof. unfold new_Date. by destruct (JsNumber.TimeClip x). Qed.

Ltac solve_defined :=
  repeat (apply not_undefined_insert; [first [done | apply new_Date_defined]|]);
  try apply not_undefined_empty.

Lemma apply_ops_frame srv c (batch : list WriteOp) (st st' : Store) :
  Forall (λ op, op_coll op ≠ c) batch →
  apply_ops srv st batch = Some st' → coll st' c = coll st c.
Proof.
  intros Hall. revert st. induction Hall as [|op batch Hop _ IH]; intros st Hrun.
  - cbn in Hrun. by injection Hrun as <-.
  - cbn [apply_ops] in Hrun.
    destruct (apply_op srv st op) as [st1|] eqn:Hop1; [|done].
    rewrite (IH _ Hrun). apply map_eq. intros id.
    destruct op as [c0 id0 d|c0 id0 d|c0 id0]; cbn [op_coll] in Hop; cbn in Hop1.
    + injection Hop1 as <-. apply coll_put_ne. congruence.
    + destruct (coll st c0 !! id0); [|done]. injection Hop1 as <-.
      apply coll_put_ne. congruence.
    + injection Hop1 as <-. apply coll_remove_ne. congruence.
Qed.

Lemma commit_frame net srv c (batch : list WriteOp) (st : Store) :
  Forall (λ op, op_coll op ≠ c) batch →
  coll (commit net srv batch st).2 c = coll st c.
Proof.
  intros Hall. unfold commit.
  destruct (forallb op_payload_ok batch); [|done].
  destruct net; [|done..].
  destruct (apply_ops srv st batch) as [st'|] eqn:Hrun; [|done].
  by apply (apply_ops_frame srv c batch).
Qed.

Lemma literals_nearest :
  JsNumber.lit_0_2 = JsNumber.div (JsNumber.of_Z 2) (JsNumber.of_Z 10) ∧
  JsNumber.lit_0_7 = JsNumber.div (JsNumber.of_Z 7) (JsNumber.of_Z 10).
Proof. split; vm_compute; reflexivity. Qed.









Lemma coll_put_same (st : Store) c id d :
  coll (put st c id d) c = <[id := d]> (coll st c).
Proof. unfold coll, put. by rewrite lookup_insert_eq. Qed.

Lemma coll_put_other (st : Store) c id d c' :
  c ≠ c' → coll (put st c id d) c' = coll st c'.
Proof. intros Hne. unfold coll, put. by rewrite lookup_insert_ne. Qed.


Lemma charAt_chars (i : Z) :
  (0 <= i < 36)%Z →
  ∃ c, charAt chars (Some i) = String c "" ∧ c ∈ String.list_ascii_of_string chars.
Proof.
  intros [H0 H36]. unfold charAt.
  destruct (Z.ltb_spec i 0) as [|_]; [lia|].
  assert (Hk : Z.to_nat i < 36) by lia.
  generalize dependent (Z.to_nat i). intros k Hk.
  do 36 (destruct k as [|k];
         [eexists; split; [reflexivity | cbn; repeat constructor]|]).
  lia.
Qed.

Lemma random_char (r : spec_float) :
  JsNumber.in_unit_interval r = true →
  ∃ c, charAt chars
         (JsNumber.floor_index
            (JsNumber.mul r (JsNumber.of_Z (Z.of_nat (String.length chars)))))
       = String c "" ∧ c ∈ String.list_ascii_of_string chars.
Proof.
  intros Hr. change (Z.of_nat (String.length chars)) with 36%Z.
  destruct (JsNumberFacts.random_index r Hr) as (i & -> & Hi).
  by apply charAt_chars.
Qed.

Lemma generateJoinCode_shape (random : nat → spec_float) :
  (∀ i, JsNumber.in_unit_interval (random i) = true) →
  String.length (generateJoinCode random) = 6 ∧
  Forall (λ c, c ∈ String.list_ascii_of_string chars)
    (String.list_ascii_of_string (generateJoinCode random)).
Proof.
  intros Hr. unfold generateJoinCode. cbn [seq foldl].
  destruct (random_char _ (Hr 0)) as (c0 & -> & H0).
  destruct (random_char _ (Hr 1)) as (c1 & -> & H1).
  destruct (random_char _ (Hr 2)) as (c2 & -> & H2).
  destruct (random_char _ (Hr 3)) as (c3 & -> & H3).
  destruct (random_char _ (Hr 4)) as (c4 & -> & H4).
  destruct (random_char _ (Hr 5)) as (c5 & -> & H5).
  cbn [String.append String.length String.list_ascii_of_string].
  split; [done|]. repeat (apply Forall_cons_2; [assumption|]). apply Forall_nil_2.
Qed.

Lemma project_doc_defined projectId name duration userId code :
  ¬ has_undefined (project_doc projectId name duration userId code).
Proof. unfold project_doc, list_to_map. cbn [foldr fst snd]. solve_defined. Qed.

Lemma stored_project_doc srv projectId name duration userId code :
  let d := set_fields srv (project_doc projectId name duration userId code) in
  d !! "members" = Some (VStrings [userId]) ∧
  d !! "created_by" = Some (VStr userId) ∧
  d !! "join_code" = Some (VStr code).
Proof.
  unfold set_fields, project_doc, list_to_map. cbn [foldr fst snd].
  repeat split; rewrite lookup_fmap;
    by rewrite !lookup_insert_ne, ?lookup_insert_eq by done.
Qed.

Lemma createDefaultMilestones_frame db net srv now newId projectId duration
    (st : Store) c :
  c ≠ "milestones" →
  coll (createDefaultMilestones db net srv now newId projectId duration st).2 c
  = coll st c.
Proof.
  intros Hc. unfold createDefaultMilestones, bind, getDb, ret, throw.
  destruct db; [|done]. cbn [fst snd].
  match goal with |- context [commit net srv ?b st] =>
    pose proof (commit_frame net srv c b st) as Hf;
    destruct (commit net srv b st) as [p st'] end.
  cbn [snd] in *. apply Hf.
  unfold default_milestones. cbn [imap]. by repeat constructor.
Qed.

Lemma commit_single_set t srv c id (d : Doc) (st : Store) :
  ¬ has_undefined d →
  commit (Responds t) srv [OpSet c id d] st
  = (Settles t (Fulfilled tt), put st c id (set_fields srv d)).
Proof.
  intros Hd. unfold commit. cbn [forallb op_payload_ok].
  by rewrite bool_decide_eq_true_2.
Qed.

(** C8. A created project: once the primary write has gone through, the
    stored project document lists the creator as its member, and its join
    code has exactly 6 characters, each one of the 36 characters of
    [chars] (A-Z, 0-9), whatever [Math.random()] returns within [0, 1)
    and whatever happens to the two background writes. *)
Theorem createProject_members_and_code t rnet mnet (srv now : Z)
    (random : nat → spec_float) (projectId : string) (newId : nat → string)
    (name duration userId : string) (st : Store) :
  (∀ i, JsNumber.in_unit_interval (random i) = true) →
  let run := createProject true (Responds t) rnet mnet srv now random projectId
               newId name duration userId st in
  ∃ d code,
    run.1 = Settles t (Fulfilled projectId) ∧
    coll run.2 "projects" !! projectId = Some d ∧
    d !! "members" = Some (VStrings [userId]) ∧ userId ∈ [userId] ∧
    d !! "created_by" = Some (VStr userId) ∧
    d !! "join_code" = Some (VStr code) ∧
    String.length code = 6 ∧
    Forall (λ c, c ∈ String.list_ascii_of_string chars) (String.list_ascii_of_string code) ∧
    String.length chars = 36 ∧
    chars = "ABCDEFGHIJKLMNOPQRSTUVWXYZ0123456789".
Proof.
  intros Hr run. subst run.
  destruct (generateJoinCode_shape random Hr) as [Hlen Hchars].
  destruct (stored_project_doc srv projectId name duration userId
              (generateJoinCode random)) as (Hm & Hc & Hj).
  exists (set_fields srv
            (project_doc projectId name duration userId (generateJoinCode random))),
         (generateJoinCode random).
  assert (Hrun :
    createProject true (Responds t) rnet mnet srv now random projectId newId
      name duration userId st
    = (Settles t (Fulfilled projectId),
       (createDefaultMilestones true mnet srv now newId projectId duration
          (commit rnet srv
             [OpSet "project_roles" (role_key projectId userId)
                (role_doc projectId userId "admin")]
             (put st "projects" projectId
                (set_fields srv
                   (project_doc projectId name duration userId
                      (generateJoinCode random))))).2).2)).
  { unfold createProject, bind, getDb, ret, setDoc, background.
    rewrite commit_single_set by apply project_doc_defined.
    cbn [delay fst snd]. by rewrite !N.add_0_r. }
  rewrite Hrun. cbn [fst snd].
  split; [done|]. split.
  { rewrite createDefaultMilestones_frame by done.
    rewrite commit_frame by (by repeat constructor).
    apply coll_put_eq. }
  split; [exact Hm|]. split; [left|]. split; [exact Hc|]. split; [exact Hj|].
  split; [exact Hlen|]. split; [exact Hchars|]. split; reflexivity.
Qed.

(** ** The theorems at sample inputs *)

Lemma joinProjectByCode_atomic_witness :
  (120 <= 5000)%N ∧
  (joinProjectByCode true (Responds 120) (Responds 80) 0 "ABC123" "bob" demo_store).1
  = Settles 200 (Fulfilled (Some "p1")) ∧
  coll (joinProjectByCode true (Responds 120) (Responds 80) 0 "ABC123" "bob"
          demo_store).2 "project_roles" !! "p1_bob"
  = Some (<["project_id" := VStr "p1"]>
            (<["user_id" := VStr "bob"]> {["role" := VStr "member"]})).
Proof.
  assert (H : (120 <= 5000)%N) by lia. split; [exact H|].
  pose proof (joinProjectByCode_atomic 120 (Responds 80) 0 "ABC123" "bob"
                demo_store H) as Hj.
  cbv zeta in Hj.
  assert (Hq : query demo_store "projects" (where_eq "join_code" (VStr "ABC123"))
               = [("p1", demo_project)]) by reflexivity.
  rewrite Hq in Hj. destruct Hj as (_ & _ & _ & Hrun & _ & Hrole & _).
  split; [exact Hrun | exact Hrole].
Defined.

Lemma bounded_fetch_fallback_witness :
  no_answer_by 3000 Hangs ∧ no_answer_by 5000 Hangs ∧
  resolves_within (getProject true Hangs 0 "p1" demo_store).1 3000 None ∧
  resolves_within (getUserProjects true Hangs 0 "alice" demo_store).1 3000 [] ∧
  resolves_within
    (joinProjectByCode true Hangs Hangs 0 "ABC123" "alice" demo_store).1 5000 None.
Proof.
  destruct (bounded_fetch_fallback true Hangs Hangs 0 0 "p1" "alice" "ABC123"
              demo_store) as (_ & _ & _ & H3 & H5).
  split; [exact I|]. split; [exact I|].
  destruct (H3 I) as [Hp Hu]. destruct (H5 I) as [Hj _].
  split; [exact Hp|]. split; [exact Hu | exact Hj].
Defined.

Lemma subscription_snapshot_order_witness :
  ∃ order : list (nat * Doc),
    order ≡ₚ [(0%nat, demo_task "t1" "ToDo");
              (1%nat, <["last_updated" := VTimestamp 2000]> (demo_task "t2" "Done"))] ∧
    onNext (subscribeToTasks true "p1") (λ _ _, 5000%Z)
      [("t1", demo_task "t1" "ToDo");
       ("t2", <["last_updated" := VTimestamp 2000]> (demo_task "t2" "Done"))]
    = [Callback
         (map (λ a : nat * Doc,
                 <["last_updated" :=
                     VDate (stored_time "last_updated" 5000 a.2)]> a.2)
              order)].
Proof.
  destruct (subscription_snapshot_order (λ _ _, 5000%Z)
              [("t1", demo_task "t1" "ToDo");
               ("t2", <["last_updated" := VTimestamp 2000]> (demo_task "t2" "Done"))]
              "p1" "alice") as ((order & Hperm & _ & Hcb) & _).
  exists order. split; [exact Hperm | exact Hcb].
Defined.

Lemma deleteProject_order_witness :
  settles (Responds 5) ∧ settles (Fails 7 (StoreError "unavailable")) ∧
  (deleteProject true (Responds 5) (Fails 7 (StoreError "unavailable"))
     (Responds 9) 0 "p1" demo_store).1 = Settles 21 (Fulfilled tt) ∧
  coll (deleteProject true (Responds 5) (Fails 7 (StoreError "unavailable"))
          (Responds 9) 0 "p1" demo_store).2 "projects" !! "p1" = None.
Proof.
  split; [exact I|]. split; [exact I|].
  destruct (deleteProject_order (Responds 5) (Fails 7 (StoreError "unavailable"))
              (Responds 9) 0 "p1" demo_store) as [Hrun _].
  destruct (Hrun I I) as (ts & ms & _ & _ & _ & Hres & Hst).
  split; [exact Hres|].
  rewrite Hst. apply decide_True. right; right. done.
Defined.


Lemma createProject_members_and_code_witness :
  (∀ i : nat, JsNumber.in_unit_interval ((λ _, one_half) i) = true) ∧
  ∃ d, coll (createProject true (Responds 25) Hangs Hangs 0 1790000000000
               (λ _, one_half) "p2" demo_ids "Demo" "24h" "alice" demo_store).2
         "projects" !! "p2" = Some d ∧
       d !! "members" = Some (VStrings ["alice"]).
Proof.
  assert (Hr : ∀ i : nat, JsNumber.in_unit_interval ((λ _, one_half) i) = true)
    by (intros i; reflexivity).
  split; [exact Hr|].
  destruct (createProject_members_and_code 25 Hangs Hangs 0 1790000000000
              (λ _, one_half) "p2" demo_ids "Demo" "24h" "alice" demo_store Hr)
    as (d & code & _ & Hd & Hm & _).
  exists d. split; [exact Hd | exact Hm].
Defined.

Lemma optimistic_status_update_witness :
  (∀ u, u ∈ [demo_task "t1" "ToDo"] → u !! "task_id" = Some (VStr "t1") →
        u !! "status" = Some (VStr "ToDo")) ∧
  rejects (updateTask true (Fails 60 (StoreError "unavailable")) 0 "t1"
             {["status" := VStr "InProgress"]} demo_store).1 ∧
  (handleUpdateTaskStatus [demo_task "t1" "ToDo"] true
     (Fails 60 (StoreError "unavailable")) 0 "t1" "InProgress"
     [demo_task "t1" "ToDo"] demo_store).1.2
  = [demo_task "t1" "ToDo"].
Proof.
  assert (H : ∀ u, u ∈ [demo_task "t1" "ToDo"] → u !! "task_id" = Some (VStr "t1") →
                   u !! "status" = Some (VStr "ToDo")).
  { intros u Hu _. apply list_elem_of_singleton in Hu as ->. reflexivity. }
  assert (Hrej : rejects (updateTask true (Fails 60 (StoreError "unavailable")) 0 "t1"
                            {["status" := VStr "InProgress"]} demo_store).1).
  { exists 60%N, (StoreError "unavailable"). reflexivity. }
  split; [exact H|]. split; [exact Hrej|].
  destruct (optimistic_status_update [demo_task "t1" "ToDo"] true
              (Fails 60 (StoreError "unavailable")) 0 "t1" demo_store H)
    as (_ & _ & Hrevert & _).
  exact (Hrevert Hrej).
Defined.

Lemma members_accumulate_witness :
  callbacks
    (subscribeToProjectMembers true ["u1"; "u2"]
       [MemberDoc "u1" (Some {["name" := VStr "Ada"]});
        MemberDoc "u2" None;
        MemberDoc "u1" None])
  = [[{["name" := VStr "Ada"]}]].
Proof.
  destruct (members_accumulate ["u1"; "u2"]
              [MemberDoc "u1" (Some {["name" := VStr "Ada"]});
               MemberDoc "u2" None;
               MemberDoc "u1" None]) as (Hcb & _).
  rewrite Hcb. reflexivity.
Defined.

(** Outside the lookup, [joinProjectByCode] passes errors on: without a
    database handle it rejects. *)
Lemma joinProjectByCode_rethrows joinCode userId (st : Store) :
  joinProjectByCode false Hangs Hangs 0 joinCode userId st
  = (Settles 0 (Rejected DatabaseNotAvailable), st).
Proof. reflexivity. Qed.

(** A stream opened without an error handler tells its subscriber
    nothing about an error. *)
Lemma stream_error_without_handler projectId userId e :
  on_error (subscribeToResources true projectId) e = [] ∧
  on_error (subscribeToActivities true projectId) e = [] ∧
  on_error (subscribeToNotifications true projectId userId) e = [].
Proof. done. Qed.

(** The claim of C5 fails. The documents of the sub-collections are
    deleted by the same commit as the project document: when that commit
    fails (a task that may not be deleted is enough) the call rejects and
    the task and the project document are still stored, so the failure
    does block the deletion of the project document. And a
    sub-collection query that never settles keeps the call pending, with
    the project document still stored. *)
Lemma deleteProject_failure_keeps_project :
  (deleteProject true (Responds 5) (Responds 7)
     (Fails 9 (StoreError "permission-denied")) 0 "p1" demo_store).1
  = Settles 21 (Rejected (StoreError "permission-denied")) ∧
  coll (deleteProject true (Responds 5) (Responds 7)
          (Fails 9 (StoreError "permission-denied")) 0 "p1" demo_store).2
    "projects" !! "p1" = Some demo_project ∧
  coll (deleteProject true (Responds 5) (Responds 7)
          (Fails 9 (StoreError "permission-denied")) 0 "p1" demo_store).2
    "tasks" !! "t1" = Some (demo_task "t1" "ToDo") ∧
  (deleteProject true Hangs (Responds 7) (Responds 9) 0 "p1" demo_store).1 = Pending ∧
  coll (deleteProject true Hangs (Responds 7) (Responds 9) 0 "p1" demo_store).2
    "projects" !! "p1" = Some demo_project.
Proof. repeat split. Qed.


(** The same a little later on the first day: 73737728 ms after the
    epoch the second deadline is again one millisecond short. *)
Lemma default_milestones_early :
  map (λ m : Doc, m !! "deadline") (default_milestones 73737728 "24h")
  = [ Some (VDate (73737728 + 17280000)); Some (VDate (73737728 + 60480000 - 1));
      Some (VDate (73737728 + 86400000)) ].
Proof. vm_compute. reflexivity. Qed.

(** * Further properties of the store layer *)

Lemma withTimeout_timely {A} t (v : A) ms fallback :
  (t <= ms)%N →
  withTimeout (Settles t (Fulfilled v)) ms fallback = Settles t (Fulfilled v).
Proof.
  intros Ht. unfold withTimeout, race, timer.
  by destruct (N.leb_spec t ms); [|lia].
Qed.

Lemma lookup_update_fields srv (data old : Doc) k :
  update_fields srv data old !! k
  = match data !! k with
    | Some v => Some (stored srv (old !! k) v)
    | None => old !! k
    end.
Proof.
  unfold update_fields. rewrite lookup_merge.
  by destruct (data !! k), (old !! k).
Qed.

Lemma lookup_set_fields srv (data : Doc) k :
  set_fields srv data !! k = stored srv None <$> data !! k.
Proof. unfold set_fields. apply lookup_fmap. Qed.

Lemma where_array_contains_members userId (id : string) (d : Doc) :
  where_array_contains "members" userId (id, d) ↔ userId ∈ members_of d.
Proof.
  unfold where_array_contains, members_of. cbn [snd].
  destruct (d !! "members") as [[]|]; try done; split; try done;
    intros H; by apply elem_of_nil in H.
Qed.



(** ** Creating a project, reading it back, and roles *)

Lemma createProject_run t rnet mnet (srv now : Z) (random : nat → spec_float)
    (projectId : string) (newId : nat → string) (name duration userId : string)
    (st : Store) :
  createProject true (Responds t) rnet mnet srv now random projectId newId
    name duration userId st
  = (Settles t (Fulfilled projectId),
     (createDefaultMilestones true mnet srv now newId projectId duration
        (commit rnet srv
           [OpSet "project_roles" (role_key projectId userId)
              (role_doc projectId userId "admin")]
           (put st "projects" projectId
              (set_fields srv
                 (project_doc projectId name duration userId
                    (generateJoinCode random))))).2).2).
Proof.
  unfold createProject, bind, getDb, ret, setDoc, background.
  rewrite commit_single_set by apply project_doc_defined.
  cbn [delay fst snd]. by rewrite !N.add_0_r.
Qed.

Lemma createProject_projects t rnet mnet (srv now : Z) (random : nat → spec_float)
    (projectId : string) (newId : nat → string) (name duration userId : string)
    (st : Store) :
  coll (createProject true (Responds t) rnet mnet srv now random projectId newId
          name duration userId st).2 "projects"
  = <[projectId := set_fields srv
                     (project_doc projectId name duration userId
                        (generateJoinCode random))]> (coll st "projects").
Proof.
  rewrite createProject_run. cbn [snd].
  rewrite createDefaultMilestones_frame by done.
  rewrite commit_frame by (by repeat constructor).
  apply coll_put_same.
Qed.

Lemma createProject_roles t rnet mnet (srv now : Z) (random : nat → spec_float)
    (projectId : string) (newId : nat → string) (name duration userId : string)
    (st : Store) :
  coll (createProject true (Responds t) rnet mnet srv now random projectId newId
          name duration userId st).2 "project_roles"
  = match rnet with
    | Responds _ =>
        <[role_key projectId userId := role_doc projectId userId "admin"]>
          (coll st "project_roles")
    | _ => coll st "project_roles"
    end.
Proof.
  rewrite createProject_run. cbn [snd].
  rewrite createDefaultMilestones_frame by done.
  destruct rnet as [rt|rt e|].
  - rewrite commit_single_set by apply role_doc_defined. cbn [snd].
    rewrite coll_put_same, set_fields_role_doc. by rewrite coll_put_other.
  - unfold commit. cbn [forallb op_payload_ok].
    rewrite bool_decide_eq_true_2 by apply role_doc_defined.
    cbn [andb snd]. by rewrite coll_put_other.
  - unfold commit. cbn [forallb op_payload_ok].
    rewrite bool_decide_eq_true_2 by apply role_doc_defined.
    cbn [andb snd]. by rewrite coll_put_other.
Qed.

Lemma getProject_run t now projectId (st : Store) :
  (t <= 3000)%N →
  getProject true (Responds t) now projectId st
  = (Settles t (Fulfilled (with_date "created_at" now <$> coll st "projects" !! projectId)),
     st).
Proof.
  intros Ht. unfold getProject, try_catch, bind, read, getDb, ret, getDoc.
  cbn [respond pmap]. rewrite withTimeout_timely by done.
  destruct (coll st "projects" !! projectId) as [data|];
    cbn [delay fst snd fmap option_fmap option_map]; by rewrite N.add_0_r.
Qed.

Lemma stored_project_fields srv now projectId name duration userId code :
  let p := with_date "created_at" now
             (set_fields srv (project_doc projectId name duration userId code)) in
  p !! "project_id" = Some (VStr projectId) ∧
  p !! "name" = Some (VStr name) ∧
  p !! "duration" = Some (VStr duration) ∧
  p !! "created_by" = Some (VStr userId) ∧
  p !! "members" = Some (VStrings [userId]) ∧
  p !! "join_code" = Some (VStr code) ∧
  p !! "status" = Some (VStr "planning") ∧
  p !! "demo_mode" = Some (VBool false) ∧
  p !! "created_at" = Some (VDate srv).
Proof.
  unfold with_date, set_fields, project_doc, list_to_map. cbn [foldr fst snd].
  repeat split; reflexivity.
Qed.

(** X2. Round trip: a project that was created is read back by [getProject]
    with the fields it was created with, the creator as its only member,
    status "planning", and the server's creation time as a date, whatever
    became of the background writes. *)
Theorem createProject_then_getProject t rnet mnet (srv now now' : Z) t'
    (random : nat → spec_float) (projectId : string) (newId : nat → string)
    (name duration userId : string) (st : Store) :
  (t' <= 3000)%N →
  let st' := (createProject true (Responds t) rnet mnet srv now random projectId
                newId name duration userId st).2 in
  ∃ p, getProject true (Responds t') now' projectId st'
         = (Settles t' (Fulfilled (Some p)), st') ∧
       p !! "project_id" = Some (VStr projectId) ∧
       p !! "name" = Some (VStr name) ∧
       p !! "duration" = Some (VStr duration) ∧
       p !! "created_by" = Some (VStr userId) ∧
       p !! "members" = Some (VStrings [userId]) ∧
       p !! "join_code" = Some (VStr (generateJoinCode random)) ∧
       p !! "status" = Some (VStr "planning") ∧
       p !! "demo_mode" = Some (VBool false) ∧
       p !! "created_at" = Some (VDate srv).
Proof.
  intros Ht' st'. subst st'. eexists. split.
  - rewrite getProject_run by done.
    rewrite createProject_projects, lookup_insert_eq. reflexivity.
  - apply stored_project_fields.
Qed.

Lemma createProject_then_getProject_witness :
  (35 <= 3000)%N ∧
  ∃ p, (getProject true (Responds 35) 9 "p2"
          (createProject true (Responds 25) Hangs Hangs 5 1790000000000
             (λ _, one_half) "p2" demo_ids "Demo" "24h" "alice" demo_store).2).1
         = Settles 35 (Fulfilled (Some p)) ∧
       p !! "created_at" = Some (VDate 5).
Proof.
  assert (H : (35 <= 3000)%N) by lia. split; [exact H|].
  destruct (createProject_then_getProject 25 Hangs Hangs 5 1790000000000 9 35
              (λ _, one_half) "p2" demo_ids "Demo" "24h" "alice" demo_store H)
    as (p & Hrun & _ & _ & _ & _ & _ & _ & _ & _ & Hcreated).
  exists p. split; [by rewrite Hrun | exact Hcreated].
Defined.

(** X3. When the primary write of [createProject] does not go through,
    nothing is written at all: the role record and the default milestones
    are never started, and the caller sees the rejection (or waits). *)
Theorem createProject_primary_write_fails net rnet mnet (srv now : Z)
    (random : nat → spec_float) (projectId : string) (newId : nat → string)
    (name duration userId : string) (st : Store) :
  ¬ answers net →
  createProject true net rnet mnet srv now random projectId newId
    name duration userId st
  = (match net with
     | Fails t e => Settles t (Rejected e)
     | _ => Pending
     end, st).
Proof.
  intros Hn. unfold createProject, bind, getDb, ret, setDoc, commit.
  cbn [forallb op_payload_ok].
  rewrite bool_decide_eq_true_2 by apply project_doc_defined.
  destruct net; [by destruct Hn | done | done].
Qed.

Lemma createProject_primary_write_fails_witness :
  ¬ answers (Fails 12 (StoreError "quota")) ∧
  createProject true (Fails 12 (StoreError "quota")) (Responds 3) (Responds 4)
    0 1790000000000 (λ _, one_half) "p2" demo_ids "Demo" "24h" "alice" demo_store
  = (Settles 12 (Rejected (StoreError "quota")), demo_store).
Proof.
  assert (H : ¬ answers (Fails 12 (StoreError "quota"))) by (intros []).
  split; [exact H|].
  exact (createProject_primary_write_fails (Fails 12 (StoreError "quota"))
           (Responds 3) (Responds 4) 0 1790000000000 (λ _, one_half) "p2"
           demo_ids "Demo" "24h" "alice" demo_store H).
Defined.

Lemma getUserRole_run db net projectId userId (st : Store) :
  getUserRole db net projectId userId st
  = (if db then
       match net with
       | Responds t =>
           Settles t (Fulfilled
             (match coll st "project_roles" !! role_key projectId userId with
              | Some data => field data "role"
              | None => VStr "viewer"
              end))
       | Fails t _ => Settles t (Fulfilled (VStr "viewer"))
       | Hangs => Pending
       end
     else Settles 0 (Fulfilled (VStr "viewer")), st).
Proof.
  unfold getUserRole, try_catch, bind, read, getDb, ret, throw, getDoc.
  destruct db; [|done].
  destruct net as [t|t e|]; cbn [respond delay fst snd]; [|by rewrite !N.add_0_r|done].
  destruct (coll st "project_roles" !! role_key projectId userId);
    cbn [delay fst snd]; by rewrite !N.add_0_r.
Qed.

(** [getUserRole] never rejects and never writes; without a database
    handle, on a failed read, and when no role record exists the role is
    "viewer". It has no time bound: on a store that hangs it stays
    pending. *)
Lemma getUserRole_falls_back db net projectId userId (st : Store) :
  ¬ rejects (getUserRole db net projectId userId st).1 ∧
  (getUserRole db net projectId userId st).2 = st ∧
  (db = false ∨ (∃ t e, net = Fails t e) ∨
   (answers net ∧ coll st "project_roles" !! role_key projectId userId = None) →
   ∃ t, (getUserRole db net projectId userId st).1
        = Settles t (Fulfilled (VStr "viewer"))) ∧
  (db = true → net = Hangs →
   (getUserRole db net projectId userId st).1 = Pending).
Proof.
  rewrite getUserRole_run. cbn [fst snd].
  split; [|split; [done|split]].
  - intros (t & e & H). destruct db; [destruct net|]; done.
  - intros [->|[(t & e & ->)|[Ha Hnone]]].
    + by eexists.
    + destruct db; by eexists.
    + destruct db; [|by eexists]. destruct net; try done.
      rewrite Hnone. by eexists.
  - by intros -> ->.
Qed.

(** X4. The creator's role is written in the background: when that write
    goes through the creator is "admin"; when it does not, and no role
    record was there before, the creator of the project is a "viewer". *)
Theorem creator_role_after_createProject t rnet mnet (srv now : Z) t'
    (random : nat → spec_float) (projectId : string) (newId : nat → string)
    (name duration userId : string) (st : Store) :
  let st' := (createProject true (Responds t) rnet mnet srv now random projectId
                newId name duration userId st).2 in
  (answers rnet →
   getUserRole true (Responds t') projectId userId st'
   = (Settles t' (Fulfilled (VStr "admin")), st')) ∧
  (¬ answers rnet →
   coll st "project_roles" !! role_key projectId userId = None →
   getUserRole true (Responds t') projectId userId st'
   = (Settles t' (Fulfilled (VStr "viewer")), st')).
Proof.
  intros st'. subst st'. split.
  - intros Ha. rewrite getUserRole_run, createProject_roles.
    destruct rnet; try done. by rewrite lookup_insert_eq.
  - intros Ha Hnone. rewrite getUserRole_run, createProject_roles.
    destruct rnet; [by destruct Ha|by rewrite Hnone..].
Qed.

Lemma creator_role_after_createProject_witness :
  ¬ answers (Fails 8 (StoreError "offline")) ∧
  coll demo_store "project_roles" !! role_key "p2" "alice" = None ∧
  (getUserRole true (Responds 6) "p2" "alice"
     (createProject true (Responds 25) (Fails 8 (StoreError "offline")) Hangs
        0 1790000000000 (λ _, one_half) "p2" demo_ids "Demo" "24h" "alice"
        demo_store).2).1
  = Settles 6 (Fulfilled (VStr "viewer")).
Proof.
  assert (H1 : ¬ answers (Fails 8 (StoreError "offline"))) by (intros []).
  assert (H2 : coll demo_store "project_roles" !! role_key "p2" "alice" = None)
    by reflexivity.
  split; [exact H1|]. split; [exact H2|].
  destruct (creator_role_after_createProject 25 (Fails 8 (StoreError "offline"))
              Hangs 0 1790000000000 6 (λ _, one_half) "p2" demo_ids "Demo" "24h"
              "alice" demo_store) as [_ Hv].
  by rewrite (Hv H1 H2).
Defined.

Lemma read_only_ret {A} (v : A) : read_only (ret v).
Proof. done. Qed.

Lemma read_only_throw {A} e : read_only (throw e : Async A).
Proof. done. Qed.

Lemma read_only_read {A} (f : Store → promise A) : read_only (read f).
Proof. done. Qed.

Lemma read_only_getDb db : read_only (getDb db).
Proof. by destruct db. Qed.

Lemma read_only_bind {A B} (m : Async A) (f : A → Async B) :
  read_only m → (∀ v, read_only (f v)) → read_only (bind m f).
Proof.
  intros Hm Hf st. unfold bind. specialize (Hm st).
  destruct (m st) as [[|t [v|e]] st1]; cbn [snd] in *; subst; try done.
  specialize (Hf v st). by destruct (f v st).
Qed.

Lemma read_only_try_catch {A} (m : Async A) (h : Error → Async A) :
  read_only m → (∀ e, read_only (h e)) → read_only (try_catch m h).
Proof.
  intros Hm Hh st. unfold try_catch. specialize (Hm st).
  destruct (m st) as [[|t [v|e]] st1]; cbn [snd] in *; subst; try done.
  specialize (Hh e st). by destruct (h e st).
Qed.

Lemma read_only_current_members data : read_only (current_members data).
Proof.
  unfold current_members. destruct (field data "members"); try done;
    by destruct (falsy _).
Qed.

Lemma bind_unfulfilled {A B} (m : Async A) (f : A → Async B) st :
  (∀ v st', ¬ fulfils (f v st').1) → ¬ fulfils (bind m f st).1.
Proof.
  intros Hf. unfold bind.
  destruct (m st) as [[|t [v|e]] st1]; cbn [fst]; try by intros (t' & v' & H).
  specialize (Hf v st1). destruct (f v st1) as [q st2]. cbn [fst] in *.
  intros (t' & v' & H). apply Hf.
  destruct q as [|t2 [v2|e2]]; try done. by eexists _, _.
Qed.

Lemma commit_unanswered net srv batch (st : Store) :
  ¬ answers net →
  (commit net srv batch st).2 = st ∧ ¬ fulfils (commit net srv batch st).1.
Proof.
  intros Hno. unfold commit.
  destruct (forallb _ _); [|split; [done|by intros (t' & v & H)]].
  destruct net; [by destruct Hno|split; [done|by intros (t' & v & H)]..].
Qed.


(** ** Joining and leaving a project *)

Lemma joinProjectByCode_run qt ct srv joinCode userId (st : Store) pid d rest :
  (qt <= 5000)%N →
  query st "projects" (where_eq "join_code" (VStr joinCode)) = (pid, d) :: rest →
  joinProjectByCode true (Responds qt) (Responds ct) srv joinCode userId st
  = (Settles (qt + ct) (Fulfilled (Some pid)),
     put (put st "projects" pid
            (<["members" := VStrings (array_union (members_of d) [userId])]> d))
       "project_roles" (role_key pid userId) (role_doc pid userId "member")).
Proof.
  intros Hqt Hq.
  unfold joinProjectByCode, try_catch, bind, read, getDb, ret, throw, getDocs.
  cbn [respond]. rewrite withTimeout_timely by done. rewrite Hq.
  apply (query_head st) in Hq as [Hd _].
  unfold commit. rewrite join_batch_payload_ok.
  unfold join_batch. cbn [apply_ops apply_op fst snd]. rewrite Hd.
  cbn [delay fst snd]. rewrite !N.add_0_r.
  by rewrite update_fields_singleton, stored_members_union, set_fields_role_doc.
Qed.

(** X5. What a join by code leaves behind. The member list is unchanged when
    the user is already a member (joining twice adds nobody twice), and
    otherwise the old list with the user appended; the rest of the
    project document is kept. The role record is written anew: the
    user's role is "member" afterwards, also for a user who held another
    role in the project (the creator who joins by code is no longer
    "admin"). *)
Theorem join_member_list_and_role qt ct srv joinCode userId (st : Store) pid d rest l t :
  (qt <= 5000)%N →
  query st "projects" (where_eq "join_code" (VStr joinCode)) = (pid, d) :: rest →
  d !! "members" = Some (VStrings l) →
  let st' := (joinProjectByCode true (Responds qt) (Responds ct) srv joinCode
                userId st).2 in
  coll st' "projects" !! pid
    = Some (<["members" := VStrings (if decide (userId ∈ l) then l else l ++ [userId])]> d) ∧
  (userId ∈ l → coll st' "projects" = coll st "projects") ∧
  getUserRole true (Responds t) pid userId st'
  = (Settles t (Fulfilled (VStr "member")), st').
Proof.
  intros Hqt Hq Hl st'. subst st'.
  rewrite (joinProjectByCode_run qt ct srv joinCode userId st pid d rest) by done.
  cbn [snd]. rewrite getUserRole_run, coll_put_eq.
  rewrite coll_put_other by done. rewrite coll_put_same.
  assert (Hm : members_of d = l) by (unfold members_of; by rewrite Hl).
  rewrite Hm, array_union_member. split; [apply lookup_insert_eq|]. split; [|done].
  intros Hin. rewrite decide_True by done.
  apply (query_head st) in Hq as [Hd _].
  rewrite (insert_id d) by done. by apply insert_id.
Qed.

Lemma join_member_list_and_role_witness :
  (120 <= 5000)%N ∧
  (getUserRole true (Responds 4) "p1" "alice"
     (put demo_store "project_roles" (role_key "p1" "alice")
        (role_doc "p1" "alice" "admin"))).1
  = Settles 4 (Fulfilled (VStr "admin")) ∧
  (getUserRole true (Responds 4) "p1" "alice"
     (joinProjectByCode true (Responds 120) (Responds 80) 0 "ABC123" "alice"
        (put demo_store "project_roles" (role_key "p1" "alice")
           (role_doc "p1" "alice" "admin"))).2).1
  = Settles 4 (Fulfilled (VStr "member")).
Proof.
  assert (H : (120 <= 5000)%N) by lia. split; [exact H|]. split; [reflexivity|].
  destruct (join_member_list_and_role 120 80 0 "ABC123" "alice"
              (put demo_store "project_roles" (role_key "p1" "alice")
                 (role_doc "p1" "alice" "admin"))
              "p1" demo_project [] ["alice"] 4 H eq_refl eq_refl) as (_ & _ & Hrole).
  by rewrite Hrole.
Defined.

Lemma members_update_defined (l : list string) :
  ¬ has_undefined ({["members" := VStrings l]} : Doc).
Proof. intros (k & v & Hk & ->). by apply lookup_singleton_Some in Hk as [_ Hk]. Qed.

Lemma removeMemberFromProject_run rt ct srv projectId userId (st : Store) d l :
  coll st "projects" !! projectId = Some d →
  d !! "members" = Some (VStrings l) →
  removeMemberFromProject true (Responds rt) (Responds ct) srv projectId userId st
  = (Settles (rt + ct) (Fulfilled tt),
     remove (put st "projects" projectId
               (<["members" := VStrings (filter (λ m, m ≠ userId) l)]> d))
       "project_roles" (role_key projectId userId)).
Proof.
  intros Hd Hl.
  unfold removeMemberFromProject, current_members, field.
  unfold bind, read, getDb, ret, getDoc.
  cbn [respond]. rewrite Hd, Hl. cbn [default id delay fst snd app].
  unfold commit. cbn [forallb op_payload_ok].
  rewrite bool_decide_eq_true_2 by apply members_update_defined.
  cbn [andb apply_ops apply_op]. rewrite Hd.
  rewrite update_fields_singleton. cbn [stored delay fst snd].
  reflexivity.
Qed.

(** X6. Removing a member, when the read and the commit go through: the id
    is filtered out of the member list (the others stay, in their order),
    the user's role record is deleted in the same commit, and nothing else
    changes. Any id can be removed, the creator's too. *)
Theorem removeMember_filters_and_unroles rt ct srv projectId userId (st : Store) d l :
  coll st "projects" !! projectId = Some d →
  d !! "members" = Some (VStrings l) →
  let run := removeMemberFromProject true (Responds rt) (Responds ct) srv
               projectId userId st in
  run.1 = Settles (rt + ct) (Fulfilled tt) ∧
  coll run.2 "projects" !! projectId
    = Some (<["members" := VStrings (filter (λ m, m ≠ userId) l)]> d) ∧
  (userId ∉ filter (λ m, m ≠ userId) l) ∧
  (∀ m, m ∈ l → m ≠ userId → m ∈ (filter (λ m, m ≠ userId) l)) ∧
(filter (λ m, m ≠ userId) l) `sublist_of` l ∧
  coll run.2 "project_roles" !! role_key projectId userId = None ∧
  (∀ c id, (c, id) ≠ ("projects", projectId) →
           (c, id) ≠ ("project_roles", role_key projectId userId) →
           coll run.2 c !! id = coll st c !! id).
Proof.
  intros Hd Hl run. subst run.
  rewrite (removeMemberFromProject_run rt ct srv projectId userId st d l) by done.
  cbn [fst snd]. split; [done|]. split; [|split; [|split; [|split; [|split]]]].
  - rewrite coll_remove_ne by done. apply coll_put_eq.
  - intros Hin. by apply list_elem_of_filter in Hin as [Hne _].
  - intros m Hm Hne. by apply list_elem_of_filter.
  - apply sublist_filter.
  - apply coll_remove_eq.
  - intros c id H1 H2. rewrite coll_remove_ne by done. by rewrite coll_put_ne.
Qed.

Lemma removeMember_filters_and_unroles_witness :
  coll demo_store "projects" !! "p1" = Some demo_project ∧
  demo_project !! "members" = Some (VStrings ["alice"]) ∧
  members_of
    (default ∅
       (coll (removeMemberFromProject true (Responds 3) (Responds 9) 0 "p1" "alice"
                demo_store).2 "projects" !! "p1"))
  = [].
Proof.
  assert (H1 : coll demo_store "projects" !! "p1" = Some demo_project) by reflexivity.
  assert (H2 : demo_project !! "members" = Some (VStrings ["alice"])) by reflexivity.
  split; [exact H1|]. split; [exact H2|].
  destruct (removeMember_filters_and_unroles 3 9 0 "p1" "alice" demo_store
              demo_project ["alice"] H1 H2) as (_ & Hdoc & _).
  rewrite Hdoc. reflexivity.
Defined.

(** X7. Edge cases of [removeMemberFromProject]: for a project that does not
    exist the role record is still deleted and the call succeeds; when
    the read or the commit gets no answer the call does not succeed and
    the store is as it was. *)
Theorem removeMember_edge_cases rnet cnet srv projectId userId (st : Store) :
  let run := removeMemberFromProject true rnet cnet srv projectId userId st in
  (∀ rt ct, rnet = Responds rt → cnet = Responds ct →
     coll st "projects" !! projectId = None →
     run = (Settles (rt + ct) (Fulfilled tt),
            remove st "project_roles" (role_key projectId userId))) ∧
  (¬ answers rnet ∨ ¬ answers cnet → run.2 = st ∧ ¬ fulfils run.1).
Proof.
  intros run. subst run. split.
  - intros rt ct -> -> Hnone.
    unfold removeMemberFromProject, bind, read, getDb, ret, getDoc.
    cbn [respond]. rewrite Hnone. cbn [delay fst snd app]. unfold commit.
    cbn [forallb op_payload_ok apply_ops apply_op delay]. reflexivity.
  - intros Hno. unfold removeMemberFromProject, getDb.
    destruct rnet as [rt|rt e|].
    2:{ split; [done|]. by intros (t & v & H). }
    2:{ split; [done|]. by intros (t & v & H). }
    destruct Hno as [Hno|Hno]; [by destruct Hno|].
    split.
    + apply read_only_bind; [apply read_only_ret|]. intros _.
      apply read_only_bind; [apply read_only_read|]. intros projectDoc.
      apply read_only_bind.
      * destruct projectDoc as [data|]; [|apply read_only_ret].
        apply read_only_bind; [apply read_only_current_members|].
        intros l. apply read_only_ret.
      * intros batch st'. by apply commit_unanswered.
    + apply bind_unfulfilled. intros _ st1.
      apply bind_unfulfilled. intros projectDoc st2.
      apply bind_unfulfilled. intros batch st3.
      by apply commit_unanswered.
Qed.

Lemma filter_ne_id (l : list string) x : x ∉ l → filter (λ m, m ≠ x) l = l.
Proof.
  induction l as [|y l IH]; [done|]. intros Hnin.
  apply not_elem_of_cons in Hnin as [Hne Hnin].
  rewrite filter_cons, decide_True by done. by rewrite IH.
Qed.

(** X8. Round trip: a user who was not a member joins by code and is removed
    again: every collection of the store is as before (given that the
    user had no role record in the project). *)
Theorem join_then_remove_restores qt ct rt ct' srv srv' joinCode userId (st : Store)
    pid d rest l :
  (qt <= 5000)%N →
  query st "projects" (where_eq "join_code" (VStr joinCode)) = (pid, d) :: rest →
  d !! "members" = Some (VStrings l) → userId ∉ l →
  coll st "project_roles" !! role_key pid userId = None →
  let st1 := (joinProjectByCode true (Responds qt) (Responds ct) srv joinCode
                userId st).2 in
  let st2 := (removeMemberFromProject true (Responds rt) (Responds ct') srv'
                pid userId st1).2 in
  ∀ c, coll st2 c = coll st c.
Proof.
  intros Hqt Hq Hl Hnin Hrole st1 st2 c. subst st2 st1.
  rewrite (joinProjectByCode_run qt ct srv joinCode userId st pid d rest) by done.
  cbn [snd].
  assert (Hm : members_of d = l) by (unfold members_of; by rewrite Hl).
  rewrite Hm, array_union_member, decide_False by done.
  rewrite (removeMemberFromProject_run rt ct' srv' pid userId _
             (<["members" := VStrings (l ++ [userId])]> d) (l ++ [userId])).
  2:{ rewrite coll_put_ne by done. apply coll_put_eq. }
  2:{ apply lookup_insert_eq. }
  cbn [snd]. rewrite insert_insert_eq.
  assert (Hf : filter (λ m, m ≠ userId) (l ++ [userId]) = l).
  { rewrite filter_app, filter_ne_id by done. cbn [filter list_filter].
    rewrite decide_False by (intros H; by apply H). apply app_nil_r. }
  rewrite Hf, (insert_id d "members" (VStrings l)) by done.
  apply (query_head st) in Hq as [Hd _].
  apply map_eq. intros id.
  destruct (decide (("project_roles", role_key pid userId) = (c, id))) as [Heq|Hne1].
  { injection Heq as <- <-. by rewrite coll_remove_eq, Hrole. }
  rewrite coll_remove_ne by done.
  destruct (decide (("projects", pid) = (c, id))) as [Heq|Hne2].
  { injection Heq as <- <-. by rewrite coll_put_eq, Hd. }
  by rewrite !coll_put_ne.
Qed.

Lemma join_then_remove_restores_witness :
  (120 <= 5000)%N ∧ ("bob" ∉ ["alice"]) ∧
  coll (removeMemberFromProject true (Responds 3) (Responds 9) 7 "p1" "bob"
          (joinProjectByCode true (Responds 120) (Responds 80) 0 "ABC123" "bob"
             demo_store).2).2 "projects"
  = coll demo_store "projects".
Proof.
  assert (H : (120 <= 5000)%N) by lia.
  assert (Hnin : "bob" ∉ ["alice"]) by (by apply not_elem_of_cons; split; [|apply not_elem_of_nil]).
  split; [exact H|]. split; [exact Hnin|].
  exact (join_then_remove_restores 120 80 3 9 0 7 "ABC123" "bob" demo_store "p1"
           demo_project [] ["alice"] H eq_refl eq_refl Hnin eq_refl "projects").
Defined.

(** ** Members of a project, one-shot *)

Lemma omap_cons_match {A B} (f : A → option B) x l :
  omap f (x :: l) = match f x with Some y => y :: omap f l | None => omap f l end.
Proof. done. Qed.

Lemma read_member_run net id members (st : Store) :
  read_member net id members st
  = (match net with
     | Hangs => Pending
     | _ => Settles (net_time net)
              (Fulfilled (members ++ option_list (profile_read st net id)))
     end, st).
Proof.
  unfold read_member, try_catch, bind, read, ret, getDoc, profile_read.
  destruct net as [t|t e|]; cbn [respond net_time]; [| |done].
  - destruct (coll st "users" !! id); cbn [delay fst snd option_list];
      by rewrite ?N.add_0_r, ?app_nil_r.
  - cbn [delay fst snd option_list]. by rewrite ?N.add_0_r, ?app_nil_r.
Qed.

Lemma getProjectMembers_loop_run nets (i : nat) memberIds members (st : Store) :
  (∀ j : nat, (j < length memberIds)%nat → settles (nets (i + j)%nat)) →
  getProjectMembers_loop nets i memberIds members st
  = (Settles (reads_time nets i (length memberIds))
       (Fulfilled (members ++
          omap id (imap (λ j id, profile_read st (nets (i + j)%nat) id) memberIds))),
     st).
Proof.
  revert i members. induction memberIds as [|id0 rest IH]; intros i members Hs.
  - cbn. by rewrite app_nil_r.
  - cbn [getProjectMembers_loop]. unfold bind. rewrite read_member_run.
    pose proof (Hs 0%nat ltac:(cbn; lia)) as H0. rewrite Nat.add_0_r in H0.
    assert (Hrest : ∀ j : nat, (j < length rest)%nat → settles (nets (S i + j)%nat)).
    { intros j Hj. replace (S i + j)%nat with (i + S j)%nat by lia.
      apply Hs. cbn. lia. }
    cbn [length seq map foldr imap omap]. rewrite Nat.add_0_r.
    rewrite (imap_ext _ (λ j id, profile_read st (nets (S i + j)%nat) id) rest).
    2:{ intros j x _. cbn. by replace (i + S j)%nat with (S i + j)%nat by lia. }
    unfold reads_time. cbn [seq map foldr].
    destruct (nets i) as [t|t e|]; [| |done]; cbn [net_time profile_read];
      rewrite (IH _ _ Hrest); cbn [delay]; unfold reads_time.
    + destruct (coll st "users" !! id0); cbn [option_list id];
        by rewrite <- ?app_assoc, ?app_nil_r.
    + cbn [option_list]. by rewrite ?app_nil_r.
Qed.

Lemma read_only_read_member net id members : read_only (read_member net id members).
Proof. intros st. by rewrite read_member_run. Qed.

Lemma read_only_getProjectMembers db nets memberIds :
  read_only (getProjectMembers db nets memberIds).
Proof.
  apply read_only_try_catch; [|intros; apply read_only_ret].
  apply read_only_bind; [apply read_only_getDb|]. intros _.
  generalize (@nil Doc) 0%nat. induction memberIds as [|id0 rest IH]; intros members i.
  - apply read_only_ret.
  - cbn [getProjectMembers_loop]. apply read_only_bind; [apply read_only_read_member|].
    intros members'. apply IH.
Qed.

Lemma try_catch_never_rejects {A} (m : Async A) (h : Error → Async A) st :
  (∀ e st', ¬ rejects (h e st').1) → ¬ rejects (try_catch m h st).1.
Proof.
  intros Hh. unfold try_catch.
  destruct (m st) as [[|t [v|e]] st1]; cbn [fst]; try by intros (t' & e' & H).
  specialize (Hh e st1). destruct (h e st1) as [q st2]. cbn [fst] in *.
  intros (t' & e' & H). apply Hh.
  destruct q as [|t2 [v2|e2]]; try done. by eexists _, _.
Qed.

(** X9. [getProjectMembers] when every read settles: the stored profiles of
    the ids whose read was answered, in the order of [memberIds]; an id
    without a profile and an id whose read failed are skipped. With
    every read answered these are the profiles of all ids that have
    one. *)
Theorem getProjectMembers_collects nets memberIds (st : Store) :
  (∀ i : nat, (i < length memberIds)%nat → settles (nets i)) →
  getProjectMembers true nets memberIds st
  = (Settles (reads_time nets 0 (length memberIds))
       (Fulfilled (omap id (imap (λ i id, profile_read st (nets i) id) memberIds))),
     st) ∧
  ((∀ i : nat, (i < length memberIds)%nat → answers (nets i)) →
   omap id (imap (λ i id, profile_read st (nets i) id) memberIds)
   = omap (λ id, coll st "users" !! id) memberIds).
Proof.
  intros Hs. split.
  - unfold getProjectMembers, try_catch, getDb. unfold bind at 1. unfold ret at 1.
    rewrite getProjectMembers_loop_run by done. cbn [delay app]. reflexivity.
  - intros Ha. clear Hs. revert nets Ha.
    induction memberIds as [|id0 rest IH]; intros nets Ha; [done|].
    rewrite imap_cons, !omap_cons_match.
    pose proof (Ha 0%nat ltac:(cbn; lia)) as H0.
    destruct (nets 0%nat) eqn:Hn; try done. cbn [profile_read id].
    rewrite <- (IH (nets ∘ S)); [done|].
    intros i Hi. apply Ha. cbn. lia.
Qed.

Lemma getProjectMembers_collects_witness :
  (∀ i : nat, (i < length ["alice"; "bob"])%nat →
              settles ((λ i, match i with 0%nat => Fails 5 (StoreError "offline")
                                     | _ => Responds 7 end) i)) ∧
  (getProjectMembers true
     (λ i, match i with 0%nat => Fails 5 (StoreError "offline") | _ => Responds 7 end)
     ["alice"; "bob"]
     (put (put demo_store "users" "alice" {["name" := VStr "Alice"]})
        "users" "bob" {["name" := VStr "Bob"]})).1
  = Settles 12 (Fulfilled [{["name" := VStr "Bob"]}]).
Proof.
  assert (H : ∀ i : nat, (i < length ["alice"; "bob"])%nat →
              settles ((λ i, match i with 0%nat => Fails 5 (StoreError "offline")
                                     | _ => Responds 7 end) i)).
  { intros [|[|i]] _; exact I. }
  split; [exact H|].
  destruct (getProjectMembers_collects
              (λ i, match i with 0%nat => Fails 5 (StoreError "offline")
                            | _ => Responds 7 end)
              ["alice"; "bob"]
              (put (put demo_store "users" "alice" {["name" := VStr "Alice"]})
                 "users" "bob" {["name" := VStr "Bob"]}) H) as [Hrun _].
  rewrite Hrun. reflexivity.
Defined.

Lemma getProjectMembers_hangs nets memberIds (st : Store) :
  (∃ k : nat, (k < length memberIds)%nat ∧ nets k = Hangs) →
  (getProjectMembers true nets memberIds st).1 = Pending.
Proof.
  intros Hk. unfold getProjectMembers, try_catch, getDb.
  unfold bind at 1. unfold ret at 1.
  assert (Hloop : ∀ (i : nat) members,
             (∃ k : nat, (k < length memberIds)%nat ∧ nets (i + k)%nat = Hangs) →
             (getProjectMembers_loop nets i memberIds members st).1 = Pending).
  { clear Hk. induction memberIds as [|id0 rest IH]; intros i members (k & Hlt & Hk).
    - cbn in Hlt. lia.
    - cbn [getProjectMembers_loop]. unfold bind. rewrite read_member_run.
      assert (Hnext : nets i ≠ Hangs →
                ∃ k' : nat, (k' < length rest)%nat ∧ nets (S i + k')%nat = Hangs).
      { intros Hn. destruct k as [|k].
        - rewrite Nat.add_0_r in Hk. congruence.
        - exists k. split; [cbn in Hlt; lia|].
          by replace (S i + k)%nat with (i + S k)%nat by lia. }
      destruct (nets i) as [t|t e|] eqn:Hn; [| |done].
      + specialize (IH (S i) (members ++ option_list (profile_read st (Responds t) id0))
                      (Hnext ltac:(done))).
        destruct (getProjectMembers_loop _ _ _ _ _) as [q st2]. cbn [fst] in *.
        by rewrite IH.
      + specialize (IH (S i) (members ++ option_list (profile_read st (Fails t e) id0))
                      (Hnext ltac:(done))).
        destruct (getProjectMembers_loop _ _ _ _ _) as [q st2]. cbn [fst] in *.
        by rewrite IH. }
  specialize (Hloop 0%nat [] Hk).
  destruct (getProjectMembers_loop _ _ _ _ _) as [q st2]. cbn [fst] in *.
  by rewrite Hloop.
Qed.

(** X10. [getProjectMembers] never rejects and never writes; without a
    database handle the result is the empty list; a read that hangs makes
    the whole call hang, as no read is time-bounded. *)
Theorem getProjectMembers_total db nets memberIds (st : Store) :
  ¬ rejects (getProjectMembers db nets memberIds st).1 ∧
  (getProjectMembers db nets memberIds st).2 = st ∧
  (db = false →
   (getProjectMembers db nets memberIds st).1 = Settles 0 (Fulfilled [])) ∧
  (db = true → (∃ k : nat, (k < length memberIds)%nat ∧ nets k = Hangs) →
   (getProjectMembers db nets memberIds st).1 = Pending).
Proof.
  split; [|split; [|split]].
  - apply try_catch_never_rejects. intros e st'. by intros (t & e' & H).
  - apply read_only_getProjectMembers.
  - by intros ->.
  - intros ->. apply getProjectMembers_hangs.
Qed.

(** ** Wellness settings *)

Lemma wellness_payload_defined projectId userId (settings : Doc) :
  ¬ has_undefined settings →
  ¬ has_undefined
      (<["created_at" := VServerTimestamp]> (wellness_record projectId userId settings)).
Proof. intros Hs. unfold wellness_record. by repeat apply not_undefined_insert. Qed.

Lemma getWellnessSettings_run db net now projectId userId (st : Store) :
  getWellnessSettings db net now projectId userId st
  = (if db then
       match net with
       | Responds t =>
           Settles t (Fulfilled
             (with_date "created_at" now
                <$> coll st "wellness_settings" !! role_key projectId userId))
       | Fails t _ => Settles t (Fulfilled None)
       | Hangs => Pending
       end
     else Settles 0 (Fulfilled None), st).
Proof.
  unfold getWellnessSettings, try_catch, bind, read, getDb, ret, throw, getDoc.
  destruct db; [|done].
  destruct net as [t|t e|]; cbn [respond delay fst snd]; [|by rewrite ?N.add_0_r|done].
  destruct (coll st "wellness_settings" !! role_key projectId userId);
    cbn [delay fst snd fmap option_fmap option_map]; by rewrite ?N.add_0_r.
Qed.

Lemma saveWellnessSettings_run t srv projectId userId (settings : Doc) (st : Store) :
  ¬ has_undefined settings →
  saveWellnessSettings true (Responds t) srv projectId userId settings st
  = (Settles t (Fulfilled tt),
     put st "wellness_settings" (role_key projectId userId)
       (set_fields srv
          (<["created_at" := VServerTimestamp]>
             (wellness_record projectId userId settings)))).
Proof.
  intros Hs. unfold saveWellnessSettings, getDb, setDoc. unfold bind, ret.
  by rewrite commit_single_set by by apply wellness_payload_defined.
Qed.

(** X11. Round trip of the wellness settings: what [saveWellnessSettings]
    wrote is what [getWellnessSettings] reads, with the server's time as
    creation date. The record is replaced, not merged: fields of an
    earlier record that the new settings do not carry are gone. *)
Theorem wellness_round_trip t t' srv now projectId userId (settings : Doc) (st : Store) :
  ¬ has_undefined settings →
  let run := saveWellnessSettings true (Responds t) srv projectId userId settings st in
  run.1 = Settles t (Fulfilled tt) ∧
  ∃ w, getWellnessSettings true (Responds t') now projectId userId run.2
       = (Settles t' (Fulfilled (Some w)), run.2) ∧
       w !! "created_at" = Some (VDate srv) ∧
       w !! "project_id" = Some (VStr projectId) ∧
       w !! "user_id" = Some (VStr userId) ∧
       ∀ k, k ∉ ["created_at"; "project_id"; "user_id"] →
            w !! k = stored srv None <$> settings !! k.
Proof.
  intros Hs run. subst run.
  rewrite saveWellnessSettings_run by done.
  cbn [fst snd]. split; [done|].
  eexists. split.
  { rewrite getWellnessSettings_run, coll_put_eq. reflexivity. }
  unfold with_date, wellness_record. split; [|split; [|split]].
  - rewrite lookup_insert_eq, lookup_set_fields. by rewrite lookup_insert_eq.
  - rewrite lookup_insert_ne by done. rewrite lookup_set_fields.
    rewrite lookup_insert_ne by done. by rewrite lookup_insert_eq.
  - rewrite lookup_insert_ne by done. rewrite lookup_set_fields.
    rewrite !lookup_insert_ne by done. by rewrite lookup_insert_eq.
  - intros k Hk.
    assert (k ≠ "created_at" ∧ k ≠ "project_id" ∧ k ≠ "user_id") as (H1 & H2 & H3).
    { repeat split; intros ->; apply Hk; set_solver. }
    rewrite lookup_insert_ne by done. rewrite lookup_set_fields.
    by rewrite !lookup_insert_ne by done.
Qed.

Lemma wellness_round_trip_witness :
  ¬ has_undefined ({["break_interval" := VNum 45]} : Doc) ∧
  ∃ w, (getWellnessSettings true (Responds 4) 9 "p1" "alice"
          (saveWellnessSettings true (Responds 6) 5 "p1" "alice"
             {["break_interval" := VNum 45]} demo_store).2).1
       = Settles 4 (Fulfilled (Some w)) ∧
       w !! "created_at" = Some (VDate 5).
Proof.
  assert (H : ¬ has_undefined ({["break_interval" := VNum 45]} : Doc)).
  { intros (k & v & Hk & ->). by apply lookup_singleton_Some in Hk as [_ Hk]. }
  split; [exact H|].
  destruct (wellness_round_trip 6 4 5 9 "p1" "alice" {["break_interval" := VNum 45]}
              demo_store H) as (_ & w & Hrun & Hc & _).
  exists w. split; [by rewrite Hrun | exact Hc].
Defined.

(** [getWellnessSettings] never rejects and never writes: without a
    database handle, on a failed read and when no record exists the
    result is [null]. *)
Lemma getWellnessSettings_null db net now projectId userId (st : Store) :
  ¬ rejects (getWellnessSettings db net now projectId userId st).1 ∧
  (getWellnessSettings db net now projectId userId st).2 = st ∧
  (db = false ∨ (∃ t e, net = Fails t e) ∨
   (answers net ∧ coll st "wellness_settings" !! role_key projectId userId = None) →
   ∃ t, (getWellnessSettings db net now projectId userId st).1
        = Settles t (Fulfilled None)).
Proof.
  rewrite getWellnessSettings_run. cbn [fst snd]. split; [|split; [done|]].
  - intros (t & e & H). destruct db; [destruct net|]; done.
  - intros [->|[(t & e & ->)|[Ha Hnone]]].
    + by eexists.
    + destruct db; by eexists.
    + destruct db; [|by eexists]. destruct net; try done.
      rewrite Hnone. by eexists.
Qed.

(** ** Tasks: create, update, delete *)

Lemma createTask_run t srv newId (task : Doc) (st : Store) :
  createTask true (Responds t) srv newId task st
  = (Settles t (Fulfilled newId),
     put st "tasks" newId (set_fields srv (createTask_payload newId task))).
Proof.
  unfold createTask, getDb, setDoc. unfold bind at 1. unfold ret at 1.
  unfold bind. rewrite commit_single_set by apply strip_undefined_defined.
  unfold ret. cbn [delay]. by rewrite !N.add_0_r.
Qed.

Lemma lookup_strip_undefined (o : Doc) k :
  strip_undefined o !! k
  = match o !! k with
    | Some VUndefined | None => None
    | Some v => Some v
    end.
Proof.
  apply option_eq. intros v. rewrite strip_undefined_lookup.
  destruct (o !! k) as [w|]; [|by split; [intros [? _]|]].
  destruct w; split; try (by intros [? ?]); try (by intros [= <-]).
  intros [H1 H2]. by injection H1 as <-.
Qed.




(** X14. [deleteTask] succeeds whether or not the task is stored; afterwards
    the task is absent and every other document is as before. A task that
    was created and then deleted leaves the task collection as it was,
    when the id was fresh. *)
Theorem deleteTask_removes t srv taskId (st : Store) :
  let run := deleteTask true (Responds t) srv taskId st in
  run.1 = Settles t (Fulfilled tt) ∧
  coll run.2 "tasks" !! taskId = None ∧
  (∀ c id, (c, id) ≠ ("tasks", taskId) → coll run.2 c !! id = coll st c !! id) ∧
  (∀ t' srv' task,
     coll st "tasks" !! taskId = None →
     coll (deleteTask true (Responds t) srv taskId
             (createTask true (Responds t') srv' taskId task st).2).2 "tasks"
     = coll st "tasks").
Proof.
  assert (Hrun : ∀ st', deleteTask true (Responds t) srv taskId st'
                        = (Settles t (Fulfilled tt), remove st' "tasks" taskId)).
  { intros st'. unfold deleteTask, getDb, deleteDoc. unfold bind, ret, commit.
    cbn [forallb op_payload_ok apply_ops apply_op delay]. reflexivity. }
  intros run. subst run. rewrite !Hrun. cbn [fst snd].
  split; [done|]. split; [apply coll_remove_eq|]. split.
  - intros c id Hne. by rewrite coll_remove_ne.
  - intros t' srv' task Hfresh. rewrite Hrun, createTask_run. cbn [snd].
    apply map_eq. intros id. destruct (decide (id = taskId)) as [->|Hne].
    + by rewrite coll_remove_eq.
    + rewrite coll_remove_ne by congruence. rewrite coll_put_ne by congruence. done.
Qed.


Lemma bind_getDb_true {A} (m : Async A) (st : Store) :
  (let! _ := getDb true in m) st = m st.
Proof.
  unfold bind, getDb, ret. destruct (m st) as [[|t [v|e]] st']; cbn [delay]; try done.
Qed.



(** ** Deleting a project: what stays *)

(** X16. [deleteProject] touches the collections of tasks, messages and
    projects only: the role records of the project, its milestones,
    schedule events, resources, activities, notifications and wellness
    settings stay in the store, whatever the network does. *)
Theorem deleteProject_leaves_other_collections db tnet mnet cnet srv projectId
    (st : Store) c :
  c ∉ ["tasks"; "messages"; "projects"] →
  coll (deleteProject db tnet mnet cnet srv projectId st).2 c = coll st c.
Proof.
  intros Hc.
  assert (c ≠ "tasks" ∧ c ≠ "messages" ∧ c ≠ "projects") as (H1 & H2 & H3).
  { repeat split; intros ->; apply Hc; repeat constructor. }
  destruct db; [|done].
  assert (Hrun : settles tnet → settles mnet →
            coll (deleteProject true tnet mnet cnet srv projectId st).2 c = coll st c).
  { intros Ht Hm. rewrite deleteProject_run by done.
    match goal with |- context [commit cnet srv ?b st] =>
      pose proof (commit_frame cnet srv c b st) as Hf;
      destruct (commit cnet srv b st) as [p st'] end.
    cbn [snd] in *. apply Hf.
    rewrite !Forall_app. repeat split.
    + apply Forall_forall. intros op Hop.
      apply list_elem_of_fmap in Hop as (d & -> & _). done.
    + apply Forall_forall. intros op Hop.
      apply list_elem_of_fmap in Hop as (d & -> & _). done.
    + by repeat constructor. }
  destruct tnet as [tt'|tt' te|]; [| |done];
    (destruct mnet as [mt|mt me|]; [by apply Hrun|by apply Hrun|done]).
Qed.

Lemma deleteProject_leaves_other_collections_witness :
  ("project_roles" ∉ ["tasks"; "messages"; "projects"]) ∧
  coll (deleteProject true (Responds 3) (Responds 4) (Responds 5) 0 "p1"
          (put demo_store "project_roles" (role_key "p1" "alice")
             (role_doc "p1" "alice" "admin"))).2 "project_roles"
    !! role_key "p1" "alice"
  = Some (role_doc "p1" "alice" "admin").
Proof.
  assert (H : "project_roles" ∉ ["tasks"; "messages"; "projects"]).
  { intros Hin. repeat (apply elem_of_cons in Hin as [Hin|Hin]; [done|]).
    by apply elem_of_nil in Hin. }
  split; [exact H|].
  rewrite (deleteProject_leaves_other_collections true (Responds 3) (Responds 4)
             (Responds 5) 0 "p1" _ "project_roles" H).
  apply coll_put_eq.
Defined.

(** ** Project fields *)

(** X17. [updateProjectUrls] hands its argument to the store as it is: an
    optional url that is present but unset makes the call reject before
    anything is sent, and nothing is written; with every url set, the
    urls are written over the project and its other fields stay. *)
Theorem updateProjectUrls_unfiltered net srv projectId (urls : Doc) (st : Store) :
  (has_undefined urls →
   updateProjectUrls true net srv projectId urls st
   = (Settles 0 (Rejected InvalidData), st)) ∧
  (¬ has_undefined urls →
   ∀ t old, net = Responds t → coll st "projects" !! projectId = Some old →
     ∃ p, updateProjectUrls true net srv projectId urls st
          = (Settles t (Fulfilled tt), put st "projects" projectId p) ∧
          (∀ k v, urls !! k = Some v → p !! k = Some (stored srv (old !! k) v)) ∧
          (∀ k, urls !! k = None → p !! k = old !! k)).
Proof.
  unfold updateProjectUrls, updateDoc. split.
  - intros Hu. rewrite bind_getDb_true. unfold commit. cbn [forallb op_payload_ok].
    by rewrite bool_decide_eq_false_2 by by intros Hn.
  - intros Hd t old -> Hold. rewrite bind_getDb_true. unfold commit.
    cbn [forallb op_payload_ok]. rewrite bool_decide_eq_true_2 by done.
    cbn [andb apply_ops apply_op]. rewrite Hold.
    eexists. split; [done|]. split.
    + intros k v Hk. by rewrite lookup_update_fields, Hk.
    + intros k Hk. by rewrite lookup_update_fields, Hk.
Qed.

Lemma getProject_after_put t now projectId (st : Store) d :
  (t <= 3000)%N →
  getProject true (Responds t) now projectId (put st "projects" projectId d)
  = (Settles t (Fulfilled (Some (with_date "created_at" now d))),
     put st "projects" projectId d).
Proof. intros Ht. rewrite getProject_run by done. by rewrite coll_put_eq. Qed.

(** Demo mode round trip: after [updateDemoMode] the project read back
    carries the flag that was set and is otherwise the project read
    before; on a project that does not exist the update rejects and
    creates nothing. *)
Lemma updateDemoMode_read_back t t' srv now projectId enabled (st : Store) :
  (t' <= 3000)%N →
  let run := updateDemoMode true (Responds t) srv projectId enabled st in
  (∀ old, coll st "projects" !! projectId = Some old →
     run.1 = Settles t (Fulfilled tt) ∧
     ∃ p, getProject true (Responds t') now projectId run.2
          = (Settles t' (Fulfilled (Some p)), run.2) ∧
          p !! "demo_mode" = Some (VBool enabled) ∧
          ∀ k, k ≠ "demo_mode" → p !! k = with_date "created_at" now old !! k) ∧
  (coll st "projects" !! projectId = None →
   run = (Settles t (Rejected NotFound), st)).
Proof.
  intros Ht' run. subst run. unfold updateDemoMode, updateDoc.
  rewrite bind_getDb_true. unfold commit. cbn [forallb op_payload_ok].
  rewrite bool_decide_eq_true_2.
  2:{ intros (k & v & Hk & ->). by apply lookup_singleton_Some in Hk as [_ Hk]. }
  cbn [andb apply_ops apply_op]. split.
  - intros old ->. cbn [fst snd]. split; [done|].
    eexists. split; [by apply getProject_after_put|].
    rewrite update_fields_singleton. cbn [stored]. unfold with_date. split.
    + rewrite lookup_insert_ne by done. apply lookup_insert_eq.
    + intros k Hk. destruct (decide (k = "created_at")) as [->|Hc].
      * rewrite !lookup_insert_eq. by rewrite lookup_insert_ne.
      * rewrite !(lookup_insert_ne _ "created_at") by done.
        by rewrite lookup_insert_ne.
  - by intros ->.
Qed.

(** ** Shared resources *)

Lemma getProjectResources_run db net clock projectId (st : Store) :
  getProjectResources db net clock projectId st
  = (if db then
       match net with
       | Responds t =>
           Settles t (Fulfilled
             (imap (λ i (d : string * Doc), with_date "created_at" (clock i) d.2)
                (query st "shared_resources" (where_eq "project_id" (VStr projectId)))))
       | Fails t _ => Settles t (Fulfilled [])
       | Hangs => Pending
       end
     else Settles 0 (Fulfilled []), st).
Proof.
  unfold getProjectResources, try_catch, bind, read, getDb, ret, throw, getDocs.
  destruct db; [|done].
  destruct net as [t|t e|]; cbn [respond delay fst snd]; by rewrite ?N.add_0_r.
Qed.

(** X18. Round trip of a shared resource: once uploaded, the resource is in
    the list [getProjectResources] returns for its project, under its new
    id and with the server's time as creation date; every record of the
    list belongs to the project asked for. *)
Theorem resource_round_trip t t' srv clock projectId newId (resource : Doc)
    (st : Store) :
  resource !! "project_id" = Some (VStr projectId) →
  let run := uploadResource true (Responds t) srv newId resource st in
  run.1 = Settles t (Fulfilled newId) ∧
  ∃ l, getProjectResources true (Responds t') clock projectId run.2
       = (Settles t' (Fulfilled l), run.2) ∧
       (∃ r, r ∈ l ∧ r !! "resource_id" = Some (VStr newId) ∧
             r !! "created_at" = Some (VDate srv) ∧
             ∀ k, k ≠ "resource_id" → k ≠ "created_at" →
                  r !! k = match resource !! k with
                           | Some VUndefined | None => None
                           | Some v => Some (stored srv None v)
                           end) ∧
       (∀ r, r ∈ l → r !! "project_id" = Some (VStr projectId)).
Proof.
  intros Hp run. subst run.
  assert (Hrun : uploadResource true (Responds t) srv newId resource st
                 = (Settles t (Fulfilled newId),
                    put st "shared_resources" newId
                      (set_fields srv (uploadResource_payload newId resource)))).
  { unfold uploadResource, getDb, setDoc. unfold bind at 1. unfold ret at 1.
    unfold bind. rewrite commit_single_set by apply strip_undefined_defined.
    unfold ret. cbn [delay]. by rewrite !N.add_0_r. }
  rewrite Hrun. cbn [fst snd]. split; [done|].
  eexists. split; [by rewrite getProjectResources_run|].
  set (rec := set_fields srv (uploadResource_payload newId resource)).
  set (st' := put st "shared_resources" newId rec).
  assert (Hproj : rec !! "project_id" = Some (VStr projectId)).
  { subst rec. unfold uploadResource_payload.
    rewrite lookup_set_fields, lookup_strip_undefined.
    rewrite !lookup_insert_ne by done. by rewrite Hp. }
  split.
  - assert (Hq : (newId, rec) ∈ query st' "shared_resources"
                                   (where_eq "project_id" (VStr projectId))).
    { apply (query_elem st' "shared_resources"
               (where_eq "project_id" (VStr projectId))).
      split; [apply coll_put_eq | exact Hproj]. }
    apply list_elem_of_lookup in Hq as [i Hi].
    exists (with_date "created_at" (clock i) rec). split.
    { apply list_elem_of_lookup. exists i. by rewrite list_lookup_imap, Hi. }
    subst rec. unfold with_date, uploadResource_payload.
    split; [|split].
    + rewrite lookup_insert_ne by done.
      rewrite lookup_set_fields, lookup_strip_undefined.
      rewrite lookup_insert_ne by done. by rewrite lookup_insert_eq.
    + rewrite lookup_insert_eq, lookup_set_fields, lookup_strip_undefined.
      by rewrite lookup_insert_eq.
    + intros k H1 H2. rewrite lookup_insert_ne by done.
      rewrite lookup_set_fields, lookup_strip_undefined.
      rewrite !lookup_insert_ne by done.
      destruct (resource !! k) as [[]|]; done.
  - intros r Hr. apply list_elem_of_lookup in Hr as [i Hi].
    rewrite list_lookup_imap in Hi.
    destruct (query st' _ _ !! i) as [[id d]|] eqn:Hd; [|done].
    cbn in Hi. injection Hi as <-.
    assert (Hin : (id, d) ∈ query st' "shared_resources"
                                (where_eq "project_id" (VStr projectId))).
    { apply list_elem_of_lookup. by exists i. }
    apply (query_elem st' "shared_resources"
             (where_eq "project_id" (VStr projectId))) in Hin as [_ Hw].
    unfold with_date. rewrite lookup_insert_ne by done. exact Hw.
Qed.

Lemma resource_round_trip_witness :
  ({["project_id" := VStr "p1"]} : Doc) !! "project_id" = Some (VStr "p1") ∧
  (uploadResource true (Responds 8) 5 "r1" {["project_id" := VStr "p1"]}
     demo_store).1
  = Settles 8 (Fulfilled "r1").
Proof.
  assert (H : ({["project_id" := VStr "p1"]} : Doc) !! "project_id"
              = Some (VStr "p1")) by reflexivity.
  split; [exact H|].
  destruct (resource_round_trip 8 4 5 (λ _, 0%Z) "p1" "r1"
              {["project_id" := VStr "p1"]} demo_store H) as [Hrun _].
  exact Hrun.
Defined.

(** ** The live project on the page *)

Lemma shown_project_absent mounted project post :
  Forall absent_or_error post →
  shown_project mounted project (deliver_project post) = project.
Proof.
  induction 1 as [|ev post Hev _ IH]; [done|].
  destruct ev as [now [d|]|e]; [done| |done].
  cbn [deliver_project]. unfold shown_project in *. by cbn [foldl on_project].
Qed.

(** X19. The callback of the page ignores [null]: the project on show is the
    latest snapshot in which the document existed. When the project is
    deleted, or the stream fails, the page goes on showing the last
    project it had; a project once shown is never cleared. *)
Theorem page_keeps_last_project db projectId mounted (project0 : option Doc)
    (events : list DocEvent) :
  let shown := shown_project mounted project0 (subscribeToProject db projectId events) in
  (is_Some project0 → is_Some shown) ∧
  (mounted = false → shown = project0) ∧
  (∀ pre now d post,
     db = true → mounted = true →
     events = pre ++ DocSnapshot now (Some d) :: post →
     Forall is_snapshot pre → Forall absent_or_error post →
     shown = Some (with_date "created_at" now d)).
Proof.
  intros shown. subst shown. split; [|split].
  - intros Hsome. unfold shown_project.
    assert (Hfold : ∀ effects p, is_Some p → is_Some (foldl (on_project mounted) p effects)).
    { induction effects as [|eff effects IH]; intros p Hp; [done|].
      cbn [foldl]. apply IH. destruct eff as [[q|]| |]; cbn; try done.
      by destruct mounted. }
    by apply Hfold.
  - intros ->. unfold shown_project.
    generalize (subscribeToProject db projectId events).
    intros effects. revert project0.
    induction effects as [|eff effects IH]; intros p; [done|].
    cbn [foldl]. rewrite IH. by destruct eff as [[q|]| |].
  - intros pre now d post -> -> -> Hpre Hpost.
    unfold subscribeToProject, shown_project. cbn [foldl on_project].
    fold (shown_project true project0
            (deliver_project (pre ++ DocSnapshot now (Some d) :: post))).
    revert project0. induction Hpre as [|ev pre Hev _ IH]; intros project0.
    + cbn [app deliver_project]. unfold shown_project. cbn [foldl on_project].
      by apply shown_project_absent.
    + destruct ev as [now' [d'|]|e]; [| |done]; cbn [app deliver_project];
        unfold shown_project; cbn [foldl on_project]; apply IH.
Qed.

(** ** The status change with a stale closure *)

(** X20. The revert of [handleUpdateTaskStatus] reads the task list the
    handler closed over, not the list on show: when the closed-over list
    does not hold the task, a rejected write is not reverted; when it
    does, the task is put on the status found there. *)
Theorem status_revert_reads_closure (tasks view : list Doc) db net srv taskId status
    (st : Store) :
  rejects (updateTask db net srv taskId {["status" := VStr status]} st).1 →
  let run := handleUpdateTaskStatus tasks db net srv taskId status view st in
  ((∀ t, t ∈ tasks → t !! "task_id" ≠ Some (VStr taskId)) →
   run.1.2 = set_status taskId (VStr status) view) ∧
  (∀ orig, orig ∈ tasks → orig !! "task_id" = Some (VStr taskId) →
     ∃ orig', orig' ∈ tasks ∧ orig' !! "task_id" = Some (VStr taskId) ∧
              run.1.2 = set_status taskId (field orig' "status") view).
Proof.
  intros (t & e & Hrej) run. subst run. unfold handleUpdateTaskStatus.
  destruct (updateTask db net srv taskId {["status" := VStr status]} st) as [p st'].
  cbn [fst snd] in *. subst p. split.
  - intros Hnone. destruct (find _ tasks) as [o|] eqn:Hfind; [|done].
    apply find_some in Hfind as [Hin Hid].
    apply bool_decide_eq_true in Hid. apply list_elem_of_In in Hin.
    by destruct (Hnone o Hin).
  - intros orig Hin Hid. destruct (find _ tasks) as [o|] eqn:Hfind.
    + apply find_some in Hfind as [Hin' Hid'].
      apply bool_decide_eq_true in Hid'. apply list_elem_of_In in Hin'.
      exists o. split; [done|]. split; [done|]. apply set_status_twice.
    + apply list_elem_of_In in Hin.
      pose proof (find_none _ _ Hfind orig Hin) as Hn. cbn in Hn.
      by apply bool_decide_eq_false in Hn.
Qed.

Lemma status_revert_reads_closure_witness :
  rejects (updateTask true (Fails 5 (StoreError "offline")) 0 "t1"
             {["status" := VStr "Done"]} demo_store).1 ∧
  (handleUpdateTaskStatus [] true (Fails 5 (StoreError "offline")) 0 "t1" "Done"
     [demo_task "t1" "ToDo"] demo_store).1.2
  = set_status "t1" (VStr "Done") [demo_task "t1" "ToDo"].
Proof.
  assert (H : rejects (updateTask true (Fails 5 (StoreError "offline")) 0 "t1"
                         {["status" := VStr "Done"]} demo_store).1).
  { exists 5%N, (StoreError "offline"). reflexivity. }
  split; [exact H|].
  destruct (status_revert_reads_closure [] [demo_task "t1" "ToDo"] true
              (Fails 5 (StoreError "offline")) 0 "t1" "Done" demo_store H)
    as [Hnone _].
  assert (Hn : ∀ t : Doc, t ∈ @nil Doc → t !! "task_id" ≠ Some (VStr "t1")).
  { intros t Ht. inversion Ht. }
  exact (Hnone Hn).
Defined.

(** ** Adding a task from the page *)

Lemma form_task_payload_defined newId projectId form :
  newTaskAssignee form ≠ VUndefined →
  ¬ has_undefined (addTask_payload newId (form_task projectId form)).
Proof.
  intros Ha. unfold addTask_payload, form_task, field, list_to_map.
  cbn [foldr fst snd]. rewrite decide_False by (intros H; by apply H).
  repeat (apply not_undefined_insert; [done|]). apply not_undefined_empty.
Qed.

Lemma addTask_never_rejects db net srv now newId task (st : Store) :
  ¬ rejects (addTask db net srv now newId task st).1.
Proof. apply try_catch_never_rejects. intros e st'. by intros (t & e' & H). Qed.

Lemma addTask_unanswered db net srv now newId task (st : Store) :
  db = false ∨ (∃ t e, net = Fails t e) →
  ∃ t, addTask db net srv now newId task st = (Settles t (Fulfilled None), st).
Proof.
  intros Hno. unfold addTask, try_catch, bind, getDb, ret, throw, setDoc, commit.
  destruct db; [|by eexists].
  destruct Hno as [|(t & e & ->)]; [done|].
  cbn [forallb op_payload_ok andb]. destruct (bool_decide _); by eexists.
Qed.

Lemma addTask_run t srv now newId task (st : Store) :
  ¬ has_undefined (addTask_payload newId task) →
  addTask true (Responds t) srv now newId task st
  = (Settles t (Fulfilled (Some (addTask_newTask now newId task))),
     put st "tasks" newId (set_fields srv (addTask_payload newId task))).
Proof.
  intros Hd. unfold addTask, try_catch, getDb, setDoc. unfold bind at 1. unfold ret at 1.
  unfold bind. rewrite commit_single_set by done.
  unfold ret. cbn [delay]. by rewrite !N.add_0_r.
Qed.

(** X21. [handleAddTask]: a title of white space only does nothing at all.
    Otherwise the failure toast can never be shown, as [addTask] turns
    every failure into [null]: when the write fails the list stays as it
    was, and still the form is reset and "Task added!" is shown. When the
    write goes through, the new task is appended to the list and stored;
    a task built from the form is never refused for an unset field. *)
Theorem handleAddTask_outcomes db net srv now newId projectId (form : TaskForm)
    (tasks : list Doc) (st : Store) :
  let run := handleAddTask db net srv now newId projectId form tasks st in
  (blank (newTaskTitle form) = true → run = (form, tasks, [], st)) ∧
  (blank (newTaskTitle form) = false →
   ("Failed to add task" ∉ run.1.2) ∧
   (db = false ∨ (∃ t e, net = Fails t e) →
    run = (form_reset, tasks, ["Task added!"], st)) ∧
   (newTaskAssignee form ≠ VUndefined → ∀ t, db = true → net = Responds t →
    run = (form_reset,
           tasks ++ [addTask_newTask now newId (form_task projectId form)],
           ["Task added!"],
           put st "tasks" newId
             (set_fields srv (addTask_payload newId (form_task projectId form)))))).
Proof.
  intros run. subst run. unfold handleAddTask. split; [by intros ->|].
  intros ->. split; [|split].
  - pose proof (addTask_never_rejects db net srv now newId
                  (form_task projectId form) st) as Hnr.
    destruct (addTask _ _ _ _ _ _ _) as [[|t [v|e]] st']; cbn [fst snd] in *.
    + apply not_elem_of_nil.
    + intros Hin. apply elem_of_cons in Hin as [Hin|Hin]; [done|].
      by apply elem_of_nil in Hin.
    + destruct Hnr. by exists t, e.
  - intros Hno.
    destruct (addTask_unanswered db net srv now newId (form_task projectId form)
                st Hno) as (t & ->).
    done.
  - intros Ha t -> ->.
    by rewrite addTask_run by by apply form_task_payload_defined.
Qed.

(** ** Loading the project page *)

Lemma member_ids_with_date now (d : Doc) :
  member_ids (with_date "created_at" now d) = member_ids d.
Proof. unfold member_ids, with_date. by rewrite lookup_insert_ne. Qed.

Lemma member_ids_array (d : Doc) : members_of d ≠ [] → member_ids d = members_of d.
Proof.
  unfold member_ids, members_of. by destruct (d !! "members") as [[]|].
Qed.

(** X22. [loadProject]. The fetches it awaits never reject, so its [catch]
    branch is never taken and the only error it can show is "Project not
    found". That error is also what a mounted page shows when the store
    does not answer within the 3000 ms of [getProject]. When the project
    is loaded but a read of a member profile hangs, the page shows the
    project and never opens its live streams. *)
Theorem loadProject_outcomes db net nets now message projectId unmount
    (s : PageState) (st : Store) :
  let s' := loadProject db net nets now message projectId unmount s st in
  (error s' = error s ∨ error s' = Some "Project not found") ∧
  (no_answer_by 3000 net → unmount = None →
   s' = {| project := project s; members := members s; loading := false;
           error := Some "Project not found"; subscribed := subscribed s |}) ∧
  (∀ t d, db = true → net = Responds t → (t <= 3000)%N → unmount = None →
     coll st "projects" !! projectId = Some d →
     (∃ k : nat, (k < length (members_of d))%nat ∧ nets k = Hangs) →
     s' = {| project := Some (with_date "created_at" now d); members := members s;
             loading := false; error := error s; subscribed := false |}).
Proof.
  intros s'. subst s'. split; [|split].
  - unfold loadProject.
    destruct (getProject_resolves db net now projectId st) as (t & v & _ & ->).
    cbn [fst]. destruct (mounted_at unmount t); cbn [negb]; [|by left].
    destruct v as [p|]; [|by right].
    destruct (member_ids p); [by left|].
    destruct (getProjectMembers _ _ _ _).1 as [|t' [ms|e]]; by left.
  - intros Hno ->. unfold loadProject.
    destruct (getProject_no_answer db net now projectId st Hno) as (t & _ & ->).
    done.
  - intros t d -> -> Ht -> Hd Hk. unfold loadProject.
    rewrite getProject_run by done. rewrite Hd. cbn [fst fmap option_fmap option_map].
    cbn [mounted_at negb]. rewrite member_ids_with_date.
    assert (Hne : members_of d ≠ []).
    { intros Hnil. rewrite Hnil in Hk. destruct Hk as (k & Hlt & _). cbn in Hlt. lia. }
    rewrite (member_ids_array d Hne).
    rewrite (getProjectMembers_hangs nets (members_of d) st Hk).
    by destruct (members_of d) as [|m ms].
Qed.

(** ** The auth context *)

Lemma before_at_no_at s :
  AuthContext.at_sign ∉ String.list_ascii_of_string (AuthContext.before_at s).
Proof.
  induction s as [|c s IH]; cbn [AuthContext.before_at String.list_ascii_of_string].
  - apply not_elem_of_nil.
  - destruct (Ascii.eqb_spec c AuthContext.at_sign); cbn [String.list_ascii_of_string].
    + apply not_elem_of_nil.
    + apply not_elem_of_cons. split; [congruence | done].
Qed.

Lemma profile_fields_name usr name tz :
  AuthContext.profile_fields usr name tz !! "name" = Some name.
Proof. reflexivity. Qed.

(** X23. The name of a default profile is never empty: the display name when
    there is one, else the part of the e-mail address before its first
    "@", else "User" (also for an address that starts with "@"). *)
Theorem default_profile_name tz (usr : AuthContext.User) :
  ∃ n, AuthContext.createDefaultProfile tz usr !! "name" = Some (VStr n) ∧
       n ≠ "" ∧
       (∀ d, AuthContext.displayName usr = Some d → d ≠ "" → n = d) ∧
       (AuthContext.displayName usr = None ∨ AuthContext.displayName usr = Some "" →
        (∀ e, AuthContext.email usr = Some e → AuthContext.before_at e ≠ "" →
              n = AuthContext.before_at e) ∧
        (∀ e, AuthContext.email usr = Some e → AuthContext.before_at e = "" →
              n = "User") ∧
        (AuthContext.email usr = None → n = "User")).
Proof.
  unfold AuthContext.createDefaultProfile. destruct usr as [u dn em].
  unfold AuthContext.email_name. cbn [AuthContext.displayName AuthContext.email].
  setoid_rewrite profile_fields_name.
  destruct dn as [[|c d]|]; destruct em as [e|];
    try destruct (AuthContext.before_at e) as [|c' e'] eqn:He;
    cbn [AuthContext.string_or_null js_or falsy];
    eexists; (split; [reflexivity|]); (split; [done|]);
    (split; [intros d0 Hd0 Hne; by simplify_eq|]);
    intros Hdn; try (by destruct Hdn as [Hdn|Hdn]);
    repeat split; intros; simplify_eq; try done; congruence.
Qed.

Lemma setDoc_merge_run t srv c id (data : Doc) (st : Store) :
  ¬ has_undefined data →
  setDoc_merge (Responds t) srv c id data st
  = (Settles t (Fulfilled tt),
     put st c id (update_fields srv data (default ∅ (coll st c !! id)))).
Proof. intros Hd. unfold setDoc_merge. by rewrite bool_decide_eq_true_2. Qed.




Lemma profile_fields_defined usr name tz :
  ¬ has_undefined
      (<["created_at" := VServerTimestamp]>
         (AuthContext.profile_fields usr (VStr name) tz)).
Proof.
  unfold AuthContext.profile_fields, list_to_map. cbn [foldr fst snd].
  repeat (apply not_undefined_insert; [try done|]); [|apply not_undefined_empty].
  unfold js_or. by destruct (AuthContext.email usr) as [[|c e]|].
Qed.

Lemma createUserProfile_run net srv tz usr name isGuest s (st : Store) :
  AuthContext.createUserProfile true net srv tz usr name isGuest s st
  = (Settles 0
       (Fulfilled (AuthContext.with_profile s
          (Some (AuthContext.profile_fields usr
                   (VStr (AuthContext.profile_name usr name isGuest)) tz)))),
     match net with
     | Responds _ =>
         put st "users" (AuthContext.uid usr)
           (set_fields srv
              (<["created_at" := VServerTimestamp]>
                 (AuthContext.profile_fields usr
                    (VStr (AuthContext.profile_name usr name isGuest)) tz)))
     | _ => st
     end).
Proof.
  unfold AuthContext.createUserProfile, background, setDoc, bind, ret, commit.
  cbn [forallb op_payload_ok].
  rewrite bool_decide_eq_true_2 by apply profile_fields_defined.
  cbn [andb apply_ops apply_op]. by destruct net.
Qed.

(** X25. [signInWithGoogle] takes the stored profile when the read finds one.
    When the read fails it falls back to creating a profile, and the
    write of that profile is not a merge: if it goes through, whatever
    profile was stored for the user is replaced by a new one, with no
    skills and a new creation time. While the read hangs the sign-in does
    not complete. *)
Theorem signInWithGoogle_profile rnet wnet srv tz (usr : AuthContext.User)
    (s : AuthContext.AuthState) (st : Store) :
  let run := AuthContext.signInWithGoogle true rnet wnet srv tz usr s st in
  let fresh := AuthContext.profile_fields usr
                 (VStr (AuthContext.display_or_User usr)) tz in
  (∀ t data, rnet = Responds t →
     coll st "users" !! AuthContext.uid usr = Some data →
     run = (Settles t (Fulfilled (AuthContext.with_profile s (Some data))), st)) ∧
  (∀ t e wt, rnet = Fails t e → wnet = Responds wt →
     run.1 = Settles t (Fulfilled (AuthContext.with_profile s (Some fresh))) ∧
     ∃ r, coll run.2 "users" !! AuthContext.uid usr = Some r ∧
          r !! "skills" = Some (VStrings []) ∧
          r !! "created_at" = Some (VTimestamp srv) ∧
          r !! "name" = Some (VStr (AuthContext.display_or_User usr))) ∧
  (rnet = Hangs → run = (Pending, st)).
Proof.
  intros run fresh. subst run fresh. unfold AuthContext.signInWithGoogle.
  split; [|split].
  - intros t data -> Hdata. unfold try_catch, bind, read, ret, getDoc.
    cbn [respond]. rewrite Hdata. cbn [delay]. by rewrite N.add_0_r.
  - intros t e wt -> ->. unfold try_catch, bind, read, getDoc. cbn [respond].
    rewrite createUserProfile_run. cbn [delay fst snd]. rewrite N.add_0_r.
    assert (Hname : AuthContext.profile_name usr (AuthContext.display_or_User usr) false
                    = AuthContext.display_or_User usr).
    { unfold AuthContext.profile_name, AuthContext.display_or_User.
      destruct (AuthContext.displayName usr) as [n|]; [|done].
      destruct (decide (n = "")) as [->|Hn]; [done|]. by rewrite decide_False. }
    rewrite Hname. split; [done|]. eexists. split; [apply coll_put_eq|].
    repeat split; reflexivity.
  - by intros ->.
Qed.

(** X26. A logout followed by a sign-in of the same user. [logout] merges
    [online_status: false] into the stored profile, creating it when the
    user had none, and nothing sets the flag again at sign-in: the
    profile shown after the sign-in is the stored one with
    [online_status: false], and for a user who had no stored profile it
    is that flag alone, without a name. *)
Theorem logout_then_sign_in t t' t'' srv tz (usr : AuthContext.User)
    (s : AuthContext.AuthState) (st : Store) :
  AuthContext.user s = Some usr →
  let out := AuthContext.logout true true (Responds t) srv
               (Settles t' (Fulfilled tt)) s st in
  let back := AuthContext.authStateChanged true (Responds t'') tz (Some usr) out.2 in
  AuthContext.user out.1.1 = None ∧
  AuthContext.userProfile out.1.1 = None ∧
  AuthContext.userProfile back.2
  = Some (<["online_status" := VBool false]>
            (default ∅ (coll st "users" !! AuthContext.uid usr))) ∧
  (coll st "users" !! AuthContext.uid usr = None →
   AuthContext.userProfile back.2 = Some {["online_status" := VBool false]} ∧
   AuthContext.userProfile back.1 = Some (AuthContext.createDefaultProfile tz usr)).
Proof.
  intros Hu out back. subst back out. unfold AuthContext.logout. rewrite Hu.
  cbn [negb fst snd AuthContext.user AuthContext.userProfile].
  split; [done|]. split; [done|].
  rewrite setDoc_merge_run.
  2:{ intros (k & v & Hk & ->). by apply lookup_singleton_Some in Hk as [_ Hk]. }
  cbn [snd]. unfold AuthContext.authStateChanged, getDoc. cbn [respond snd fst].
  rewrite coll_put_eq. cbn [AuthContext.with_profile AuthContext.userProfile].
  rewrite update_fields_singleton. cbn [stored].
  split; [done|]. intros ->. cbn [default]. split; [|done].
  by rewrite insert_empty.
Qed.

Lemma logout_then_sign_in_witness :
  (AuthContext.userProfile
     (AuthContext.authStateChanged true (Responds 4) "UTC"
        (Some {| AuthContext.uid := "alice"; AuthContext.displayName := Some "Alice";
                 AuthContext.email := None |})
        (AuthContext.logout true true (Responds 2) 0 (Settles 3 (Fulfilled tt))
           {| AuthContext.user :=
                Some {| AuthContext.uid := "alice";
                        AuthContext.displayName := Some "Alice";
                        AuthContext.email := None |};
              AuthContext.userProfile := None; AuthContext.loading := false |}
           demo_store).2).2)
  = Some {["online_status" := VBool false]}.
Proof.
  destruct (logout_then_sign_in 2 3 4 0 "UTC"
              {| AuthContext.uid := "alice"; AuthContext.displayName := Some "Alice";
                 AuthContext.email := None |}
              {| AuthContext.user :=
                   Some {| AuthContext.uid := "alice";
                           AuthContext.displayName := Some "Alice";
                           AuthContext.email := None |};
                 AuthContext.userProfile := None; AuthContext.loading := false |}
              demo_store eq_refl) as (_ & _ & _ & Hstub).
  exact (proj1 (Hstub eq_refl)).
Defined.

(** ** The documentation generator *)

Lemma string_map_length f s :
  String.length (DocsGenerator.string_map f s) = String.length s.
Proof. induction s as [|c s IH]; [done|]. cbn. by rewrite IH. Qed.

Lemma string_map_chars f s :
  String.list_ascii_of_string (DocsGenerator.string_map f s)
  = map f (String.list_ascii_of_string s).
Proof. induction s as [|c s IH]; [done|]. cbn. by rewrite IH. Qed.

Lemma string_map_compose f g s :
  DocsGenerator.string_map f (DocsGenerator.string_map g s)
  = DocsGenerator.string_map (λ c, f (g c)) s.
Proof. induction s as [|c s IH]; [done|]. cbn. by rewrite IH. Qed.

Lemma string_map_ext f g s :
  (∀ c, f c = g c) → DocsGenerator.string_map f s = DocsGenerator.string_map g s.
Proof. intros H. induction s as [|c s IH]; [done|]. cbn. by rewrite H, IH. Qed.

Lemma sanitized_char c :
  let c' := DocsGenerator.lower_char
              (if DocsGenerator.is_digit c || DocsGenerator.is_upper c
                  || DocsGenerator.is_lower c
               then c else DocsGenerator.underscore) in
  DocsGenerator.file_char c' = true ∧
  DocsGenerator.lower_char
    (if DocsGenerator.is_digit c' || DocsGenerator.is_upper c'
        || DocsGenerator.is_lower c'
     then c' else DocsGenerator.underscore) = c'.
Proof.
  destruct c as [[] [] [] [] [] [] [] []]; vm_compute; by split.
Qed.

Lemma sanitized_char_explicit c :
  DocsGenerator.lower_char
    (if DocsGenerator.is_digit c || DocsGenerator.is_upper c
        || DocsGenerator.is_lower c
     then c else DocsGenerator.underscore)
  = let n := Ascii.N_of_ascii c in
    if ((48 <=? n) && (n <=? 57) || (97 <=? n) && (n <=? 122))%N then c
    else if ((65 <=? n) && (n <=? 90))%N then Ascii.ascii_of_N (n + 32)
    else Ascii.ascii_of_N 95.
Proof.
  destruct c as [[] [] [] [] [] [] [] []]; vm_compute; reflexivity.
Qed.

(** X27. The name under which the documentation is downloaded: the project
    name, code unit by code unit, with the digits (codes 48 to 57) and
    the small letters (97 to 122) kept, the capital letters (65 to 90)
    moved up by 32 to their small letters, and every other code unit
    turned into "_" (95), followed by "_documentation.md". The stem is
    as long as the project name, holds nothing but a-z, 0-9 and "_" (so
    no dot and no path separator), and cleaning it again changes
    nothing. *)
Theorem fileName_shape (projectName : string) :
  ∃ stem, DocsGenerator.fileName projectName = stem +:+ "_documentation.md" ∧
          String.list_ascii_of_string stem
          = map (λ c, let n := Ascii.N_of_ascii c in
                      if ((48 <=? n) && (n <=? 57) || (97 <=? n) && (n <=? 122))%N
                      then c
                      else if ((65 <=? n) && (n <=? 90))%N
                           then Ascii.ascii_of_N (n + 32)
                           else Ascii.ascii_of_N 95)
                (String.list_ascii_of_string projectName) ∧
          String.length stem = String.length projectName ∧
          Forall (λ c, DocsGenerator.file_char c = true) (String.list_ascii_of_string stem) ∧
          DocsGenerator.fileName stem = DocsGenerator.fileName projectName.
Proof.
  unfold DocsGenerator.fileName, DocsGenerator.toLowerCase,
    DocsGenerator.replace_non_alnum.
  eexists. split; [reflexivity|]. split; [|split; [by rewrite !string_map_length|split]].
  - rewrite !string_map_compose, string_map_chars.
    apply list_fmap_ext. intros _ c _. apply sanitized_char_explicit.
  - rewrite !string_map_compose, string_map_chars. apply Forall_fmap.
    apply Forall_forall. intros c _. apply (sanitized_char c).
  - f_equal. rewrite !string_map_compose. apply string_map_ext.
    intros c. apply (sanitized_char c).
Qed.

Example fileName_sample :
  DocsGenerator.fileName "My App 2.0" = "my_app_2_0_documentation.md".
Proof. reflexivity. Qed.

Lemma split_lines_nonempty s : DocsGenerator.split_lines s ≠ [].
Proof.
  destruct s as [|c s]; [done|]. cbn [DocsGenerator.split_lines].
  destruct (Ascii.eqb _ _); [done|]. by destruct (DocsGenerator.split_lines s).
Qed.

Lemma join_lines_cons x l ls :
  DocsGenerator.join_lines (x :: l :: ls)
  = x +:+ String (Ascii.ascii_of_N 10) (DocsGenerator.join_lines (l :: ls)).
Proof. done. Qed.

Lemma join_split_lines s :
  DocsGenerator.join_lines (DocsGenerator.split_lines s) = s.
Proof.
  induction s as [|c s IH]; [done|]. cbn [DocsGenerator.split_lines].
  pose proof (split_lines_nonempty s) as Hn.
  destruct (DocsGenerator.split_lines s) as [|l ls] eqn:Hs; [done|].
  destruct (Ascii.eqb_spec c (Ascii.ascii_of_N 10)) as [->|Hne].
  - rewrite join_lines_cons, IH. done.
  - destruct ls as [|l' ls].
    + cbn [DocsGenerator.join_lines] in *. by rewrite IH.
    + rewrite join_lines_cons in *. by rewrite <- IH.
Qed.

Lemma split_lines_no_newline s l :
  l ∈ DocsGenerator.split_lines s →
  Ascii.ascii_of_N 10 ∉ String.list_ascii_of_string l.
Proof.
  revert l. induction s as [|c s IH]; intros l Hl.
  - apply list_elem_of_singleton in Hl as ->. apply not_elem_of_nil.
  - cbn [DocsGenerator.split_lines] in Hl.
    destruct (Ascii.eqb_spec c (Ascii.ascii_of_N 10)) as [->|Hne].
    + apply elem_of_cons in Hl as [->|Hl]; [apply not_elem_of_nil | by apply IH].
    + pose proof (split_lines_nonempty s) as Hn.
      destruct (DocsGenerator.split_lines s) as [|l0 ls] eqn:Hs; [done|].
      apply elem_of_cons in Hl as [->|Hl].
      * cbn [String.list_ascii_of_string]. apply not_elem_of_cons. split; [congruence|].
        apply IH. left.
      * apply IH. by right.
Qed.

(** X28. [handleGenerate]. With a required field left blank nothing is sent
    and the documentation on show stays. Otherwise one request is sent;
    its features are the lines of the features field that are not blank,
    in their order and untrimmed, none of them holding a line break, and
    the lines of the field joined by line breaks are the field again.
    A generation that fails leaves the documentation empty: what was
    shown before is gone. While the reply is pending the page stays in
    its generating state. *)
Theorem handleGenerate_outcomes (reply : promise Doc) (form : DocsGenerator.DocsForm) :
  let run := DocsGenerator.handleGenerate reply form in
  (blank (DocsGenerator.projectName form) = true
   ∨ blank (DocsGenerator.techStack form) = true
   ∨ blank (DocsGenerator.description form) = true →
   run = (form, ["Missing fields"], None)) ∧
  (blank (DocsGenerator.projectName form) = false →
   blank (DocsGenerator.techStack form) = false →
   blank (DocsGenerator.description form) = false →
   ∃ req, run.2 = Some req ∧
     DocsGenerator.req_features req
       = filter (λ f, blank f = false)
           (DocsGenerator.split_lines (DocsGenerator.features form)) ∧
     DocsGenerator.join_lines (DocsGenerator.split_lines (DocsGenerator.features form))
       = DocsGenerator.features form ∧
     (∀ f, f ∈ DocsGenerator.req_features req →
           blank f = false ∧
           f ∈ DocsGenerator.split_lines (DocsGenerator.features form) ∧
           Ascii.ascii_of_N 10 ∉ String.list_ascii_of_string f) ∧
     (reply = Pending →
      DocsGenerator.isGenerating run.1.1 = true ∧ run.1.2 = []) ∧
     (∀ t r, reply = Settles t r →
        DocsGenerator.isGenerating run.1.1 = false ∧
        (run.1.2 = ["Generation failed"] →
         DocsGenerator.generatedDocs run.1.1 = VStr "") ∧
        (run.1.2 = ["Generation failed"] ∨ run.1.2 = ["Documentation generated!"]))).
Proof.
  intros run. subst run. unfold DocsGenerator.handleGenerate. split.
  - intros [-> | [-> | ->]]; by rewrite ?orb_true_r.
  - intros -> -> ->. cbn [orb].
    set (req := {| DocsGenerator.req_projectName := _ |}).
    exists req. split; [by destruct reply as [|t [data|e]]; [|destruct (falsy _)|]|].
    split; [done|]. split; [apply join_split_lines|]. split; [|split].
    + intros f Hf. cbn [DocsGenerator.req_features req] in Hf.
      apply list_elem_of_filter in Hf as [Hb Hin].
      split; [done|]. split; [done|]. by apply split_lines_no_newline in Hin.
    + by intros ->.
    + intros t r ->. destruct r as [data|e]; [destruct (falsy _)|]; cbn [fst snd];
        (split; [done|]); (split; [done|]); by (left + right).
Qed.

Lemma handleGenerate_outcomes_witness :
  (blank "" = true ∨ blank "Next.js" = true ∨ blank "An app" = true) ∧
  DocsGenerator.handleGenerate Pending
    {| DocsGenerator.projectName := ""; DocsGenerator.techStack := "Next.js";
       DocsGenerator.description := "An app"; DocsGenerator.features := "";
       DocsGenerator.context := ""; DocsGenerator.isGenerating := false;
       DocsGenerator.generatedDocs := VStr "old" |}
  = ({| DocsGenerator.projectName := ""; DocsGenerator.techStack := "Next.js";
        DocsGenerator.description := "An app"; DocsGenerator.features := "";
        DocsGenerator.context := ""; DocsGenerator.isGenerating := false;
        DocsGenerator.generatedDocs := VStr "old" |}, ["Missing fields"], None).
Proof.
  assert (H : blank "" = true ∨ blank "Next.js" = true ∨ blank "An app" = true)
    by (left; reflexivity).
  split; [exact H|].
  exact (proj1 (handleGenerate_outcomes Pending
           {| DocsGenerator.projectName := ""; DocsGenerator.techStack := "Next.js";
              DocsGenerator.description := "An app"; DocsGenerator.features := "";
              DocsGenerator.context := ""; DocsGenerator.isGenerating := false;
              DocsGenerator.generatedDocs := VStr "old" |}) H).
Defined.

(** ** The member map: one entry per member, the latest profile *)

Lemma jsmap_set_NoDup k v (m : list (string * Doc)) :
  NoDup m.*1 → NoDup (jsmap_set k v m).*1.
Proof.
  induction m as [|[k0 v0] m IH]; cbn [jsmap_set fmap list_fmap fst]; intros Hnd.
  - apply NoDup_singleton.
  - apply NoDup_cons in Hnd as [Hk0 Hnd].
    destruct (decide (k = k0)) as [->|Hne]; cbn [fmap list_fmap fst].
    + by apply NoDup_cons.
    + apply NoDup_cons. split; [|by apply IH].
      rewrite jsmap_set_keys. intros [->|Hin]; done.
Qed.

Lemma jsmap_set_elem k v (m : list (string * Doc)) k' v' :
  NoDup m.*1 →
  (k', v') ∈ jsmap_set k v m ↔ (k' = k ∧ v' = v) ∨ (k' ≠ k ∧ (k', v') ∈ m).
Proof.
  induction m as [|[k0 v0] m IH]; cbn [jsmap_set fmap list_fmap fst]; intros Hnd.
  - rewrite list_elem_of_singleton. split.
    + intros [= -> ->]. by left.
    + intros [[-> ->]|[_ Hin]]; [done|]. by apply elem_of_nil in Hin.
  - apply NoDup_cons in Hnd as [Hk0 Hnd].
    destruct (decide (k = k0)) as [->|Hne]; rewrite !elem_of_cons.
    + split.
      * intros [[= -> ->]|Hin]; [by left|].
        right. split; [|by right]. intros ->. apply Hk0.
        apply list_elem_of_fmap. by exists (k0, v').
      * intros [[-> ->]|[Hk' [[= -> ->]|Hin]]]; [by left|done|by right].
    + rewrite (IH Hnd). split.
      * intros [[= -> ->]|[[-> ->]|[Hk' Hin]]].
        -- right. split; [done|]. by left.
        -- by left.
        -- right. split; [done|]. by right.
      * intros [[-> ->]|[Hk' [[= -> ->]|Hin]]].
        -- right. by left.
        -- by left.
        -- right. right. by split.
Qed.

Lemma NoDup_fst_functional (m : list (string * Doc)) k v1 v2 :
  NoDup m.*1 → (k, v1) ∈ m → (k, v2) ∈ m → v1 = v2.
Proof.
  induction m as [|[k0 v0] m IH]; cbn [fmap list_fmap fst]; intros Hnd H1 H2.
  - by apply elem_of_nil in H1.
  - apply NoDup_cons in Hnd as [Hk0 Hnd].
    assert (Hkey : ∀ v, (k0, v) ∈ m → False).
    { intros v Hv. apply Hk0. apply list_elem_of_fmap. by exists (k0, v). }
    apply elem_of_cons in H1 as [H1|H1]; apply elem_of_cons in H2 as [H2|H2];
      simplify_eq; try done.
    + by destruct (Hkey v2).
    + by destruct (Hkey v1).
    + by apply IH.
Qed.

Lemma members_run_NoDup (m : list (string * Doc)) events :
  NoDup m.*1 → NoDup (members_run m events).1.*1.
Proof.
  revert m. induction events as [|ev rest IH]; intros m Hnd; [done|].
  rewrite members_run_cons. apply IH.
  destruct ev as [id [data|]|id e]; cbn [member_step fst]; [|done..].
  by apply jsmap_set_NoDup.
Qed.

Lemma members_run_keeps (m : list (string * Doc)) events id data :
  NoDup m.*1 → (id, data) ∈ m →
  (∀ data', MemberDoc id (Some data') ∉ events) →
  (id, data) ∈ (members_run m events).1.
Proof.
  revert m. induction events as [|ev rest IH]; intros m Hnd Hin Hno; [done|].
  rewrite members_run_cons.
  assert (Hrest : ∀ data', MemberDoc id (Some data') ∉ rest).
  { intros data' H. apply (Hno data'). by right. }
  destruct ev as [id' [data'|]|id' e]; cbn [member_step fst]; [|by apply IH..].
  apply IH; [by apply jsmap_set_NoDup| |done].
  apply jsmap_set_elem; [done|]. right. split; [|done].
  intros ->. apply (Hno data'). left.
Qed.

Lemma members_run_origin (m : list (string * Doc)) events id data :
  NoDup m.*1 → (id, data) ∈ (members_run m events).1 →
  (id, data) ∈ m ∨ MemberDoc id (Some data) ∈ events.
Proof.
  revert m. induction events as [|ev rest IH]; intros m Hnd Hin; [by left|].
  rewrite members_run_cons in Hin.
  destruct ev as [id' [data'|]|id' e]; cbn [member_step fst] in Hin.
  - destruct (IH _ (jsmap_set_NoDup id' data' m Hnd) Hin) as [Hm|Hev].
    + apply jsmap_set_elem in Hm as [[-> ->]|[_ Hm]]; [|by left|done].
      right. left.
    + right. by right.
  - destruct (IH _ Hnd Hin) as [Hm|Hev]; [by left|right; by right].
  - destruct (IH _ Hnd Hin) as [Hm|Hev]; [by left|right; by right].
Qed.

(** X29. The member map behind [subscribeToProjectMembers] holds each member
    id once, and under it the profile of the latest notification in
    which the user document existed: a later notification that the
    document is gone, or a stream error, leaves the entry as it is. *)
Theorem members_map_latest (events : list MemberEvent) :
  let m := (members_run [] events).1 in
  NoDup m.*1 ∧
  (∀ pre id data post,
     events = pre ++ MemberDoc id (Some data) :: post →
     (∀ data', MemberDoc id (Some data') ∉ post) →
     (id, data) ∈ m ∧ ∀ data', (id, data') ∈ m → data' = data) ∧
  (∀ id data, (id, data) ∈ m → MemberDoc id (Some data) ∈ events).
Proof.
  intros m. subst m.
  assert (Hnd : NoDup (members_run [] events).1.*1).
  { apply members_run_NoDup. constructor. }
  split; [done|]. split.
  - intros pre id data post -> Hpost.
    assert (Hgen : ∀ m0 : list (string * Doc), NoDup m0.*1 →
              (id, data) ∈ (members_run m0 (pre ++ MemberDoc id (Some data) :: post)).1).
    { clear Hnd. induction pre as [|ev pre IH]; intros m0 Hm0.
      - cbn [app]. rewrite members_run_cons. cbn [member_step fst].
        apply members_run_keeps; [by apply jsmap_set_NoDup| |done].
        apply jsmap_set_elem; [done|]. by left.
      - rewrite <- app_comm_cons, members_run_cons. apply IH.
        destruct ev as [id' [data'|]|id' e]; cbn [member_step fst]; [|done..].
        by apply jsmap_set_NoDup. }
    assert (Hin : (id, data) ∈ (members_run [] (pre ++ MemberDoc id (Some data) :: post)).1).
    { apply Hgen. constructor. }
    split; [done|]. intros data' Hin'.
    by apply (NoDup_fst_functional _ id data' data Hnd).
  - intros id data Hin.
    destruct (members_run_origin [] events id data) as [H|H]; [constructor|done| |done].
    by apply elem_of_nil in H.
Qed.

(** ** The default milestones of a 48 hour project *)

Module JsNumberFacts2.
Import JsNumber JsNumberFacts.
Local Open Scope Z_scope.


End JsNumberFacts2.







